(** * TRQuant stock-pool panel: a shallow embedding of the scan, merge and
      deduplication logic of [gui/widgets/stock_pool_panel.py] and of the
      worker of [gui/widgets/factor_filter_tab.py].

    Numbers that the Python code holds as [int] or [float] are modelled as
    exact integers ([Z]) and exact rationals ([Q]); comparisons are the
    exact ones.  Sets ([set()]) are [gset string]; lists are lists. *)

From Stdlib Require Import ZArith QArith String Ascii List Sorted Lia.
From stdpp Require Import base decidable option list sets gmap strings pretty.

Local Open Scope string_scope.
Local Open Scope list_scope.
Local Open Scope Z_scope.

(** ** Stock records *)

(** The technical signals that [TechScanWorker.run] collects in [signals]. *)
Inductive signal : Type :=
| SigLimitUp                 (* "涨停" *)
| SigBigRise (change : Q)    (* f"大涨{change_pct:.1f}%" *)
| SigRise (change : Q)       (* f"涨{change_pct:.1f}%" *)
| SigVolume3                 (* "放量3倍+" *)
| SigVolume2                 (* "放量2倍+" *)
| SigTurnover.               (* "活跃换手" *)

(** The [entry_reason] texts, kept structured instead of formatted. *)
Inductive reason : Type :=
| ReasonText (text : string)
| ReasonLeader (mainline_name : string)        (* f"🏆 主线龙头：{mainline_name}" *)
| ReasonConstituent (sector_name : string)     (* f"📈 主线成分股：{sector_name}" *)
| ReasonTech (signals : list signal)           (* f"📈 技术突破：{', '.join(signals)}" *)
| ReasonETF (amount : Q).                      (* f"💹 ETF轮动：成交{amount:.1f}亿" *)

(** The dictionary every worker emits for one stock.  [tech_score] is the
    ["_score"] key, present only in the records of the technical scan. *)
Record stock : Type := mkStock {
  code : string;
  name : string;
  source : string;
  data_source : string;
  period : string;
  priority : Z;
  mainline_score : Q;
  change_pct : Q;
  entry_reason : reason;
  sector : string;
  tech_score : option Z
}.

(** ** Python's [list.sort]

    [list.sort(key=...)] is a stable sort that only uses [<] on the keys.
    [py_sort lt] inserts each element, from the right, in front of the first
    element that is not strictly smaller: equal elements keep their order. *)

Section PySort.
Context {A : Type} (lt : A -> A -> bool).

Fixpoint py_insert (x : A) (l : list A) : list A :=
  match l with
  | [] => [x]
  | y :: l' => if lt y x then y :: py_insert x l' else x :: y :: l'
  end.

Fixpoint py_sort (l : list A) : list A :=
  match l with
  | [] => []
  | x :: l' => py_insert x (py_sort l')
  end.
End PySort.

(** Tuple comparison of the sort keys.  The keys are
    [(priority, -mainline_score, -change_pct)] in
    [MainlineScanWorker._deduplicate_and_sort] and
    [(priority, -mainline_score)] in the overview merge. *)

Definition cmp_then (c d : comparison) : comparison :=
  match c with Eq => d | _ => c end.

Definition is_Lt (c : comparison) : bool :=
  match c with Lt => true | _ => false end.

Definition key2_cmp (a b : stock) : comparison :=
  cmp_then (priority a ?= priority b)
           (Qcompare (- mainline_score a) (- mainline_score b)).

Definition key3_cmp (a b : stock) : comparison :=
  cmp_then (key2_cmp a b) (Qcompare (- change_pct a) (- change_pct b)).

Definition key2_lt (a b : stock) : bool := is_Lt (key2_cmp a b).
Definition key3_lt (a b : stock) : bool := is_Lt (key3_cmp a b).

(** ** Deduplication loops *)

(** The loop shared by both deduplications:
    [[
        seen = set(); unique = []
        for s in stocks:
            k = key(s)
            if k and k not in seen:
                seen.add(k); unique.append(s)
    ]] *)
Fixpoint dedup_loop (key : stock -> string) (seen : gset string)
    (stocks : list stock) : list stock :=
  match stocks with
  | [] => []
  | s :: rest =>
      let k := key s in
      if bool_decide (k ≠ "" ∧ k ∉ seen)
      then s :: dedup_loop key ({[k]} ∪ seen) rest
      else dedup_loop key seen rest
  end.

(** [key = code if code else name] of the overview merge. *)
Definition identity (s : stock) : string :=
  if bool_decide (code s ≠ "") then code s else name s.

(** [_deduplicate_and_sort] of [MainlineScanWorker]: the key is the code
    alone, the sort uses three components and the result is cut at 30. *)
Definition _deduplicate_and_sort (stocks : list stock) : list stock :=
  take 30 (py_sort key3_lt (dedup_loop code ∅ stocks)).

(** The tail of [StockPoolPanel._on_overview_external_done]: [unique] after
    the sort, and the rows handed to [_fill_stock_table]. *)
Definition overview_unique (all_stocks : list stock) : list stock :=
  py_sort key2_lt (dedup_loop identity ∅ all_stocks).

Definition overview_rows (all_stocks : list stock) : list stock :=
  take 50 (overview_unique all_stocks).

(** ** Effects: emitted signals, log lines and exceptions

    A worker's [run] emits Qt signals, writes log lines and calls external
    libraries that may raise.  [W E A] is a computation that leaves a trace
    of events [E] and then either returns an [A] or raises. *)

Definition exn : Type := string.

Inductive outcome (A : Type) : Type :=
| Returned (a : A)
| Raised (e : exn).
Arguments Returned {A} a.
Arguments Raised {A} e.

Definition W (E A : Type) : Type := list E * outcome A.

Definition w_ret {E A} (a : A) : W E A := ([], Returned a).

Definition w_bind {E A B} (m : W E A) (k : A -> W E B) : W E B :=
  match m with
  | (t, Returned a) => let '(t', r) := k a in (t ++ t', r)
  | (t, Raised e) => (t, Raised e)
  end.

Definition emit {E} (e : E) : W E unit := ([e], Returned tt).

(** Calling an external function whose result the world supplies. *)
Definition call {E A} (r : outcome A) : W E A := ([], r).

(** [try: body except Exception as e: handler(e)] *)
Definition try_except {E A} (body : W E A) (handler : exn -> W E A) : W E A :=
  match body with
  | (t, Returned a) => (t, Returned a)
  | (t, Raised e) => let '(t', r) := handler e in (t ++ t', r)
  end.

Declare Scope w_scope.
Delimit Scope w_scope with W.
Notation "x <- m ;; k" := (w_bind m (fun x => k))
  (at level 100, m at next level, right associativity) : w_scope.
Notation "m ;;; k" := (w_bind m (fun _ => k))
  (at level 100, right associativity) : w_scope.
Local Open Scope w_scope.

(** [for x in l: body(x)] collecting what each iteration appends. *)
Fixpoint for_each {E A B} (body : A -> W E (list B)) (l : list A) : W E (list B) :=
  match l with
  | [] => w_ret []
  | x :: rest => ys <- body x ;; zs <- for_each body rest ;; w_ret (ys ++ zs)
  end.

Inductive level : Type := LDebug | LInfo | LWarning | LError.

(** What a stock-pool worker does that the rest of the program can see:
    its [progress] and [finished] signals and its log lines.  The message
    texts of [progress] and of the log are presentation and are left out. *)
Inductive event (A : Type) : Type :=
| Progress (pct : Z)
| Finished (data : A) (src : string)
| Log (lv : level).
Arguments Progress {A} pct.
Arguments Finished {A} data src.
Arguments Log {A} lv.

(** ** Strings and numbers as the Python code uses them *)

(** [sub in s] *)
Fixpoint contains (sub s : string) : bool :=
  String.prefix sub s ||
  match s with
  | EmptyString => false
  | String _ s' => contains sub s'
  end.

(** [s.replace(old, '')] for a non-empty [old]: [skip] counts the characters
    of a match that are still to be dropped. *)
Fixpoint remove_from (old : string) (skip : nat) (s : string) : string :=
  match s with
  | EmptyString => EmptyString
  | String c s' =>
      match skip with
      | S k => remove_from old k s'
      | O => if String.prefix old s
             then remove_from old (Nat.pred (String.length old)) s'
             else String c (remove_from old O s')
      end
  end.

Definition str_remove (old s : string) : string := remove_from old O s.

Definition qle (a b : Q) : bool := Qle_bool a b.
Definition qlt (a b : Q) : bool := negb (Qle_bool b a).

(** A cell of a market-data table: missing or [None], a number, or a value
    that [float()] rejects (a non-numeric text such as ["-"]). *)
Inductive cell : Type :=
| CellNone
| CellNum (q : Q)
| CellBad.

(** [float(row.get(col, default) or default)]: a missing cell and a zero are
    both falsy and give the default. *)
Definition to_float (c : cell) (default : Q) : outcome Q :=
  match c with
  | CellNone => Returned default
  | CellNum q => Returned (if Qeq_bool q 0 then default else q)
  | CellBad => Raised "ValueError"
  end.

(** ** The external world *)

(** A theme record as read from the document store or the scores file. *)
Record mainline : Type := mkMainline {
  ml_name : string;
  ml_jqdata_mapped : bool;
  ml_jqdata_code : string;          (* [""] also stands for [None] *)
  ml_jqdata_name : string;
  ml_jqdata_type : string;
  ml_total_score : Q;
  ml_leader_stock : string;
  ml_leader_change : Q
}.

(** What [MainlineMapper.map_mainline] returns. *)
Record mapping : Type := mkMapping {
  mp_jqdata_code : string;
  mp_jqdata_name : string;
  mp_mapping_type : string
}.

(** A row of [ak.stock_zh_a_spot_em()]; name and code after [str()]. *)
Record spot_row : Type := mkSpotRow {
  r_code : string;            (* 代码 *)
  r_name : string;            (* 名称 *)
  r_change : cell;            (* 涨跌幅 *)
  r_price : cell;             (* 最新价 *)
  r_volume_ratio : cell;      (* 量比 *)
  r_turnover : cell;          (* 换手率 *)
  r_market_cap : cell         (* 总市值 *)
}.

(** A row of [ak.fund_etf_spot_em()]. *)
Record etf_row : Type := mkEtfRow {
  er_code : string;
  er_name : string;
  er_price : cell;
  er_change : cell;
  er_amount : cell;           (* 成交额 *)
  er_market : string
}.

(** The last row of [jq_client.get_price(...)]; [pr_pre_close] is [None]
    when the frame has no such column. *)
Record price_row : Type := mkPriceRow {
  pr_close : Q;
  pr_pre_close : option Q
}.

(** A stock of [ExternalDataParser.parse_all().stocks]. *)
Record parsed_stock : Type := mkParsed {
  ps_code : string;
  ps_name : string;
  ps_source : string;
  ps_period : string;
  ps_priority : Z;
  ps_entry_reason : string
}.

Inductive login_result : Type := NoConfig | AuthFailed | AuthOk.

(** Every call the workers make outside this code base, with the result
    the outside gives: a value or an exception. *)
Record world : Type := mkWorld {
  jq_login : outcome login_result;
  mongo_connect : outcome unit;
  mongo_find_latest : outcome (option (list mainline));
  composite_file : option (outcome (list mainline * list mainline));
  mapper_init : outcome unit;
  map_mainline : string -> outcome (option mapping);
  get_concept_stocks : string -> outcome (list string);
  get_industry_stocks : string -> outcome (list string);
  get_available_end_date : outcome string;
  get_all_securities : string -> outcome (gmap string string);
  get_price : string -> string -> outcome (option price_row);
  stock_zh_a_spot_em : outcome (option (list spot_row));
  fund_etf_spot_em : outcome (option (list etf_row));
  sort_values : list etf_row -> outcome (list etf_row);
  parse_all : outcome (option (list parsed_stock));
  stop_flag : nat -> bool     (* [self._stop] as read in iteration [i] *)
}.

(** ** Mock data *)

Definition mock_leader (c n : string) (score change : Q) (theme : string) : stock :=
  mkStock c n "mainline" "模拟" "medium" 1 score change
          (ReasonLeader theme) theme None.

Definition get_mock_mainline_stocks : list stock :=
  [ mock_leader "002230" "科大讯飞" 88.5 5.2 "人工智能";
    mock_leader "300750" "宁德时代" 85.3 3.8 "新能源";
    mock_leader "688981" "中芯国际" 82.1 4.5 "半导体";
    mock_leader "600760" "中航沈飞" 80.7 6.1 "军工";
    mock_leader "601012" "隆基绿能" 78.9 2.9 "光伏" ].

Definition get_mock_tech_stocks : list stock :=
  [ mkStock "300750" "宁德时代" "tech_breakout" "模拟" "short" 2 0 9.98
            (ReasonTech [SigLimitUp; SigVolume3]) "" None;
    mkStock "002594" "比亚迪" "tech_breakout" "模拟" "short" 2 0 9.95
            (ReasonTech [SigLimitUp; SigVolume2]) "" None ].

Record etf : Type := mkEtf {
  e_code : string;
  e_name : string;
  e_type : string;
  e_price : Q;
  e_change_5d : Q;
  e_amount : Q;
  e_index : string
}.

Definition get_mock_etfs : list etf :=
  [ mkEtf "159915" "创业板ETF" "宽基ETF" 2.35 8.5 125.6 "创业板指";
    mkEtf "512480" "半导体ETF" "主题ETF" 1.28 12.5 85.2 "半导体" ].

Definition get_mock_external_stocks : list stock :=
  [ mkStock "600519" "贵州茅台" "broker" "示例" "medium" 3 0 0
            (ReasonText "中信证券月度金股") "" None ].

(** ** MainlineScanWorker *)

Record MainlineScanWorker : Type := mkMainlineScanWorker {
  msw_period : string;
  max_mainlines : nat;
  max_stocks_per_mainline : nat
}.

(** A constituent as built by [_get_stocks_from_jqdata]. *)
Record constituent : Type := mkConstituent {
  c_code : string;
  c_jqdata_code : string
}.

(** One entry of the dictionary of [_get_akshare_realtime_data]. *)
Record quote : Type := mkQuote {
  q_name : string;
  q_change_pct : Q;
  q_price : Q;
  q_volume_ratio : Q;
  q_turnover : Q
}.

Section MainlineScan.
Context (w : world) (self : MainlineScanWorker).

Abbreviation M := (W (event (list stock))).

Definition _init_jqdata : M bool :=
  try_except
    (r <- call (jq_login w) ;;
     match r with
     | NoConfig => emit (Log LWarning) ;;; w_ret false
     | AuthFailed => emit (Log LWarning) ;;; w_ret false
     | AuthOk => emit (Log LInfo) ;;; w_ret true
     end)
    (fun _ => emit (Log LError) ;;; w_ret false).

Definition _init_mongodb : M bool :=
  try_except
    (call (mongo_connect w) ;;; w_ret true)
    (fun _ => emit (Log LWarning) ;;; w_ret false).

Definition _load_mapped_mainlines : M (list mainline) :=
  ok <- _init_mongodb ;;
  if negb ok then w_ret []
  else
    found <- try_except
               (latest <- call (mongo_find_latest w) ;;
                match latest with
                | Some mainlines => emit (Log LInfo) ;;; w_ret (Some mainlines)
                | None => w_ret None
                end)
               (fun _ => emit (Log LWarning) ;;; w_ret None) ;;
    w_ret (default [] found).

Definition _load_mainline_from_file : M (list mainline) :=
  match composite_file w with
  | Some data =>
      try_except
        (data <- call data ;;
         let '(top20, scores) := data in
         w_ret (match top20 with [] => take 20 scores | _ => top20 end))
        (fun _ => emit (Log LWarning) ;;; w_ret [])
  | None => w_ret []
  end.

Definition map_one (m : mainline) : M (list mainline) :=
  if bool_decide (ml_name m = "") then w_ret []
  else
    mp <- call (map_mainline w (ml_name m)) ;;
    match mp with
    | Some p =>
        emit (Log LInfo) ;;;
        w_ret [mkMainline (ml_name m) true (mp_jqdata_code p) (mp_jqdata_name p)
                          (mp_mapping_type p) (ml_total_score m)
                          (ml_leader_stock m) (ml_leader_change m)]
    | None =>
        w_ret [mkMainline (ml_name m) false "" "" ""
                          (ml_total_score m) (ml_leader_stock m) (ml_leader_change m)]
    end.

Definition _map_mainlines_to_jqdata (mainlines : list mainline) : M (list mainline) :=
  try_except
    (call (mapper_init w) ;;; for_each map_one mainlines)
    (fun _ => emit (Log LError) ;;; w_ret []).

Definition to_constituent (stock_id : string) : constituent :=
  mkConstituent (str_remove ".XSHG" (str_remove ".XSHE" stock_id)) stock_id.

Definition _get_stocks_from_jqdata (jqdata_code jqdata_type : string)
    : M (list constituent) :=
  try_except
    (if bool_decide (jqdata_type = "concept") then
       stocks <- call (get_concept_stocks w jqdata_code) ;;
       w_ret (to_constituent <$> take 50 stocks)
     else if bool_decide (jqdata_type = "industry") then
       stocks <- call (get_industry_stocks w jqdata_code) ;;
       w_ret (to_constituent <$> take 50 stocks)
     else w_ret [])
    (fun _ => emit (Log LWarning) ;;; w_ret []).

Definition _create_leader_stock (leader_name mainline_name : string)
    (score change : Q) : stock :=
  mkStock "" leader_name "mainline" "龙头股" (msw_period self) 1 score change
          (ReasonLeader mainline_name) mainline_name None.

Definition quote_of_row (row : spot_row) : M (string * quote) :=
  c <- call (to_float (r_change row) 0) ;;
  p <- call (to_float (r_price row) 0) ;;
  v <- call (to_float (r_volume_ratio row) 1) ;;
  t <- call (to_float (r_turnover row) 0) ;;
  w_ret (r_code row, mkQuote (r_name row) c p v t).

Fixpoint fill_quotes (rows : list spot_row) (result : gmap string quote)
    : M (gmap string quote) :=
  match rows with
  | [] => w_ret result
  | row :: rest =>
      kq <- quote_of_row row ;;
      fill_quotes rest (<[kq.1 := kq.2]> result)
  end.

Definition _get_akshare_realtime_data : M (option (gmap string quote)) :=
  try_except
    (df <- call (stock_zh_a_spot_em w) ;;
     match df with
     | None | Some [] => w_ret None
     | Some rows =>
         result <- fill_quotes rows ∅ ;;
         emit (Log LInfo) ;;; w_ret (Some result)
     end)
    (fun _ => emit (Log LWarning) ;;; w_ret None).

(** The name lookup, with its bare [except: pass]. *)
Definition display_name (jqdata_code default_name : string) : M string :=
  try_except
    (end_date <- call (get_available_end_date w) ;;
     securities <- call (get_all_securities w end_date) ;;
     w_ret (default default_name (securities !! jqdata_code)))
    (fun _ => w_ret default_name).

Definition price_change (row : price_row) : Q :=
  match pr_pre_close row with
  | Some pre =>
      if qlt 0 pre then ((pr_close row - pre) / pre) * 100 else 0
  | None => 0
  end%Q.

(** Returns [Some (name, change_pct)] for the dictionary it builds. *)
Definition _get_stock_price_jqdata (jqdata_code : string) : M (option (string * Q)) :=
  try_except
    (end_date <- call (get_available_end_date w) ;;
     price_df <- call (get_price w jqdata_code end_date) ;;
     match price_df with
     | None => w_ret None
     | Some latest =>
         nm <- display_name jqdata_code jqdata_code ;;
         w_ret (Some (nm, price_change latest))
     end)
    (fun _ => emit (Log LDebug) ;;; w_ret None).

Definition filter_one (realtime_data : option (gmap string quote))
    (score : Q) (sector_name : string) (c : constituent) : M (list stock) :=
  nm <- display_name (c_jqdata_code c) (c_code c) ;;
  named <-
    match realtime_data ≫= (.!! c_code c) with
    | Some q => w_ret (nm, q_change_pct q)
    | None =>
        price_data <- _get_stock_price_jqdata (c_jqdata_code c) ;;
        match price_data with
        | Some (pname, pchange) => w_ret (pname, pchange)
        | None => w_ret (nm, 0%Q)
        end
    end ;;
  let '(nm, change) := named in
  if qlt (-5) change || qle 70 score
  then w_ret [mkStock (c_code c) nm "mainline" "JQData+AKShare" (msw_period self)
                      2 score change (ReasonConstituent sector_name)
                      sector_name None]
  else w_ret [].

(** [result.sort(key=change_pct, reverse=True)]: larger changes first,
    equal ones in their order. *)
Definition change_gt (a b : stock) : bool := qlt (change_pct b) (change_pct a).

Definition _filter_strong_stocks_jqdata (stocks : list constituent)
    (score : Q) (sector_name : string) : M (list stock) :=
  realtime_data <- _get_akshare_realtime_data ;;
  result <- for_each (filter_one realtime_data score sector_name) stocks ;;
  w_ret (py_sort change_gt result).

(** The body of the loop of [run] over the themes. *)
Definition scan_mainline (i total : nat) (m : mainline) : M (list stock) :=
  let leader := ml_leader_stock m in
  let score := ml_total_score m in
  emit (Progress (20 + (65 * (Z.of_nat i + 1)) / Z.of_nat total)) ;;;
  let leader_part :=
    if bool_decide (leader ≠ "")
    then [_create_leader_stock leader (ml_name m) score (ml_leader_change m)]
    else [] in
  if bool_decide (ml_jqdata_code m ≠ "") && qle 60 score then
    concept_stocks <- _get_stocks_from_jqdata (ml_jqdata_code m) (ml_jqdata_type m) ;;
    match concept_stocks with
    | [] => w_ret leader_part
    | _ =>
        emit (Log LInfo) ;;;
        strong_stocks <- _filter_strong_stocks_jqdata concept_stocks score (ml_name m) ;;
        let strong_stocks :=
          filter (fun s => name s ≠ leader) strong_stocks in
        w_ret (leader_part ++ take (max_stocks_per_mainline self) strong_stocks)
    end
  else w_ret leader_part.

(** [for i, mainline in enumerate(...): if self._stop: break; ...] *)
Fixpoint scan_loop (i total : nat) (l : list mainline) : M (list stock) :=
  match l with
  | [] => w_ret []
  | m :: rest =>
      if stop_flag w i then w_ret []
      else
        ys <- scan_mainline i total m ;;
        zs <- scan_loop (S i) total rest ;;
        w_ret (ys ++ zs)
  end.

Definition is_mapped (m : mainline) : bool :=
  ml_jqdata_mapped m || bool_decide (ml_jqdata_code m ≠ "").

Definition MainlineScanWorker_run : M unit :=
  try_except
    (emit (Progress 5) ;;;
     ok <- _init_jqdata ;;
     if negb ok then
       emit (Progress 100) ;;;
       emit (Finished get_mock_mainline_stocks "模拟数据（JQData不可用）")
     else
       emit (Progress 10) ;;;
       mapped_mainlines <- _load_mapped_mainlines ;;
       mapped_mainlines <-
         match mapped_mainlines with
         | [] =>
             emit (Progress 15) ;;;
             mainlines <- _load_mainline_from_file ;;
             match mainlines with
             | [] => w_ret []
             | _ => emit (Progress 20) ;;; _map_mainlines_to_jqdata mainlines
             end
         | _ => w_ret mapped_mainlines
         end ;;
       match mapped_mainlines with
       | [] =>
           emit (Progress 50) ;;;
           emit (Finished get_mock_mainline_stocks "模拟数据")
       | _ =>
           let jqdata_mapped := List.filter is_mapped mapped_mainlines in
           emit (Progress 15) ;;;
           match jqdata_mapped with
           | [] =>
               emit (Progress 50) ;;;
               emit (Finished get_mock_mainline_stocks "模拟数据")
           | _ =>
               let total := Nat.min (length jqdata_mapped) (max_mainlines self) in
               all_stocks <- scan_loop 0 total (take total jqdata_mapped) ;;
               emit (Progress 90) ;;;
               let unique_stocks := _deduplicate_and_sort all_stocks in
               emit (Progress 100) ;;;
               emit (Finished unique_stocks "MongoDB主线 + JQData成分股")
           end
       end)
    (fun _ =>
       emit (Log LError) ;;;
       emit (Progress 100) ;;;
       emit (Finished get_mock_mainline_stocks "模拟数据（异常）")).
End MainlineScan.

(** ** TechScanWorker *)

(** The three groups of signals, each with the points it adds. *)
Definition momentum_signal (change_pct : Q) : list signal * Z :=
  if qle 9.9 change_pct then ([SigLimitUp], 40)
  else if qle 7 change_pct then ([SigBigRise change_pct], 25)
  else if qle 5 change_pct then ([SigRise change_pct], 15)
  else ([], 0).

Definition volume_signal (volume_ratio : Q) : list signal * Z :=
  if qle 3 volume_ratio then ([SigVolume3], 25)
  else if qle 2 volume_ratio then ([SigVolume2], 15)
  else ([], 0).

Definition turnover_signal (turnover : Q) : list signal * Z :=
  if qle 5 turnover && qle turnover 15 then ([SigTurnover], 10) else ([], 0).

Definition tech_signals (change_pct volume_ratio turnover : Q) : list signal * Z :=
  let '(s1, p1) := momentum_signal change_pct in
  let '(s2, p2) := volume_signal volume_ratio in
  let '(s3, p3) := turnover_signal turnover in
  (s1 ++ s2 ++ s3, p1 + p2 + p3).

Definition nonempty {A} (l : list A) : bool :=
  match l with [] => false | _ => true end.

Section TechScan.
Context (w : world) (period : string).

Abbreviation M := (W (event (list stock))).

(** The part of an iteration that follows the four conversions: the
    market-value filter, the signals, and the record. *)
Definition tech_record (data_source_desc code name : string)
    (change_pct volume_ratio turnover market_cap : Q) : list stock :=
  if qlt market_cap 30 || qlt 5000 market_cap then []
  else
    let '(signals, score) := tech_signals change_pct volume_ratio turnover in
    if nonempty signals && (25 <=? score)
    then [mkStock code name "tech_breakout" data_source_desc period
                  (if 50 <=? score then 2 else 3) 0 change_pct
                  (ReasonTech signals) "" (Some score)]
    else [].

(** One iteration of [for _, row in df.iterrows()]. *)
Definition tech_row (data_source_desc : string) (row : spot_row) : M (list stock) :=
  let name := r_name row in
  let code := r_code row in
  if bool_decide (name = "") || bool_decide (code = "") then w_ret []
  else if contains "ST" name then w_ret []
  else
    change_pct <- call (to_float (r_change row) 0) ;;
    volume_ratio <- call (to_float (r_volume_ratio row) 1) ;;
    turnover <- call (to_float (r_turnover row) 0) ;;
    cap <- call (to_float (r_market_cap row) 0) ;;
    w_ret (tech_record data_source_desc code name change_pct volume_ratio
                       turnover (cap / 100000000)%Q).

(** [stocks.sort(key=lambda x: x.get("_score", 0), reverse=True)] *)
Definition score_of (s : stock) : Z := default 0 (tech_score s).
Definition score_cmp (a b : stock) : comparison := score_of b ?= score_of a.
Definition score_gt (a b : stock) : bool := is_Lt (score_cmp a b).

Definition TechScanWorker_run : M unit :=
  try_except
    (emit (Progress 10) ;;;
     df <- try_except
             (df <- call (stock_zh_a_spot_em w) ;;
              match df with
              | Some (_ :: _) => emit (Progress 35) ;;; w_ret df
              | _ => w_ret df
              end)
             (fun _ => emit (Log LWarning) ;;; w_ret None) ;;
     match df with
     | None | Some [] =>
         emit (Progress 100) ;;;
         emit (Finished get_mock_tech_stocks "模拟数据")
     | Some rows =>
         emit (Progress 45) ;;;
         stocks <- for_each (tech_row "AKShare实时行情") rows ;;
         let stocks := take 20 (py_sort score_gt stocks) in
         emit (Progress 100) ;;;
         emit (Finished stocks "AKShare实时行情")
     end)
    (fun _ =>
       emit (Log LError) ;;;
       emit (Progress 100) ;;;
       emit (Finished get_mock_tech_stocks "模拟数据")).
End TechScan.

(** ** ETFScanWorker *)

Section ETFScan.
Context (w : world).

Abbreviation M := (W (event (list etf))).

Definition etf_of_row (row : etf_row) : M (list etf) :=
  amount_raw <- call (to_float (er_amount row) 0) ;;
  let amount := (amount_raw / 100000000)%Q in
  if qlt amount 1 then w_ret []
  else
    price <- call (to_float (er_price row) 0) ;;
    change <- call (to_float (er_change row) 0) ;;
    w_ret [mkEtf (er_code row) (er_name row) "ETF" price change amount
                 (er_market row)].

Definition ETFScanWorker_run : M unit :=
  try_except
    (emit (Progress 20) ;;;
     df <- call (fund_etf_spot_em w) ;;
     match df with
     | None | Some [] =>
         emit (Progress 100) ;;;
         emit (Finished get_mock_etfs "模拟数据")
     | Some rows =>
         emit (Progress 60) ;;;
         df_sorted <- call (sort_values w rows) ;;
         etfs <- for_each etf_of_row (take 30 df_sorted) ;;
         emit (Progress 100) ;;;
         emit (Finished (take 20 etfs) "AKShare ETF数据")
     end)
    (fun _ =>
       emit (Log LError) ;;;
       emit (Finished get_mock_etfs "模拟数据")).
End ETFScan.

(** ** ExternalParseWorker *)

Section ExternalParse.
Context (w : world).

Abbreviation M := (W (event (list stock))).

Definition external_stock (s : parsed_stock) : stock :=
  mkStock (ps_code s) (ps_name s) (ps_source s) "外部文件" (ps_period s)
          (ps_priority s) 0 0 (ReasonText (ps_entry_reason s)) "" None.

(** The [try] block returns from [run] when the parser gave stocks; the
    boolean tells whether it did. *)
Definition ExternalParseWorker_run : M unit :=
  emit (Progress 30) ;;;
  returned <-
    try_except
      (pool <- call (parse_all w) ;;
       match pool with
       | Some (s :: rest) =>
           emit (Progress 100) ;;;
           emit (Finished (external_stock <$> (s :: rest)) "外部数据文件") ;;;
           w_ret true
       | _ => w_ret false
       end)
      (fun _ => emit (Log LDebug) ;;; w_ret false) ;;
  if returned : bool then w_ret tt
  else
    emit (Progress 100) ;;;
    emit (Finished get_mock_external_stocks "示例数据").
End ExternalParse.

(** ** FactorFilterWorker (factor_filter_tab.py) *)

(** An entry of [self.mainlines], as [CandidatePoolLoader] builds them. *)
Record pool_entry : Type := mkPoolEntry {
  pe_mainline : string;
  pe_mainline_score : Q;
  pe_jq_code : string               (* [""] also stands for [None] *)
}.

(** A [StockSignal] of the factor-scoring collaborator. *)
Record stock_signal : Type := mkSignal {
  ss_code : string;
  ss_name : string;
  ss_combined_score : Q;
  ss_factor_score : Q;
  ss_mainline : string
}.

(** What [finished] carries: signals, or plain dictionaries in the
    simplified mode. *)
Inductive ff_item : Type :=
| ItemSignal (s : stock_signal)
| ItemDict (code mainline : string) (mainline_score : Q).

(** The signals and log lines of the worker.  The percentages of its
    [progress] are computed in floating point and are left out. *)
Inductive ff_event : Type :=
| FFProgress
| FFMainlineInfo (count : nat)
| FFFinished (data : list ff_item)
| FFError (msg : string)
| FFLog (lv : level).

Record ff_world : Type := mkFFWorld {
  import_jqdatasdk : outcome unit;
  get_available_date : option (outcome (option string));   (* [None]: no such attribute *)
  today : string;
  jq_concept_stocks : string -> string -> outcome (list string);
  jq_industry_stocks : string -> string -> outcome (list string);
  FACTOR_INTEGRATION_AVAILABLE : bool;
  create_factor_pool_integration : outcome unit;
  process_candidate_pool :
    list string -> string -> string -> gmap string Q -> nat -> outcome (list stock_signal)
}.

Record FactorFilterWorker : Type := mkFactorFilterWorker {
  ffw_mainlines : list pool_entry;
  ffw_period : string;
  top_n : nat
}.

Section FactorFilter.
Context (w : ff_world) (self : FactorFilterWorker).

Abbreviation M := (W ff_event).

(** One iteration of the loop over [jq_codes], with its own [try]. *)
Definition fetch_constituents (available_date : string)
    (stocks_by_mainline : gmap string (list string)) (jq_code : string)
    : M (gmap string (list string)) :=
  m <- try_except
         (stocks <- call (if String.prefix "SC" jq_code
                          then jq_concept_stocks w jq_code available_date
                          else jq_industry_stocks w jq_code available_date) ;;
          w_ret (match stocks with
                 | [] => stocks_by_mainline
                 | _ => <[jq_code := take 20 stocks]> stocks_by_mainline
                 end))
         (fun _ => emit (FFLog LWarning) ;;; w_ret stocks_by_mainline) ;;
  emit FFProgress ;;; w_ret m.

Fixpoint fetch_all (available_date : string) (jq_codes : list string)
    (stocks_by_mainline : gmap string (list string))
    : M (gmap string (list string)) :=
  match jq_codes with
  | [] => w_ret stocks_by_mainline
  | c :: rest =>
      m <- fetch_constituents available_date stocks_by_mainline c ;;
      fetch_all available_date rest m
  end.

(** The merge loop: [(stock_mainline_map, all_stock_codes)]. *)
Definition merge_code (ml : pool_entry)
    (acc : gmap string pool_entry * list string) (code : string)
    : gmap string pool_entry * list string :=
  match acc.1 !! code with
  | Some _ => acc
  | None => (<[code := ml]> acc.1, acc.2 ++ [code])
  end.

Definition merge_entry (stocks_by_mainline : gmap string (list string))
    (acc : gmap string pool_entry * list string) (ml : pool_entry)
    : gmap string pool_entry * list string :=
  match stocks_by_mainline !! pe_jq_code ml with
  | Some codes => fold_left (merge_code ml) codes acc
  | None => acc
  end.

Definition add_mainline (stock_mainline_map : gmap string pool_entry)
    (s : stock_signal) : ff_item :=
  match stock_mainline_map !! ss_code s with
  | Some info =>
      ItemSignal (mkSignal (ss_code s) (ss_name s) (ss_combined_score s)
                           (ss_factor_score s) (pe_mainline info))
  | None => ItemSignal s
  end.

Definition simple_result (stock_mainline_map : gmap string pool_entry)
    (code : string) : ff_item :=
  match stock_mainline_map !! code with
  | Some info => ItemDict code (pe_mainline info) (pe_mainline_score info)
  | None => ItemDict code "" 0
  end.

Definition FactorFilterWorker_run : M unit :=
  try_except
    (call (import_jqdatasdk w) ;;;
     emit FFProgress ;;;
     let mainline_names : gset string :=
       list_to_set (List.filter (fun n => negb (bool_decide (n = "")))
                                (pe_mainline <$> ffw_mainlines self)) in
     emit (FFMainlineInfo (size mainline_names)) ;;;
     emit FFProgress ;;;
     available_date <-
       match get_available_date w with
       | Some r => call r
       | None => w_ret None
       end ;;
     let available_date :=
       match available_date with
       | Some d => if bool_decide (d = "") then today w else d
       | None => today w
       end in
     let jq_codes : gset string :=
       list_to_set (List.filter (fun c => negb (bool_decide (c = "")))
                                (pe_jq_code <$> ffw_mainlines self)) in
     emit FFProgress ;;;
     stocks_by_mainline <- fetch_all available_date (elements jq_codes) ∅ ;;
     let '(stock_mainline_map, all_stock_codes) :=
       fold_left (merge_entry stocks_by_mainline) (ffw_mainlines self) (∅, []) in
     match all_stock_codes with
     | [] => emit (FFError "未获取到任何股票")
     | _ =>
         emit FFProgress ;;;
         if FACTOR_INTEGRATION_AVAILABLE w then
           call (create_factor_pool_integration w) ;;;
           let mainline_scores := pe_mainline_score <$> stock_mainline_map in
           emit FFProgress ;;;
           signals <- call (process_candidate_pool w (take 100 all_stock_codes)
                              available_date (ffw_period self) mainline_scores
                              (top_n self)) ;;
           emit FFProgress ;;;
           emit (FFFinished (add_mainline stock_mainline_map <$> signals))
         else
           emit FFProgress ;;;
           emit (FFFinished (simple_result stock_mainline_map
                               <$> take (top_n self) all_stock_codes))
     end)
    (fun e => emit (FFLog LError) ;;; emit (FFError e)).
End FactorFilter.

(** ** StockPoolPanel: the overview scan *)

Inductive worker_kind : Type := KMainline | KTech | KETF | KExternal.

#[global] Instance worker_kind_eq_dec : EqDecision worker_kind.
Proof. solve_decision. Defined.

(** What happened in the UI thread, in order: a worker thread was started,
    or the slot connected to a worker's [finished] signal ran. *)
Inductive action : Type :=
| Started (k : worker_kind)
| Handled (k : worker_kind).

(** The state of the panel that the overview scan reads and writes.
    [running] holds the workers that were started and whose [finished]
    signal has not been delivered yet; [history] records the actions. *)
Record StockPoolPanel : Type := mkPanel {
  running : list worker_kind;
  _all_stocks : list stock;
  overview_table : list stock;
  mainline_table : list stock;
  tech_table : list stock;
  external_table : list stock;
  overview_progress_visible : bool;
  scan_all_btn_enabled : bool;
  stat_mainline : nat;
  stat_tech : nat;
  stat_etf : nat;
  stat_external : nat;
  overview_source : string;
  history : list action
}.

(** [StockPoolPanel.__init__] *)
Definition panel_init : StockPoolPanel :=
  mkPanel [] [] [] [] [] [] false true 0 0 0 0 "" [].

(** [self.workers[key] = Worker(); ...; self.workers[key].start()] *)
Definition start_worker (k : worker_kind) (p : StockPoolPanel) : StockPoolPanel :=
  mkPanel (running p ++ [k]) (_all_stocks p) (overview_table p) (mainline_table p)
          (tech_table p) (external_table p) (overview_progress_visible p)
          (scan_all_btn_enabled p) (stat_mainline p) (stat_tech p) (stat_etf p)
          (stat_external p) (overview_source p) (history p ++ [Started k]).

(** The event loop delivers the [finished] signal of worker [k]. *)
Definition deliver (k : worker_kind) (p : StockPoolPanel) : StockPoolPanel :=
  mkPanel (List.filter (fun k' => negb (bool_decide (k' = k))) (running p))
          (_all_stocks p) (overview_table p) (mainline_table p)
          (tech_table p) (external_table p) (overview_progress_visible p)
          (scan_all_btn_enabled p) (stat_mainline p) (stat_tech p) (stat_etf p)
          (stat_external p) (overview_source p) (history p ++ [Handled k]).

Definition _start_mainline_scan := start_worker KMainline.
Definition _start_tech_scan := start_worker KTech.
Definition _start_etf_scan := start_worker KETF.
Definition _start_external_scan := start_worker KExternal.

Definition _do_scan_all (p : StockPoolPanel) : StockPoolPanel :=
  _start_mainline_scan
    (mkPanel (running p) [] [] (mainline_table p) (tech_table p) (external_table p)
             true false (stat_mainline p) (stat_tech p) (stat_etf p)
             (stat_external p) "" (history p)).

Definition _on_overview_mainline_done (stocks : list stock) (source : string)
    (p : StockPoolPanel) : StockPoolPanel :=
  _start_tech_scan
    (mkPanel (running p) (_all_stocks p ++ stocks) (overview_table p)
             (mainline_table p) (tech_table p) (external_table p)
             (overview_progress_visible p) (scan_all_btn_enabled p)
             (length stocks) (stat_tech p) (stat_etf p) (stat_external p)
             ("主线强势：" +:+ source) (history p)).

Definition _on_overview_tech_done (stocks : list stock) (source : string)
    (p : StockPoolPanel) : StockPoolPanel :=
  _start_etf_scan
    (mkPanel (running p) (_all_stocks p ++ stocks) (overview_table p)
             (mainline_table p) (tech_table p) (external_table p)
             (overview_progress_visible p) (scan_all_btn_enabled p)
             (stat_mainline p) (length stocks) (stat_etf p) (stat_external p)
             (overview_source p +:+ " | 技术突破：" +:+ source) (history p)).

(** The record that [_on_overview_etf_done] appends for one ETF. *)
Definition etf_stock (source : string) (e : etf) : stock :=
  mkStock (e_code e) (e_name e) "etf" source "medium" 3 0 (e_change_5d e)
          (ReasonETF (e_amount e)) "" None.

Definition _on_overview_etf_done (etfs : list etf) (source : string)
    (p : StockPoolPanel) : StockPoolPanel :=
  _start_external_scan
    (mkPanel (running p) (_all_stocks p ++ (etf_stock source <$> etfs))
             (overview_table p) (mainline_table p) (tech_table p) (external_table p)
             (overview_progress_visible p) (scan_all_btn_enabled p)
             (stat_mainline p) (stat_tech p) (length etfs) (stat_external p)
             (overview_source p +:+ " | ETF：" +:+ source) (history p)).

Definition _on_overview_external_done (stocks : list stock) (source : string)
    (p : StockPoolPanel) : StockPoolPanel :=
  let all_stocks := _all_stocks p ++ stocks in
  mkPanel (running p) all_stocks (overview_rows all_stocks)
          (mainline_table p) (tech_table p) (external_table p)
          false true
          (stat_mainline p) (stat_tech p) (stat_etf p) (length stocks)
          (overview_source p +:+ " | 外部：" +:+ source) (history p).

(** The payloads of the [finished] signals in a worker's trace. *)
Definition finished_data {A} (t : list (event A)) : list (A * string) :=
  omap (fun e => match e with Finished d s => Some (d, s) | _ => None end) t.

(** The workers the overview creates: all with their default arguments. *)
Definition default_mainline_worker : MainlineScanWorker :=
  mkMainlineScanWorker "medium" 10 5.

(** One turn of the event loop during an overview scan: the [finished]
    signal of a running worker is delivered and its slot runs. *)
Inductive step (w : world) : StockPoolPanel -> StockPoolPanel -> Prop :=
| step_mainline p data src :
    KMainline ∈ running p ->
    (data, src) ∈ finished_data (MainlineScanWorker_run w default_mainline_worker).1 ->
    step w p (_on_overview_mainline_done data src (deliver KMainline p))
| step_tech p data src :
    KTech ∈ running p ->
    (data, src) ∈ finished_data (TechScanWorker_run w "short").1 ->
    step w p (_on_overview_tech_done data src (deliver KTech p))
| step_etf p data src :
    KETF ∈ running p ->
    (data, src) ∈ finished_data (ETFScanWorker_run w).1 ->
    step w p (_on_overview_etf_done data src (deliver KETF p))
| step_external p data src :
    KExternal ∈ running p ->
    (data, src) ∈ finished_data (ExternalParseWorker_run w).1 ->
    step w p (_on_overview_external_done data src (deliver KExternal p)).

(** The order in which a full overview scan starts and handles workers. *)
Definition overview_schedule : list action :=
  [ Started KMainline; Handled KMainline; Started KTech; Handled KTech;
    Started KETF; Handled KETF; Started KExternal; Handled KExternal ].

(** ** StockPoolPanel._generate_code *)

Definition newline : string := String (ascii_of_nat 10) EmptyString.
Definition triple_quote : string :=
  let q := ascii_of_nat 34 in String q (String q (String q EmptyString)).

(** [repr] of a list of strings that hold no quote or escape, as stock codes. *)
Definition py_repr (codes : list string) : string :=
  "[" +:+ String.concat ", " ((fun c => "'" +:+ c +:+ "'") <$> codes) +:+ "]".

(** The f-string of [_generate_code]; [stamp] is
    [datetime.now().strftime('%Y-%m-%d %H:%M:%S')]. *)
Definition strategy_template (stamp : string) (code_list : list string) : string :=
  String.concat newline
    [ "# -*- coding: utf-8 -*-";
      triple_quote;
      "韬睿量化 - 股票池策略";
      "生成时间: " +:+ stamp;
      "股票数量: " +:+ pretty (length code_list);
      triple_quote;
      "";
      "STOCK_POOL = " +:+ py_repr code_list;
      "";
      "def initialize(context):";
      "    set_benchmark('000300.XSHG')";
      "    run_monthly(rebalance, 1, time='open')";
      "";
      "def rebalance(context):";
      "    stocks = STOCK_POOL";
      "    for stock in list(context.portfolio.positions.keys()):";
      "        if stock not in stocks:";
      "            order_target(stock, 0)";
      "    ";
      "    if len(stocks) > 0:";
      "        weight = 1.0 / len(stocks)";
      "        for stock in stocks:";
      "            order_target_value(stock, context.portfolio.total_value * weight)";
      "" ].

(** The clock and the home directory: [stamp] as above, [day] is
    [datetime.now().strftime('%Y%m%d')]. *)
Record host : Type := mkHost {
  home : string;
  stamp : string;
  day : string
}.

Definition strategy_dir (h : host) : string :=
  home h +:+ "/.local/share/trquant/strategies/ptrade".

Definition strategy_path (h : host) : string :=
  strategy_dir h +:+ "/pool_strategy_" +:+ day h +:+ ".py".

(** What [_generate_code] leaves behind: the preview text and the file. *)
Record generated : Type := mkGenerated {
  code_preview : option string;
  written : option (string * string)      (* path, content *)
}.

(** The texts of column 1 of the three tables, as [_fill_stock_table]
    wrote them. *)
Definition table_codes (p : StockPoolPanel) : list string :=
  code <$> (mainline_table p ++ tech_table p ++ external_table p).

Definition _generate_code (h : host) (p : StockPoolPanel) : generated :=
  let codes : gset string := list_to_set (table_codes p) in
  if bool_decide (codes = ∅) then mkGenerated None None
  else
    let code_list := take 20 (elements codes) in
    let text := strategy_template (stamp h) code_list in
    mkGenerated (Some text) (Some (strategy_path h, text)).

(** ** Statements used by the claims *)

Section Ranking.
Context (lt : stock -> stock -> bool).

(** Neither record sorts before the other: their keys are equal. *)
Definition same_key (a b : stock) : bool := negb (lt a b) && negb (lt b a).

(** No record is followed by one with a strictly smaller key. *)
Definition sorted_by (l : list stock) : Prop :=
  ∀ i j a b, l !! i = Some a → l !! j = Some b → (i < j)%nat → lt b a = false.

(** [out] is [l] sorted stably: ordered by key, and the records of each
    key are those of [l], in the order of [l]. *)
Definition is_stable_sort (l out : list stock) : Prop :=
  sorted_by out ∧ ∀ x, List.filter (same_key x) out = List.filter (same_key x) l.

(** The same order, record by record. *)
Definition ordered (l : list stock) : Prop :=
  StronglySorted (fun a b => lt b a = false) l.
End Ranking.



(** The first record of [l] with key [k]. *)
Definition first_with (key : stock -> string) (l : list stock) (k : string)
    : option stock :=
  List.find (fun x => bool_decide (key x = k)) l.



(** A whole overview scan: [_do_scan_all], then the four [finished]
    signals delivered in turn with the data each worker emitted. *)
Definition overview_scan (p : StockPoolPanel)
    (mainline_stocks : list stock) (src1 : string)
    (tech_stocks : list stock) (src2 : string)
    (etfs : list etf) (src3 : string)
    (external_stocks : list stock) (src4 : string) : StockPoolPanel :=
  let p := _do_scan_all p in
  let p := _on_overview_mainline_done mainline_stocks src1 (deliver KMainline p) in
  let p := _on_overview_tech_done tech_stocks src2 (deliver KTech p) in
  let p := _on_overview_etf_done etfs src3 (deliver KETF p) in
  _on_overview_external_done external_stocks src4 (deliver KExternal p).

(** The workers that a history leaves running: the one started last, if
    its [finished] signal has not been handled. *)
Definition pending (h : list action) : list worker_kind :=
  match last h with
  | Some (Started k) => [k]
  | _ => []
  end.

(** ** Statements about worker runs *)

(** Every [finished] payload of [m] satisfies [P], and the value [m]
    returns, if it returns, satisfies [Q]. *)
Definition post {A B} (P : A -> Prop) (Q : B -> Prop) (m : W (event A) B) : Prop :=
  (∀ d src, (d, src) ∈ finished_data m.1 → P d) ∧
  (∀ b, m.2 = Returned b → Q b).

(** The signals that end a run: [finished] for the stock-pool workers,
    [finished] or [error] for the factor filter. *)
Definition is_finished {A} (e : event A) : bool :=
  match e with Finished _ _ => true | _ => false end.

Definition ff_final (e : ff_event) : bool :=
  match e with FFFinished _ | FFError _ => true | _ => false end.

(** [m] emits no final signal. *)
Definition tacit {E B} (final : E -> bool) (m : W E B) : Prop :=
  Forall (fun e => final e = false) m.1.

(** [m] returns: no exception leaves it. *)
Definition returns {E B} (m : W E B) : Prop := ∃ t b, m = (t, Returned b).

(** [m] returns after emitting exactly one final signal, as the last thing
    it does. *)
Definition ends_once {E} (final : E -> bool) (m : W E unit) : Prop :=
  ∃ t e, m = (t ++ [e], Returned tt) ∧ final e = true ∧
         Forall (fun e => final e = false) t.

(** [m] does that, or raises before any final signal. *)
Definition ends_or_raises {E} (final : E -> bool) (m : W E unit) : Prop :=
  ends_once final m ∨
  ∃ t x, m = (t, Raised x) ∧ Forall (fun e => final e = false) t.

(** ** Statements about the technical scan *)

(** The composite score in the words of the specification. *)
Definition composite_score (change_pct volume_ratio turnover : Q) : Z :=
  (if Qle_bool 9.9 change_pct then 40
   else if Qle_bool 7 change_pct then 25
   else if Qle_bool 5 change_pct then 15 else 0) +
  (if Qle_bool 3 volume_ratio then 25
   else if Qle_bool 2 volume_ratio then 15 else 0) +
  (if Qle_bool 5 turnover && Qle_bool turnover 15 then 10 else 0).





(** A record the technical scan may list: named, coded, and not "ST". *)
Definition listable (s : stock) : Prop :=
  name s ≠ "" ∧ code s ≠ "" ∧ contains "ST" (name s) = false.


(** ** Statements about the mainline scan *)

(** What the strength filter asks of a constituent of a theme. *)
Definition strong_constituent (s : stock) : Prop :=
  (60 <= mainline_score s)%Q ∧
  ((-5 < change_pct s)%Q ∨ (70 <= mainline_score s)%Q).

(** A constituent record passes the test of the filter and carries the
    score of its theme. *)
Definition passed (score : Q) (s : stock) : Prop :=
  priority s = 2 ∧ mainline_score s = score ∧
  ((-5 < change_pct s)%Q ∨ (70 <= score)%Q).

(** What every list that the mainline scan emits satisfies: each record
    carries a code, and each record is of first priority or a constituent
    that passed the strength filter. *)
Definition scan_output_ok (data : list stock) : Prop :=
  Forall (fun s => code s ≠ "" ∧ (priority s = 1 ∨ strong_constituent s)) data.

(** ** Sample records *)

(** The same host on the day [d]. *)
Definition host_on (d : string) : host :=
  mkHost "/home/trader" "2025-01-02 09:30:00" d.


Definition ai_filter_worker : FactorFilterWorker :=
  mkFactorFilterWorker [mkPoolEntry "人工智能" 88 "SC0001"] "medium" 30.

(** A world in which the document store answers, the scores file is absent,
    the securities table is empty, no price is known and nobody asks the
    scan to stop; the other answers are the arguments. *)
Definition sample_world
    (login : outcome login_result)
    (latest : outcome (option (list mainline)))
    (concept : string -> outcome (list string))
    (spot : outcome (option (list spot_row)))
    (etfs : outcome (option (list etf_row)))
    (external : outcome (option (list parsed_stock))) : world :=
  mkWorld login (Returned tt) latest None (Raised "ImportError")
          (fun _ => Raised "ImportError") concept (fun _ => Returned [])
          (Returned "2025-01-02") (fun _ => Returned ∅) (fun _ _ => Returned None)
          spot etfs (fun rows => Returned rows) external (fun _ => false).

(** A theme with a leader, mapped to a concept with two constituents, in a
    world where only the JQData account and the document store answer. *)
Definition theme_ai : mainline :=
  mkMainline "人工智能" true "SC0001" "人工智能" "concept" 88 "科大讯飞" 5.2.

Definition leader_world : world :=
  sample_world (Returned AuthOk) (Returned (Some [theme_ai]))
               (fun _ => Returned ["002230.XSHE"; "300750.XSHE"])
               (Raised "offline") (Raised "offline") (Raised "offline").

(** A row that passes every threshold but is named "ST", and one that
    passes and is not. *)
Definition st_row : spot_row :=
  mkSpotRow "600401" "*ST海润" (CellNum 10) (CellNum 12.3) (CellNum 1.5)
            (CellNum 8) (CellNum 12000000000).
Definition breakout_row : spot_row :=
  mkSpotRow "300750" "宁德时代" (CellNum 10) (CellNum 251.2) (CellNum 3.2)
            (CellNum 6) (CellNum 450000000000).
Definition quiet_row : spot_row :=
  mkSpotRow "600519" "贵州茅台" (CellNum 0.4) (CellNum 1500) (CellNum 0.9)
            (CellNum 0.3) (CellNum 1900000000000).

Definition spot_world (rows : list spot_row) : world :=
  sample_world (Raised "offline") (Raised "offline") (fun _ => Raised "offline")
               (Returned (Some rows)) (Raised "offline") (Raised "offline").

Definition constituent_of (theme c n : string) (score change : Q) : stock :=
  mkStock c n "mainline" "JQData+AKShare" "medium" 2 score change
          (ReasonConstituent theme) theme None.

Definition bank_a : stock := constituent_of "银行" "000001" "平安银行" 80 1.
Definition bank_b : stock := constituent_of "银行" "600036" "招商银行" 80 3.

(** A panel whose mainline table was filled by a single scan. *)
Definition scanned_panel : StockPoolPanel :=
  mkPanel [] [] [] [bank_a; bank_b; bank_a] [] [] false true 0 0 0 0 "" [].

(** ** CandidatePoolLoader and FactorFilterTab (factor_filter_tab.py) *)

(** A document of the [mapped_mainlines] collection; [md_stocks] is [None]
    when the document has no ["stocks"] key. *)
Record mainline_doc : Type := mkDoc {
  md_name : string;
  md_jq_concept_code : string;         (* [""] also stands for [None] *)
  md_jq_industry_code : string;
  md_composite_score : Q;
  md_stocks : option (list (string * string))     (* code, name *)
}.

(** An entry of the list [load_candidate_stocks] returns. *)
Record candidate : Type := mkCandidate {
  cd_code : string;
  cd_name : string;
  cd_mainline : string;
  cd_mainline_score : Q;
  cd_jq_code : string;
  cd_need_fetch_stocks : bool
}.

(** [ml.get("jq_concept_code") or ml.get("jq_industry_code")] *)
Definition doc_jq_code (ml : mainline_doc) : string :=
  if bool_decide (md_jq_concept_code ml ≠ "") then md_jq_concept_code ml
  else md_jq_industry_code ml.

(** What the loop of [load_candidate_stocks] appends for one document. *)
Definition doc_candidates (ml : mainline_doc) : list candidate :=
  match md_stocks ml with
  | Some stocks =>
      (fun cn => mkCandidate cn.1 cn.2 (md_name ml) (md_composite_score ml)
                             (doc_jq_code ml) false) <$> stocks
  | None =>
      [mkCandidate "" "" (md_name ml) (md_composite_score ml) (doc_jq_code ml) true]
  end.

(** [CandidatePoolLoader.load_candidate_stocks]; [find] is the answer of
    [db.mapped_mainlines.find().sort("composite_score", -1).limit(20)] and
    the trace holds the levels of the log lines. *)
Definition load_candidate_stocks (connected : bool)
    (find : outcome (list mainline_doc)) : W level (list candidate) :=
  if negb connected then w_ret []
  else
    try_except
      (mainlines <- call find ;;
       match mainlines with
       | [] => emit LWarning ;;; w_ret []
       | _ => emit LInfo ;;; w_ret (mainlines ≫= doc_candidates)
       end)
      (fun _ => emit LError ;;; w_ret []).

(** What [FactorFilterWorker] reads of a candidate. *)
Definition pool_entry_of (c : candidate) : pool_entry :=
  mkPoolEntry (cd_mainline c) (cd_mainline_score c) (cd_jq_code c).

(** The candidates [_start_filter] offers for a test run. *)
Definition default_candidates : list pool_entry :=
  [ mkPoolEntry "人工智能" 85 "SC0363";
    mkPoolEntry "新能源" 80 "SC0066";
    mkPoolEntry "半导体" 78 "SC0353" ].

(** [FactorFilterTab._start_filter]: the worker it starts, if any.
    [use_defaults] is the answer to the dialog shown when the pool is empty,
    [period_index] is [period_combo.currentIndex()]. *)
Definition _start_filter (jq_connected : bool) (candidates : list candidate)
    (use_defaults : bool) (period_index : Z) (top_n_value : nat)
    : option FactorFilterWorker :=
  if negb jq_connected then None
  else
    let period :=
      if period_index =? 0 then "short"
      else if period_index =? 1 then "medium"
      else if period_index =? 2 then "long"
      else "medium" in
    match candidates with
    | [] =>
        if use_defaults
        then Some (mkFactorFilterWorker default_candidates period top_n_value)
        else None
    | _ => Some (mkFactorFilterWorker (pool_entry_of <$> candidates) period top_n_value)
    end.

(** The filter of [FactorFilterTab._update_table].  The first signal decides
    which score is read; reading [combined_score] off a dictionary, or
    calling [get] on a [StockSignal], raises [AttributeError]. *)
Definition score_of_signal (s : ff_item) : outcome Q :=
  match s with
  | ItemSignal sig => Returned (ss_combined_score sig)
  | ItemDict _ _ _ => Raised "AttributeError"
  end.

Definition score_of_dict (s : ff_item) : outcome Q :=
  match s with
  | ItemSignal _ => Raised "AttributeError"
  | ItemDict _ _ score => Returned score
  end.

Fixpoint filter_by_score (score : ff_item -> outcome Q) (min_score : Q)
    (signals : list ff_item) : outcome (list ff_item) :=
  match signals with
  | [] => Returned []
  | s :: rest =>
      match score s with
      | Raised e => Raised e
      | Returned v =>
          match filter_by_score score min_score rest with
          | Raised e => Raised e
          | Returned kept => Returned (if qle min_score v then s :: kept else kept)
          end
      end
  end.

(** The rows [_update_table] fills the table with. *)
Definition _update_table (min_score : Q) (signals : list ff_item)
    : outcome (list ff_item) :=
  match signals with
  | ItemSignal _ :: _ => filter_by_score score_of_signal min_score signals
  | _ => filter_by_score score_of_dict min_score signals
  end.

(** ** StockPoolPanel: single scans *)

(** The slot that [_scan_single] connects to [finished] for the mainline,
    technical and external scans: [_fill_stock_table] writes one row per
    record.  The ETF scan fills a table of its own. *)
Definition _on_single_done (k : worker_kind) (stocks : list stock)
    (p : StockPoolPanel) : StockPoolPanel :=
  mkPanel (running p) (_all_stocks p) (overview_table p)
          (match k with KMainline => stocks | _ => mainline_table p end)
          (match k with KTech => stocks | _ => tech_table p end)
          (match k with KExternal => stocks | _ => external_table p end)
          (overview_progress_visible p) (scan_all_btn_enabled p)
          (stat_mainline p) (stat_tech p) (stat_etf p) (stat_external p)
          (overview_source p) (history p).

(** ** Statements about bounds *)

(** A [progress] value fits the progress bar and a [finished] list has at
    most [cap] entries. *)
Definition in_range {A} (cap : nat) (e : event (list A)) : bool :=
  match e with
  | Progress pct => (0 <=? pct) && (pct <=? 100)
  | Finished data _ => (length data <=? cap)%nat
  | Log _ => true
  end.

Definition out_of_range {A} (cap : nat) (e : event (list A)) : bool :=
  negb (in_range cap e).

(** The theme [ml] lists the code [c] among its fetched constituents. *)
Definition lists_code (stocks_by_mainline : gmap string (list string))
    (c : string) (ml : pool_entry) : bool :=
  match stocks_by_mainline !! pe_jq_code ml with
  | Some codes => bool_decide (c ∈ codes)
  | None => false
  end.

(** The order of the strength filter's sort, as a comparison. *)
Definition change_cmp (a b : stock) : comparison :=
  Qcompare (change_pct b) (change_pct a).

(** No cell that [_get_akshare_realtime_data] converts makes [float()]
    raise. *)
Definition quotable (row : spot_row) : Prop :=
  r_change row ≠ CellBad ∧ r_price row ≠ CellBad ∧
  r_volume_ratio row ≠ CellBad ∧ r_turnover row ≠ CellBad.

(** What [filter_one] appends for the constituent [c]: nothing, or one
    record that passed the test. *)
Definition kept_or_dropped (self : MainlineScanWorker) (score : Q)
    (sector_name : string) (c : constituent) (l : list stock) : Prop :=
  (l = [] ∨
   ∃ nm ch,
     l = [mkStock (c_code c) nm "mainline" "JQData+AKShare" (msw_period self)
                  2 score ch (ReasonConstituent sector_name) sector_name None] ∧
     qlt (-5) ch || qle 70 score = true) ∧
  (qle 70 score = true → l ≠ []).

(** What the loop of [run] starts a theme's list with: the leader's record
    when the theme names a leader. *)
Definition leader_part (self : MainlineScanWorker) (m : mainline) : list stock :=
  if bool_decide (ml_leader_stock m ≠ "")
  then [_create_leader_stock self (ml_leader_stock m) (ml_name m)
                             (ml_total_score m) (ml_leader_change m)]
  else [].

(** ** Statements about the realtime quotes *)

(** The entry [q] holds the name and the converted numbers of [row]. *)
Definition quote_of (row : spot_row) (q : quote) : Prop :=
  q_name q = r_name row ∧
  to_float (r_change row) 0 = Returned (q_change_pct q) ∧
  to_float (r_price row) 0 = Returned (q_price q) ∧
  to_float (r_volume_ratio row) 1 = Returned (q_volume_ratio q) ∧
  to_float (r_turnover row) 0 = Returned (q_turnover q).

(** [row] is the last row of [rows] with the code [c]. *)
Definition last_with_code (rows : list spot_row) (c : string) (row : spot_row) : Prop :=
  r_code row = c ∧
  ∃ before after, rows = before ++ row :: after ∧ Forall (fun r => r_code r ≠ c) after.

(** ** Statements about the mapping of themes *)

(** The themes that [_map_mainlines_to_jqdata] asks the mapper about. *)
Definition named (mainlines : list mainline) : list mainline :=
  filter (fun m => ml_name m ≠ "") mainlines.

(** The mapper answers for the theme [m]. *)
Definition mappable (w : world) (m : mainline) : Prop :=
  ∃ mp, map_mainline w (ml_name m) = Returned mp.

(** [m'] is the record appended for the theme [m]: the theme's own fields,
    and a mapping that counts as one exactly when the mapper found one. *)
Definition mapped_from (w : world) (m m' : mainline) : Prop :=
  ml_name m' = ml_name m ∧ ml_total_score m' = ml_total_score m ∧
  ml_leader_stock m' = ml_leader_stock m ∧ ml_leader_change m' = ml_leader_change m ∧
  (is_mapped m' = true ↔ ∃ p, map_mainline w (ml_name m) = Returned (Some p)).

(** A world whose mapper starts and knows one concept. *)
Definition mapper_world : world :=
  mkWorld (Returned AuthOk) (Returned tt) (Returned None) None (Returned tt)
          (fun n => Returned (if bool_decide (n = "人工智能")
                              then Some (mkMapping "SC0001" "人工智能" "concept")
                              else None))
          (fun _ => Returned []) (fun _ => Returned [])
          (Returned "2025-01-02") (fun _ => Returned ∅) (fun _ _ => Returned None)
          (Raised "offline") (Raised "offline") (fun rows => Returned rows)
          (Raised "offline") (fun _ => false).

(** ** The progress bar of the overview scan *)

(** [int(x)]: truncation toward zero. *)
Definition py_int (q : Q) : Z := Z.quot (Qnum q) (Zpos (Qden q)).

(** What the slot connected to the [progress] signal of the worker [k]
    sets the overview's bar to, for the worker's value [p]. *)
Definition overview_bar (k : worker_kind) (p : Z) : Z :=
  match k with
  | KMainline => py_int (inject_Z p * 0.4)
  | KTech => 40 + py_int (inject_Z p * 0.25)
  | KETF => 65 + py_int (inject_Z p * 0.2)
  | KExternal => 85 + py_int (inject_Z p * 0.15)
  end.

(** The values of the [progress] signals in a worker's trace. *)
Definition progress_values {A} (t : list (event A)) : list Z :=
  omap (fun e => match e with Progress p => Some p | _ => None end) t.

(** A [progress] value beyond the scale of a progress bar. *)
Definition off_scale {A} (e : event A) : bool :=
  match e with
  | Progress p => negb ((0 <=? p) && (p <=? 100))
  | _ => false
  end.

(** The part of the overview's bar that belongs to the worker [k]. *)
Definition share (k : worker_kind) : Z * Z :=
  match k with
  | KMainline => (0, 40)
  | KTech => (40, 65)
  | KETF => (65, 85)
  | KExternal => (85, 100)
  end.

Definition in_share (k : worker_kind) (p : Z) : Prop :=
  (share k).1 ≤ overview_bar k p ≤ (share k).2.

(** ** Statements about the records of the technical, ETF and external scans *)

(** A record of the technical scan: no theme score, and either a mock record
    or one whose signal score is between 25 and 75 and decides the priority. *)
Definition tech_ranked (s : stock) : Prop :=
  source s = "tech_breakout" ∧ mainline_score s = 0%Q ∧
  match tech_score s with
  | Some sc => 25 ≤ sc ≤ 75 ∧ priority s = (if 50 <=? sc then 2 else 3)
  | None => data_source s = "模拟" ∧ priority s = 2
  end.




(** ** Statements about the factor filter *)

(** What the loop over [jq_codes] stores for the code [c]: the first 20
    constituents that JQData returns for it, unless the call fails or
    returns none. *)
Definition fetched (fw : ff_world) (date c : string) : option (list string) :=
  match (if String.prefix "SC" c
         then jq_concept_stocks fw c date
         else jq_industry_stocks fw c date) with
  | Returned (s :: rest) => Some (take 20 (s :: rest))
  | _ => None
  end.

(** ** Statements about the result table of the factor filter *)

Definition is_signal (s : ff_item) : bool :=
  match s with ItemSignal _ => true | ItemDict _ _ _ => false end.

(** All signals, or all dictionaries. *)
Definition uniform (data : list ff_item) : bool :=
  forallb is_signal data || forallb (fun s => negb (is_signal s)) data.

(** A [finished] signal whose list mixes the two. *)
Definition mixed (e : ff_event) : bool :=
  match e with
  | FFFinished data => negb (uniform data)
  | _ => false
  end.

(** The score that the table's filter compares with the minimum. *)
Definition item_score (s : ff_item) : Q :=
  match s with
  | ItemSignal sig => ss_combined_score sig
  | ItemDict _ _ score => score
  end.

(** A run in the simplified mode: JQData answers, the scoring collaborator
    is not installed. *)
Definition simplified_mode : ff_world :=
  mkFFWorld (Returned tt) (Some (Returned (Some "2025-01-02"))) "2025-01-03"
            (fun _ _ => Returned ["002230.XSHE"; "300750.XSHE"])
            (fun _ _ => Returned []) false (Raised "ImportError")
            (fun _ _ _ _ _ => Raised "ImportError").

(** ** Statements about the candidate pool *)

(** The entry [e] of a worker's [mainlines] stands for the document [d]. *)
Definition entry_of_doc (d : mainline_doc) (e : pool_entry) : Prop :=
  pe_mainline e = md_name d ∧ pe_mainline_score e = md_composite_score d ∧
  pe_jq_code e = doc_jq_code d.

(** How many entries a document contributes: one per listed stock, or one
    placeholder when it has no list. *)
Definition doc_weight (d : mainline_doc) : nat :=
  match md_stocks d with
  | Some stocks => length stocks
  | None => 1
  end.

(** Two stored themes: one with an empty stock list, one without a list. *)
Definition doc_listed : mainline_doc := mkDoc "人工智能" "SC0363" "" 85 (Some []).
Definition doc_bare : mainline_doc := mkDoc "新能源" "" "HY001" 80 None.

(** ** Statements about scanning and then generating the script *)

(** A fresh panel after a single mainline scan and a single technical scan
    delivered [mainline_stocks] and [tech_stocks]. *)
Definition after_single_scans (mainline_stocks tech_stocks : list stock)
    : StockPoolPanel :=
  _on_single_done KTech tech_stocks
    (_on_single_done KMainline mainline_stocks panel_init).

(** ** Statements about the end of an overview scan *)

(** The states of an overview scan started on [p0], by the number of
    [finished] signals handled so far; [d1], [d2], [d3], [d4] are the lists
    that the four workers handed over. *)
Definition overview_stage (w : world) (p0 p : StockPoolPanel) (handled : nat) : Prop :=
  ∃ d1 s1 d2 s2 d3 s3 d4 s4,
    let p1 := _on_overview_mainline_done d1 s1 (deliver KMainline (_do_scan_all p0)) in
    let p2 := _on_overview_tech_done d2 s2 (deliver KTech p1) in
    let p3 := _on_overview_etf_done d3 s3 (deliver KETF p2) in
    match handled with
    | 0%nat => p = _do_scan_all p0
    | 1%nat =>
        (d1, s1) ∈ finished_data (MainlineScanWorker_run w default_mainline_worker).1 ∧
        p = p1
    | 2%nat =>
        (d1, s1) ∈ finished_data (MainlineScanWorker_run w default_mainline_worker).1 ∧
        (d2, s2) ∈ finished_data (TechScanWorker_run w "short").1 ∧
        p = p2
    | 3%nat =>
        (d1, s1) ∈ finished_data (MainlineScanWorker_run w default_mainline_worker).1 ∧
        (d2, s2) ∈ finished_data (TechScanWorker_run w "short").1 ∧
        (d3, s3) ∈ finished_data (ETFScanWorker_run w).1 ∧
        p = p3
    | _ =>
        (d1, s1) ∈ finished_data (MainlineScanWorker_run w default_mainline_worker).1 ∧
        (d2, s2) ∈ finished_data (TechScanWorker_run w "short").1 ∧
        (d3, s3) ∈ finished_data (ETFScanWorker_run w).1 ∧
        (d4, s4) ∈ finished_data (ExternalParseWorker_run w).1 ∧
        p = overview_scan p0 d1 s1 d2 s2 d3 s3 d4 s4
    end.

(** ** Statements about the simplified mode of the factor filter *)

(** The date the run asks JQData about: the client's available date, or
    today when the client has none. *)
Definition filter_date (fw : ff_world) : string :=
  match get_available_date fw with
  | Some (Returned (Some d)) => if bool_decide (d = "") then today fw else d
  | _ => today fw
  end.

(** The theme [ml] has a JQData code, and the constituents stored for that
    code hold [c]. *)
Definition theme_lists (fw : ff_world) (c : string) (ml : pool_entry) : bool :=
  negb (bool_decide (pe_jq_code ml = "")) &&
  match fetched fw (filter_date fw) (pe_jq_code ml) with
  | Some l => bool_decide (c ∈ l)
  | None => false
  end.

Definition item_code (s : ff_item) : string :=
  match s with
  | ItemSignal sig => ss_code sig
  | ItemDict c _ _ => c
  end.

(** ** Statements about the source label of the mainline scan *)



(** * Properties *)

(** ** Comparisons that order their arguments *)

Class CmpOrder {A : Type} (cmp : A -> A -> comparison) : Prop := {
  cmp_sym : ∀ a b, cmp b a = CompOpp (cmp a b);
  cmp_lt_trans : ∀ a b c, cmp a b = Lt → cmp b c = Lt → cmp a c = Lt;
  cmp_eq_cong : ∀ a b c, cmp a b = Eq → cmp a c = cmp b c
}.

Section CmpFacts.
Context {A : Type} (cmp : A -> A -> comparison) `{!CmpOrder cmp}.

Lemma cmp_refl a : cmp a a = Eq.
Proof. pose proof (cmp_sym a a) as H. destruct (cmp a a); simpl in H; congruence. Qed.

Lemma cmp_eq_cong_r a b c : cmp a b = Eq → cmp c a = cmp c b.
Proof.
  intros H. rewrite (cmp_sym a c), (cmp_sym b c). f_equal. by apply cmp_eq_cong.
Qed.

Lemma cmp_flip_lt a b : cmp a b = Lt → cmp b a = Gt.
Proof. intros H. by rewrite cmp_sym, H. Qed.

Lemma cmp_flip_gt a b : cmp a b = Gt → cmp b a = Lt.
Proof. intros H. by rewrite cmp_sym, H. Qed.

(** Transitivity of "not smaller": [¬ b < y] and [¬ y < a] give [¬ b < a]. *)
Lemma cmp_not_lt_trans a y b :
  cmp b y ≠ Lt → cmp y a ≠ Lt → cmp b a ≠ Lt.
Proof.
  intros Hby Hya Hba. destruct (cmp y a) eqn:E; [| done |].
  - apply Hby. by rewrite (cmp_eq_cong_r y a b E).
  - apply Hby. apply (cmp_lt_trans b a y Hba). by apply cmp_flip_gt.
Qed.
End CmpFacts.

Lemma CmpOrder_lex {A} (c1 c2 : A -> A -> comparison) :
  CmpOrder c1 → CmpOrder c2 → CmpOrder (fun a b => cmp_then (c1 a b) (c2 a b)).
Proof.
  intros H1 H2. split.
  - intros a b. rewrite (cmp_sym (cmp:=c1) a b), (cmp_sym (cmp:=c2) a b).
    by destruct (c1 a b), (c2 a b).
  - intros a b c Hab Hbc.
    destruct (c1 a b) eqn:E1; simpl in Hab; [| | done].
    + rewrite (cmp_eq_cong a b c E1).
      destruct (c1 b c) eqn:E2; simpl in *; [| done | done].
      by apply (cmp_lt_trans (cmp:=c2) a b c).
    + destruct (c1 b c) eqn:E2; simpl in Hbc; [| | done].
      * by rewrite <- (cmp_eq_cong_r c1 b c a E2), E1.
      * by rewrite (cmp_lt_trans (cmp:=c1) a b c E1 E2).
  - intros a b c Hab.
    destruct (c1 a b) eqn:E1; simpl in Hab; [| done | done].
    by rewrite (cmp_eq_cong (cmp:=c1) a b c E1), (cmp_eq_cong (cmp:=c2) a b c Hab).
Qed.

Lemma CmpOrder_Z {A} (f : A -> Z) : CmpOrder (fun a b => f a ?= f b).
Proof.
  split.
  - intros a b. apply Z.compare_antisym.
  - intros a b c. rewrite !Z.compare_lt_iff. lia.
  - intros a b c H. apply Z.compare_eq in H. by rewrite H.
Qed.

Lemma CmpOrder_Q {A} (f : A -> Q) : CmpOrder (fun a b => Qcompare (f a) (f b)).
Proof.
  split.
  - intros a b. symmetry. apply Qcompare_antisym.
  - intros a b c. rewrite <- !Qlt_alt. apply Qlt_trans.
  - intros a b c H. apply Qeq_alt in H. by rewrite H.
Qed.

Lemma key2_order : CmpOrder key2_cmp.
Proof.
  apply (CmpOrder_lex (fun a b => priority a ?= priority b)
                      (fun a b => Qcompare (- mainline_score a) (- mainline_score b))).
  - apply CmpOrder_Z.
  - apply (CmpOrder_Q (fun a => (- mainline_score a)%Q)).
Qed.

Lemma key3_order : CmpOrder key3_cmp.
Proof.
  apply (CmpOrder_lex key2_cmp
           (fun a b => Qcompare (- change_pct a) (- change_pct b))).
  - apply key2_order.
  - apply (CmpOrder_Q (fun a => (- change_pct a)%Q)).
Qed.

(** ** [py_sort] is the stable sort *)



Section SortFacts.
Context (cmp : stock -> stock -> comparison) `{!CmpOrder cmp}.

Let lt := fun a b => is_Lt (cmp a b).
Let ordered := ordered lt.

Lemma lt_false a b : lt a b = false ↔ cmp a b ≠ Lt.
Proof. unfold lt. destruct (cmp a b); simpl; split; congruence. Qed.

Lemma lt_true a b : lt a b = true ↔ cmp a b = Lt.
Proof. unfold lt. destruct (cmp a b); simpl; split; congruence. Qed.

Lemma same_key_eq x y : same_key lt x y = true ↔ cmp x y = Eq.
Proof.
  unfold same_key, lt. rewrite (cmp_sym (cmp:=cmp) x y).
  destruct (cmp x y); simpl; split; congruence.
Qed.

Lemma same_key_refl x : same_key lt x x = true.
Proof. apply same_key_eq. by apply cmp_refl. Qed.

Lemma filter_insert x a l :
  List.filter (same_key lt x) (py_insert lt a l) = List.filter (same_key lt x) (a :: l).
Proof.
  induction l as [|y l IH]; [done|].
  simpl. destruct (lt y a) eqn:Hya; [|done].
  simpl. rewrite IH. simpl.
  destruct (same_key lt x y) eqn:Hy, (same_key lt x a) eqn:Ha; try done.
  apply same_key_eq in Hy, Ha. apply lt_true in Hya.
  rewrite <- (cmp_eq_cong x y a Hy), Ha in Hya. done.
Qed.

Lemma filter_sort x l :
  List.filter (same_key lt x) (py_sort lt l) = List.filter (same_key lt x) l.
Proof.
  induction l as [|a l IH]; [done|].
  simpl py_sort. rewrite filter_insert. simpl. by rewrite IH.
Qed.

Lemma insert_perm a l : py_insert lt a l ≡ₚ a :: l.
Proof.
  induction l as [|y l IH]; [done|].
  simpl. destruct (lt y a); [|done].
  rewrite IH. apply Permutation_swap.
Qed.

Lemma sort_perm l : py_sort lt l ≡ₚ l.
Proof.
  induction l as [|a l IH]; [done|].
  simpl. by rewrite insert_perm, IH.
Qed.

Lemma insert_ordered a l : ordered l → ordered (py_insert lt a l).
Proof.
  induction 1 as [|y l Hl IH Hy]; simpl.
  - repeat constructor.
  - destruct (lt y a) eqn:Hya.
    + constructor; [done|].
      rewrite Forall_forall in Hy |- *. intros b Hb.
      rewrite insert_perm in Hb.
      apply elem_of_cons in Hb as [->|Hb].
      * apply lt_false. apply lt_true in Hya.
        rewrite (cmp_flip_lt cmp y a Hya). done.
      * by apply Hy.
    + constructor; [by constructor|].
      constructor; [done|].
      rewrite Forall_forall in Hy |- *. intros b Hb.
      apply lt_false. apply (cmp_not_lt_trans cmp a y b).
      * apply lt_false. by apply Hy.
      * by apply lt_false.
Qed.

Lemma sort_ordered l : ordered (py_sort lt l).
Proof.
  induction l as [|a l IH]; simpl; [constructor|]. by apply insert_ordered.
Qed.

Lemma ordered_sorted_by l : ordered l ↔ sorted_by lt l.
Proof.
  split.
  - induction 1 as [|a l Hl IH Ha]; intros i j x y Hi Hj Hij.
    + by rewrite lookup_nil in Hi.
    + destruct j as [|j]; [lia|]. simpl in Hj.
      destruct i as [|i]; simpl in Hi.
      * injection Hi as ->. rewrite Forall_forall in Ha. apply Ha.
        by eapply list_elem_of_lookup_2.
      * eapply (IH i j); eauto. lia.
  - induction l as [|a l IH]; intros H; [constructor|].
    constructor.
    + apply IH. intros i j x y Hi Hj Hij.
      apply (H (S i) (S j) x y); simpl; auto. lia.
    + rewrite Forall_forall. intros b Hb.
      apply list_elem_of_lookup in Hb as [j Hj].
      apply (H 0%nat (S j) a b); simpl; auto. lia.
Qed.


(** Two ordered lists with the same records under every key are equal. *)
Lemma ordered_unique l1 l2 :
  ordered l1 → ordered l2 →
  (∀ x, List.filter (same_key lt x) l1 = List.filter (same_key lt x) l2) →
  l1 = l2.
Proof.
  intros H1. revert l2.
  induction H1 as [|a l1 Hl1 IH Ha]; intros l2 H2 Hf.
  - destruct l2 as [|b l2]; [done|].
    specialize (Hf b). simpl in Hf. by rewrite same_key_refl in Hf.
  - destruct H2 as [|b l2 Hl2 Hb].
    { specialize (Hf a). simpl in Hf. by rewrite same_key_refl in Hf. }
    assert (Hina : a ∈ b :: l2).
    { apply list_elem_of_In. eapply (proj1 (filter_In (same_key lt a) a (b :: l2))).
      rewrite <- Hf. simpl. rewrite same_key_refl. by left. }
    assert (Hinb : b ∈ a :: l1).
    { apply list_elem_of_In. eapply (proj1 (filter_In (same_key lt b) b (a :: l1))).
      rewrite Hf. simpl. rewrite same_key_refl. by left. }
    rewrite Forall_forall in Ha, Hb.
    assert (Hab : cmp a b = Eq).
    { assert (cmp a b ≠ Lt).
      { apply elem_of_cons in Hina as [->|Hin]; [by rewrite cmp_refl|].
        by apply lt_false, Hb. }
      assert (cmp b a ≠ Lt).
      { apply elem_of_cons in Hinb as [->|Hin]; [by rewrite cmp_refl|].
        by apply lt_false, Ha. }
      rewrite (cmp_sym (cmp:=cmp) a b) in H0.
      destruct (cmp a b); simpl in *; congruence. }
    pose proof (Hf a) as Hfa. simpl in Hfa.
    rewrite same_key_refl in Hfa.
    rewrite (proj2 (same_key_eq a b) Hab) in Hfa.
    injection Hfa as <- _.
    f_equal. apply IH; [done|].
    intros x. specialize (Hf x). simpl in Hf.
    destruct (same_key lt x a); congruence.
Qed.

Lemma stable_sort_unique l out : is_stable_sort lt l out → out = py_sort lt l.
Proof.
  intros [Hs Hf]. apply ordered_unique.
  - by apply ordered_sorted_by.
  - apply sort_ordered.
  - intros x. by rewrite Hf, filter_sort.
Qed.

Lemma sort_ordered_id l : ordered l → py_sort lt l = l.
Proof.
  intros H. symmetry. apply stable_sort_unique.
  split; [by apply ordered_sorted_by | done].
Qed.

Lemma ordered_take n l : ordered l → ordered (take n l).
Proof.
  intros H. revert n. induction H as [|a l Hl IH Ha]; intros [|n]; simpl;
    try constructor; [apply IH|].
  rewrite Forall_forall in Ha |- *. intros b Hb. apply Ha.
  by apply (subseteq_take n l).
Qed.
End SortFacts.

(** ** The deduplication loop *)


Section Dedup.
Context (key : stock -> string).

Lemma dedup_sublist seen l : dedup_loop key seen l `sublist_of` l.
Proof.
  revert seen. induction l as [|s l IH]; intros seen; simpl; [constructor|].
  case_bool_decide; by constructor.
Qed.

(** First seen wins: a kept record has a key that was not seen before and
    is the first record of the list with that key. *)
Lemma dedup_first seen l s :
  s ∈ dedup_loop key seen l →
  key s ≠ "" ∧ (key s ∉ seen) ∧ first_with key l (key s) = Some s.
Proof.
  revert seen. induction l as [|s0 l IH]; intros seen; simpl.
  { intros H. by apply elem_of_nil in H. }
  unfold first_with in *. simpl.
  destruct (decide (key s0 ≠ "" ∧ key s0 ∉ seen)) as [Hk|Hk].
  - rewrite (bool_decide_eq_true_2 _ Hk). intros Hin.
    apply elem_of_cons in Hin as [->|Hin].
    + destruct Hk. by rewrite bool_decide_eq_true_2.
    + destruct (IH _ Hin) as (Hne & Hns & Hf).
      apply not_elem_of_union in Hns as [Hns1 Hns2].
      apply not_elem_of_singleton in Hns1.
      split_and!; [done | done |].
      rewrite bool_decide_eq_false_2; [done | congruence].
  - rewrite (bool_decide_eq_false_2 _ Hk). intros Hin.
    destruct (IH _ Hin) as (Hne & Hns & Hf).
    split_and!; [done..|].
    rewrite bool_decide_eq_false_2; [done|].
    intros Heq. apply Hk. by rewrite Heq.
Qed.

Lemma dedup_NoDup seen l : NoDup (key <$> dedup_loop key seen l).
Proof.
  revert seen. induction l as [|s l IH]; intros seen; simpl; [constructor|].
  case_bool_decide; [|done].
  rewrite fmap_cons. constructor; [|done].
  intros Hin. apply list_elem_of_fmap in Hin as (x & Hx & Hin).
  apply dedup_first in Hin as (_ & Hns & _).
  apply Hns, elem_of_union_l, elem_of_singleton. done.
Qed.





End Dedup.


Lemma find_ext_in {A} (f g : A -> bool) (l : list A) :
  (∀ x, x ∈ l → f x = g x) → List.find f l = List.find g l.
Proof.
  induction l as [|a l IH]; intros H; [done|].
  simpl. rewrite (H a) by left. destruct (g a); [done|].
  apply IH. intros x Hx. apply H. by right.
Qed.

(** ** Deduplicate, sort, truncate *)

Section Ranked.
Context (cmp : stock -> stock -> comparison) `{!CmpOrder cmp}.
Context (key : stock -> string).

Abbreviation lt := (fun a b : stock => is_Lt (cmp a b)).

Lemma ranked_elem n l s :
  s ∈ take n (py_sort lt (dedup_loop key ∅ l)) → s ∈ dedup_loop key ∅ l.
Proof.
  intros H. apply (subseteq_take n) in H. by rewrite (sort_perm cmp) in H.
Qed.


Lemma ranked_NoDup n l :
  NoDup (key <$> take n (py_sort lt (dedup_loop key ∅ l))).
Proof.
  eapply sublist_NoDup; [|apply fmap_sublist, sublist_take].
  rewrite (sort_perm cmp). apply dedup_NoDup.
Qed.

End Ranked.



#[local] Existing Instance key2_order.
#[local] Existing Instance key3_order.

Lemma identity_of_code s : code s ≠ "" → identity s = code s.
Proof. intros H. unfold identity. by rewrite bool_decide_eq_true_2. Qed.

Lemma dedup_code_has_code seen l s : s ∈ dedup_loop code seen l → code s ≠ "".
Proof. intros H. by apply dedup_first in H as (? & _). Qed.








(** C9.  No two records of a deduplicated output share an identity, in
    [_deduplicate_and_sort] and in the overview merge. *)
Theorem dedup_identities_distinct (l : list stock) :
  NoDup (identity <$> _deduplicate_and_sort l) ∧
  NoDup (identity <$> overview_rows l).
Proof.
  split.
  - replace (identity <$> _deduplicate_and_sort l)
      with (code <$> _deduplicate_and_sort l).
    + apply (ranked_NoDup key3_cmp code 30 l).
    + apply Forall_fmap_ext, Forall_forall. intros s Hs.
      symmetry. apply identity_of_code.
      apply (ranked_elem key3_cmp) in Hs. by eapply dedup_code_has_code.
  - apply (ranked_NoDup key2_cmp identity 50 l).
Qed.

(** Running [_deduplicate_and_sort] on its own output changes nothing. *)
Lemma dedup_loop_fixed key seen l :
  NoDup (key <$> l) → (∀ s, s ∈ l → key s ≠ "" ∧ key s ∉ seen) →
  dedup_loop key seen l = l.
Proof.
  revert seen. induction l as [|s l IH]; intros seen Hnd H; [done|].
  simpl. rewrite fmap_cons in Hnd. apply NoDup_cons in Hnd as [Hs Hnd].
  rewrite bool_decide_eq_true_2 by (apply H; left).
  f_equal. apply IH; [done|]. intros x Hx.
  destruct (H x) as [Hne Hns]; [by right|]. split; [done|].
  rewrite not_elem_of_union, not_elem_of_singleton. split; [|done].
  intros Heq. apply Hs. rewrite <- Heq. by apply list_elem_of_fmap_2.
Qed.

Lemma _deduplicate_and_sort_idempotent l :
  _deduplicate_and_sort (_deduplicate_and_sort l) = _deduplicate_and_sort l.
Proof.
  unfold _deduplicate_and_sort at 1.
  rewrite dedup_loop_fixed.
  - rewrite (sort_ordered_id key3_cmp).
    + apply take_ge. unfold _deduplicate_and_sort. rewrite length_take. lia.
    + apply (ordered_take key3_cmp), (sort_ordered key3_cmp).
  - apply (ranked_NoDup key3_cmp code 30 l).
  - intros s Hs. split; [|apply not_elem_of_empty].
    apply (ranked_elem key3_cmp) in Hs. by eapply dedup_code_has_code.
Qed.



(** ** Reasoning about worker runs *)

Lemma finished_data_app {A} (t1 t2 : list (event A)) :
  finished_data (t1 ++ t2) = finished_data t1 ++ finished_data t2.
Proof. apply omap_app. Qed.

Section RunFacts.
Context {A : Type}.
Implicit Types P : A → Prop.

Lemma post_ret {B} P (Q : B → Prop) b : Q b → post P Q (w_ret b).
Proof.
  intros H. split; cbn [fst snd w_bind try_except w_ret call emit].
  - intros d src Hd. by apply elem_of_nil in Hd.
  - by intros ? [= <-].
Qed.

Lemma post_call {B} P (Q : B → Prop) (r : outcome B) :
  (∀ b, r = Returned b → Q b) → post P Q (call r).
Proof.
  intros H. split; cbn [fst snd w_bind try_except w_ret call emit]; [|done].
  intros d src Hd. by apply elem_of_nil in Hd.
Qed.

Lemma post_progress P (Q : unit → Prop) pct : Q tt → post P Q (emit (Progress pct)).
Proof.
  intros H. split; cbn [fst snd w_bind try_except w_ret call emit].
  - intros d src Hd. by apply elem_of_nil in Hd.
  - by intros [] _.
Qed.

Lemma post_log P (Q : unit → Prop) lv : Q tt → post P Q (emit (Log lv)).
Proof.
  intros H. split; cbn [fst snd w_bind try_except w_ret call emit].
  - intros d src Hd. by apply elem_of_nil in Hd.
  - by intros [] _.
Qed.

Lemma post_finished P (Q : unit → Prop) d src :
  P d → Q tt → post P Q (emit (Finished d src)).
Proof.
  intros Hd HQ. split; cbn [fst snd w_bind try_except w_ret call emit].
  - intros d' src' H. apply list_elem_of_singleton in H. by simplify_eq.
  - by intros [] _.
Qed.

Lemma post_bind {B C} P (Q : B → Prop) (R : C → Prop) m (k : B → W (event A) C) :
  post P Q m → (∀ b, Q b → post P R (k b)) → post P R (w_bind m k).
Proof.
  intros [Hm1 Hm2] Hk. destruct m as [t [b|e]]; cbn [fst snd w_bind try_except w_ret call emit] in *.
  - destruct (Hk b (Hm2 b eq_refl)) as [Hk1 Hk2].
    destruct (k b) as [t' r]. cbn [fst snd w_bind try_except w_ret call emit] in *. split; cbn [fst snd w_bind try_except w_ret call emit]; [|done].
    intros d src. rewrite finished_data_app, elem_of_app.
    intros [?|?]; eauto.
  - split; [done|]. by intros.
Qed.

Lemma post_try {B} P (Q : B → Prop) body (handler : exn → W (event A) B) :
  post P Q body → (∀ e, post P Q (handler e)) → post P Q (try_except body handler).
Proof.
  intros [Hb1 Hb2] Hh. destruct body as [t [b|e]]; cbn [fst snd w_bind try_except w_ret call emit] in *; [done|].
  destruct (Hh e) as [Hh1 Hh2]. destruct (handler e) as [t' r]. cbn [fst snd w_bind try_except w_ret call emit] in *.
  split; cbn [fst snd w_bind try_except w_ret call emit]; [|done].
  intros d src. rewrite finished_data_app, elem_of_app.
  intros [?|?]; eauto.
Qed.

Lemma post_weaken {B} P P' (Q Q' : B → Prop) m :
  post P Q m → (∀ d, P d → P' d) → (∀ b, Q b → Q' b) → post P' Q' m.
Proof. intros [H1 H2] HP HQ. split; eauto. Qed.

Lemma post_for_each {B C} P (Q : C → Prop) (body : B → W (event A) (list C)) l :
  (∀ x, x ∈ l → post P (Forall Q) (body x)) → post P (Forall Q) (for_each body l).
Proof.
  induction l as [|x l IH]; intros H; cbn [fst snd w_bind try_except w_ret call emit].
  - by apply post_ret.
  - eapply post_bind; [apply H; by left|].
    intros ys Hys. eapply post_bind.
    + apply IH. intros y Hy. apply H. by right.
    + intros zs Hzs. apply post_ret. by apply Forall_app.
Qed.

End RunFacts.

(** Exactly one final signal, emitted last. *)

Section EndFacts.
Context {E : Type} (final : E -> bool).

Lemma tacit_ret {B} (b : B) : tacit final (w_ret b).
Proof. constructor. Qed.

Lemma tacit_call {B} (r : outcome B) : tacit final (call r).
Proof. constructor. Qed.

Lemma tacit_emit e : final e = false → tacit final (emit e).
Proof. intros H. by repeat constructor. Qed.

Lemma tacit_bind {B C} (m : W E B) (k : B → W E C) :
  tacit final m → (∀ b, tacit final (k b)) → tacit final (w_bind m k).
Proof.
  unfold tacit. intros Hm Hk. destruct m as [t [b|x]]; [|done].
  specialize (Hk b). cbn [fst w_bind] in *. destruct (k b) as [t' r].
  by apply Forall_app.
Qed.

Lemma tacit_try {B} (body : W E B) handler :
  tacit final body → (∀ x, tacit final (handler x)) →
  tacit final (try_except body handler).
Proof.
  unfold tacit. intros Hb Hh. destruct body as [t [b|x]]; [done|].
  specialize (Hh x). cbn [fst try_except] in *. destruct (handler x) as [t' r].
  by apply Forall_app.
Qed.

Lemma tacit_for_each {B C} (body : B → W E (list C)) l :
  (∀ x, tacit final (body x)) → tacit final (for_each body l).
Proof.
  intros H. induction l as [|x l IH]; simpl; [apply tacit_ret|].
  apply tacit_bind; [done|]. intros ys.
  apply tacit_bind; [done|]. intros zs. apply tacit_ret.
Qed.

Lemma ends_emit e : final e = true → ends_or_raises final (emit e).
Proof. intros H. left. exists [], e. by repeat split. Qed.

Lemma ends_once_emit e : final e = true → ends_once final (emit e).
Proof. intros H. exists [], e. by repeat split. Qed.

Lemma ends_bind {B} (m : W E B) k :
  tacit final m → (∀ b, ends_or_raises final (k b)) →
  ends_or_raises final (w_bind m k).
Proof.
  unfold tacit. intros Hm Hk. destruct m as [t [b|x]]; cbn [fst w_bind] in *.
  - destruct (Hk b) as [(t' & e & -> & He & Ht')|(t' & x & -> & Ht')].
    + left. exists (t ++ t'), e. rewrite app_assoc. split_and!; [done..|].
      by apply Forall_app.
    + right. exists (t ++ t'), x. split; [done|]. by apply Forall_app.
  - right. by exists t, x.
Qed.

Lemma ends_try (body : W E unit) handler :
  ends_or_raises final body →
  (∀ x, ends_once final (handler x)) →
  ends_once final (try_except body handler).
Proof.
  intros [(t & e & -> & He & Ht)|(t & x & -> & Ht)] Hh; cbn [try_except].
  - by exists t, e.
  - destruct (Hh x) as (t' & e & -> & He & Ht').
    exists (t ++ t'), e. rewrite app_assoc. split_and!; [done..|].
    by apply Forall_app.
Qed.

Lemma ends_once_bind {B} (m : W E B) k :
  tacit final m → returns m → (∀ b, ends_once final (k b)) →
  ends_once final (w_bind m k).
Proof.
  unfold tacit. intros Hm (t & b & ->) Hk. cbn [fst w_bind] in *.
  destruct (Hk b) as (t' & e & -> & He & Ht').
  exists (t ++ t'), e. rewrite app_assoc. split_and!; [done..|].
  by apply Forall_app.
Qed.

Lemma ends_once_weaken (m : W E unit) : ends_once final m → ends_or_raises final m.
Proof. by left. Qed.
End EndFacts.

Lemma finished_data_tacit {A} (t : list (event A)) :
  Forall (fun e => is_finished e = false) t → finished_data t = [].
Proof.
  induction 1 as [|e t He _ IH]; [done|].
  destruct e; try done; exact IH.
Qed.

Lemma ends_once_data {A} (m : W (event A) unit) :
  ends_once is_finished m →
  ∃ d src, finished_data m.1 = [(d, src)] ∧ m.2 = Returned tt.
Proof.
  intros (t & e & -> & He & Ht). destruct e as [|d src|]; try done.
  exists d, src. simpl. by rewrite finished_data_app, finished_data_tacit.
Qed.

(** Computations that return. *)

Lemma returns_ret {E B} (b : B) : returns (w_ret (E:=E) b).
Proof. by exists [], b. Qed.

Lemma returns_emit {E} (e : E) : returns (emit e).
Proof. by exists [e], tt. Qed.

Lemma returns_bind {E B C} (m : W E B) (k : B → W E C) :
  returns m → (∀ b, returns (k b)) → returns (w_bind m k).
Proof.
  intros (t & b & ->) Hk. destruct (Hk b) as (t' & c & Hc).
  simpl. rewrite Hc. by exists (t ++ t'), c.
Qed.

Lemma returns_try {E B} (body : W E B) handler :
  (∀ e, returns (handler e)) → returns (try_except body handler).
Proof.
  intros Hh. destruct body as [t [b|e]]; simpl.
  - by exists t, b.
  - destruct (Hh e) as (t' & b & Hb). rewrite Hb. by exists (t ++ t'), b.
Qed.

Lemma returns_for_each {E B C} (body : B → W E (list C)) l :
  (∀ x, returns (body x)) → returns (for_each body l).
Proof.
  intros H. induction l as [|x l IH]; simpl; [apply returns_ret|].
  apply returns_bind; [done|]. intros ys.
  apply returns_bind; [done|]. intros zs. apply returns_ret.
Qed.

(** ** The technical scan *)

Lemma qle_iff a b : qle a b = true ↔ (a <= b)%Q.
Proof. apply Qle_bool_iff. Qed.


Lemma to_float_numeric c d : c ≠ CellBad → ∃ q, to_float c d = Returned q.
Proof. destruct c; simpl; eauto. done. Qed.

Lemma to_float_returned c d q : to_float c d = Returned q → c ≠ CellBad.
Proof. by destruct c. Qed.

(** The score the code accumulates is the composite score, and a score of
    25 implies that some signal was found. *)
Lemma tech_record_composite period desc c n ch vr t mc :
  tech_record period desc c n ch vr t mc =
  if Qle_bool 30 mc && Qle_bool mc 5000 && (25 <=? composite_score ch vr t)
  then [mkStock c n "tech_breakout" desc period
                (if 50 <=? composite_score ch vr t then 2 else 3) 0 ch
                (ReasonTech (tech_signals ch vr t).1) ""
                (Some (composite_score ch vr t))]
  else [].
Proof.
  unfold tech_record, tech_signals, composite_score, momentum_signal,
    volume_signal, turnover_signal, qlt, qle.
  destruct (Qle_bool 30 mc), (Qle_bool mc 5000); try reflexivity.
  destruct (Qle_bool 9.9 ch), (Qle_bool 7 ch), (Qle_bool 5 ch),
    (Qle_bool 3 vr), (Qle_bool 2 vr), (Qle_bool 5 t), (Qle_bool t 15);
    reflexivity.
Qed.



Lemma tech_row_skipped period desc row :
  r_name row = "" ∨ r_code row = "" ∨ contains "ST" (r_name row) = true →
  tech_row period desc row = ([], Returned []).
Proof.
  unfold tech_row. intros [H|[H|H]].
  - by rewrite (bool_decide_eq_true_2 _ H).
  - rewrite (bool_decide_eq_true_2 (r_code row = "") H). by rewrite orb_true_r.
  - rewrite H. by destruct (_ || _).
Qed.

(** Whatever an iteration appends is listable, and it emits nothing. *)
Lemma tech_row_trace period desc row : (tech_row period desc row).1 = [].
Proof.
  unfold tech_row.
  destruct (_ || _); [done|]. destruct (contains _ _); [done|].
  destruct (to_float (r_change row) 0); [|done].
  destruct (to_float (r_volume_ratio row) 1); [|done].
  destruct (to_float (r_turnover row) 0); [|done].
  by destruct (to_float (r_market_cap row) 0).
Qed.

Lemma tech_row_listable period desc row l s :
  (tech_row period desc row).2 = Returned l → s ∈ l →
  listable s ∧ code s = r_code row ∧ name s = r_name row.
Proof.
  unfold tech_row.
  destruct (decide (r_name row = "")) as [Hn|Hn].
  { rewrite (bool_decide_eq_true_2 _ Hn). simpl. intros [= <-] H.
    by apply elem_of_nil in H. }
  destruct (decide (r_code row = "")) as [Hc|Hc].
  { rewrite (bool_decide_eq_true_2 (r_code row = "") Hc), orb_true_r. simpl.
    intros [= <-] H. by apply elem_of_nil in H. }
  rewrite (bool_decide_eq_false_2 _ Hn), (bool_decide_eq_false_2 _ Hc). simpl.
  destruct (contains "ST" (r_name row)) eqn:Hst.
  { simpl. intros [= <-] H. by apply elem_of_nil in H. }
  destruct (to_float (r_change row) 0) as [ch|]; [|done].
  destruct (to_float (r_volume_ratio row) 1) as [vr|]; [|done].
  destruct (to_float (r_turnover row) 0) as [t|]; [|done].
  destruct (to_float (r_market_cap row) 0) as [cap|]; [|done].
  simpl. rewrite tech_record_composite. intros [= <-] H.
  destruct (_ && _); [|by apply elem_of_nil in H].
  apply list_elem_of_singleton in H as ->. by repeat split.
Qed.

Lemma score_order : CmpOrder score_cmp.
Proof.
  split; unfold score_cmp.
  - intros a b. apply Z.compare_antisym.
  - intros a b c. rewrite !Z.compare_lt_iff. lia.
  - intros a b c H. apply Z.compare_eq in H. by rewrite H.
Qed.

#[local] Existing Instance score_order.






Lemma mock_tech_listable : Forall listable get_mock_tech_stocks.
Proof. repeat constructor; discriminate. Qed.

Lemma tech_row_post period desc row :
  post (Forall listable) (Forall listable) (tech_row period desc row).
Proof.
  split.
  - rewrite tech_row_trace. intros d src H. by apply elem_of_nil in H.
  - intros l Hl. apply Forall_forall. intros s Hs.
    by destruct (tech_row_listable period desc row l s Hl Hs).
Qed.

Lemma TechScanWorker_run_listable w period :
  post (Forall listable) (fun _ => True) (TechScanWorker_run w period).
Proof.
  unfold TechScanWorker_run. apply post_try.
  - eapply post_bind; [by apply (post_progress _ (fun _ => True))|]. intros _ _.
    eapply post_bind with (Q := fun _ => True).
    { apply post_try.
      - eapply post_bind; [by apply (post_call _ (fun _ => True))|].
        intros [[|r rows]|] _; [by apply post_ret | | by apply post_ret].
        eapply post_bind; [by apply (post_progress _ (fun _ => True))|].
        intros _ _. by apply post_ret.
      - intros e. eapply post_bind; [by apply (post_log _ (fun _ => True))|].
        intros _ _. by apply post_ret. }
    intros [[|r rows]|] _.
    + eapply post_bind; [by apply (post_progress _ (fun _ => True))|]. intros _ _.
      apply post_finished; [apply mock_tech_listable | done].
    + eapply post_bind; [by apply (post_progress _ (fun _ => True))|]. intros _ _.
      eapply post_bind.
      { apply post_for_each. intros x _. apply tech_row_post. }
      intros stocks Hstocks.
      eapply post_bind; [by apply (post_progress _ (fun _ => True))|]. intros _ _.
      apply post_finished; [|done].
      apply Forall_take. by rewrite (sort_perm score_cmp).
    + eapply post_bind; [by apply (post_progress _ (fun _ => True))|]. intros _ _.
      apply post_finished; [apply mock_tech_listable | done].
  - intros e.
    eapply post_bind; [by apply (post_log _ (fun _ => True))|]. intros _ _.
    eapply post_bind; [by apply (post_progress _ (fun _ => True))|]. intros _ _.
    apply post_finished; [apply mock_tech_listable | done].
Qed.

(** C10.  A row whose name contains "ST", or whose name or code is empty,
    is skipped before any of its numbers is read, and no record with such a
    name or code is in any list the technical scan emits. *)
Theorem st_rows_never_listed :
  (∀ period desc row,
     r_name row = "" ∨ r_code row = "" ∨ contains "ST" (r_name row) = true →
     tech_row period desc row = ([], Returned [])) ∧
  (∀ w period data src s,
     (data, src) ∈ finished_data (TechScanWorker_run w period).1 → s ∈ data →
     name s ≠ "" ∧ code s ≠ "" ∧ contains "ST" (name s) = false).
Proof.
  split.
  - apply tech_row_skipped.
  - intros w period data src s Hd Hs.
    destruct (TechScanWorker_run_listable w period) as [H _].
    specialize (H data src Hd). rewrite Forall_forall in H. by apply H.
Qed.

Lemma st_rows_never_listed_witness :
  tech_row "short" "AKShare实时行情"
    (mkSpotRow "600401" "*ST海润" CellBad CellBad CellBad CellBad CellBad)
  = ([], Returned []) ∧
  ∃ data,
    finished_data (TechScanWorker_run (spot_world [st_row; breakout_row]) "short").1
    = [(data, "AKShare实时行情")] ∧
    length data = 1%nat ∧
    ∀ s, s ∈ data → name s ≠ "" ∧ code s ≠ "" ∧ contains "ST" (name s) = false.
Proof.
  split.
  - apply (proj1 st_rows_never_listed). right. right. reflexivity.
  - eexists. split; [vm_compute; reflexivity|]. split; [reflexivity|].
    intros s Hs.
    eapply (proj2 st_rows_never_listed (spot_world [st_row; breakout_row]) "short"
              _ "AKShare实时行情" s); [|exact Hs].
    vm_compute. constructor.
Defined.

(** ** Every run ends with one final signal *)

Create HintDb tacit.

Ltac tacit_step :=
  lazymatch goal with
  | |- tacit _ (w_bind _ _) => apply tacit_bind; [|intros ?]
  | |- tacit _ (try_except _ _) => apply tacit_try; [|intros ?]
  | |- tacit _ (w_ret _) => apply tacit_ret
  | |- tacit _ (call _) => apply tacit_call
  | |- tacit _ (emit _) => apply tacit_emit; reflexivity
  | |- tacit _ (for_each _ _) => apply tacit_for_each; intros ?
  | |- tacit _ (match ?x with _ => _ end) => destruct x
  | |- _ => solve [auto with tacit]
  end.

Ltac tacit_tac := repeat tacit_step.

Section MainlineTacit.
Context (w : world) (self : MainlineScanWorker).

Abbreviation silent := (tacit (@is_finished (list stock))).

Lemma _init_jqdata_tacit : silent (_init_jqdata w).
Proof. unfold _init_jqdata. tacit_tac. Qed.

Lemma _load_mapped_mainlines_tacit : silent (_load_mapped_mainlines w).
Proof. unfold _load_mapped_mainlines, _init_mongodb. tacit_tac. Qed.

Lemma _load_mainline_from_file_tacit : silent (_load_mainline_from_file w).
Proof. unfold _load_mainline_from_file. tacit_tac. Qed.

Lemma _map_mainlines_to_jqdata_tacit l : silent (_map_mainlines_to_jqdata w l).
Proof. unfold _map_mainlines_to_jqdata, map_one. tacit_tac. Qed.

Lemma _get_stocks_from_jqdata_tacit c t : silent (_get_stocks_from_jqdata w c t).
Proof. unfold _get_stocks_from_jqdata. tacit_tac. Qed.

Lemma fill_quotes_tacit rows result : silent (fill_quotes rows result).
Proof.
  revert result. induction rows as [|row rows IH]; intros result; simpl.
  - apply tacit_ret.
  - unfold quote_of_row. tacit_tac.
Qed.
#[local] Hint Resolve fill_quotes_tacit : tacit.

Lemma _get_akshare_realtime_data_tacit : silent (_get_akshare_realtime_data w).
Proof. unfold _get_akshare_realtime_data. tacit_tac. Qed.
#[local] Hint Resolve _get_akshare_realtime_data_tacit : tacit.

Lemma display_name_tacit c d : silent (display_name w c d).
Proof. unfold display_name. tacit_tac. Qed.
#[local] Hint Resolve display_name_tacit : tacit.

Lemma _get_stock_price_jqdata_tacit c : silent (_get_stock_price_jqdata w c).
Proof. unfold _get_stock_price_jqdata. tacit_tac. Qed.
#[local] Hint Resolve _get_stock_price_jqdata_tacit : tacit.

Lemma filter_one_tacit rt score sector c : silent (filter_one w self rt score sector c).
Proof. unfold filter_one. tacit_tac. Qed.
#[local] Hint Resolve filter_one_tacit : tacit.

Lemma _filter_strong_stocks_jqdata_tacit stocks score sector :
  silent (_filter_strong_stocks_jqdata w self stocks score sector).
Proof. unfold _filter_strong_stocks_jqdata. tacit_tac. Qed.
#[local] Hint Resolve _filter_strong_stocks_jqdata_tacit _get_stocks_from_jqdata_tacit
  : tacit.

Lemma scan_mainline_tacit i total m : silent (scan_mainline w self i total m).
Proof. unfold scan_mainline. tacit_tac. Qed.

Lemma scan_loop_tacit i total l : silent (scan_loop w self i total l).
Proof.
  revert i. induction l as [|m l IH]; intros i; simpl; [apply tacit_ret|].
  destruct (stop_flag w i); [apply tacit_ret|].
  apply tacit_bind; [apply scan_mainline_tacit|]. intros ys.
  apply tacit_bind; [apply IH|]. intros zs. apply tacit_ret.
Qed.
End MainlineTacit.

Ltac ends_step :=
  lazymatch goal with
  | |- ends_or_raises _ (w_bind (emit _) _) =>
      apply ends_bind; [apply tacit_emit; reflexivity | intros _]
  | |- ends_or_raises _ (emit _) => apply ends_emit; reflexivity
  | |- ends_once _ (w_bind (emit _) _) =>
      apply ends_once_bind;
        [apply tacit_emit; reflexivity | apply returns_emit | intros _]
  | |- ends_once _ (emit _) => apply ends_once_emit; reflexivity
  end.

Lemma MainlineScanWorker_run_ends w self :
  ends_once is_finished (MainlineScanWorker_run w self).
Proof.
  unfold MainlineScanWorker_run. apply ends_try; [|intros x; repeat ends_step].
  ends_step.
  apply ends_bind; [apply _init_jqdata_tacit|]. intros [|]; cbn [negb]; [|repeat ends_step].
  ends_step.
  apply ends_bind; [apply _load_mapped_mainlines_tacit|]. intros mapped.
  apply ends_bind.
  { destruct mapped; [|apply tacit_ret].
    apply tacit_bind; [apply tacit_emit; reflexivity|]. intros _.
    apply tacit_bind; [apply _load_mainline_from_file_tacit|]. intros [|m ms].
    - apply tacit_ret.
    - apply tacit_bind; [apply tacit_emit; reflexivity|]. intros _.
      apply _map_mainlines_to_jqdata_tacit. }
  intros [|m ms]; [repeat ends_step|].
  ends_step.
  destruct (List.filter _ _) as [|j js]; [repeat ends_step|].
  apply ends_bind; [apply scan_loop_tacit|]. intros all_stocks.
  repeat ends_step.
Qed.

Lemma TechScanWorker_run_ends w period :
  ends_once is_finished (TechScanWorker_run w period).
Proof.
  unfold TechScanWorker_run. apply ends_try; [|intros x; repeat ends_step].
  ends_step.
  apply ends_bind.
  { apply tacit_try; [|intros ?; tacit_tac].
    apply tacit_bind; [tacit_tac|]. intros [[|r rows]|]; tacit_tac. }
  intros [[|r rows]|]; [repeat ends_step| |repeat ends_step].
  ends_step.
  apply ends_bind.
  { apply tacit_for_each. intros row. unfold tacit.
    rewrite tech_row_trace. constructor. }
  intros stocks. repeat ends_step.
Qed.

Lemma ETFScanWorker_run_ends w : ends_once is_finished (ETFScanWorker_run w).
Proof.
  unfold ETFScanWorker_run. apply ends_try; [|intros x; repeat ends_step].
  ends_step.
  apply ends_bind; [tacit_tac|]. intros [[|r rows]|]; [repeat ends_step| |repeat ends_step].
  ends_step.
  apply ends_bind; [tacit_tac|]. intros df_sorted.
  apply ends_bind.
  { apply tacit_for_each. intros row. unfold etf_of_row. tacit_tac. }
  intros etfs. repeat ends_step.
Qed.

Lemma ExternalParseWorker_run_ends w :
  ends_once is_finished (ExternalParseWorker_run w).
Proof.
  unfold ExternalParseWorker_run.
  destruct (parse_all w) as [[[|s rest]|]|x]; cbn.
  - by exists [Progress 30; Progress 100], (Finished get_mock_external_stocks "示例数据");
      repeat constructor.
  - by exists [Progress 30; Progress 100],
        (Finished (external_stock <$> s :: rest) "外部数据文件");
      repeat constructor.
  - by exists [Progress 30; Progress 100], (Finished get_mock_external_stocks "示例数据");
      repeat constructor.
  - by exists [Progress 30; Log LDebug; Progress 100],
        (Finished get_mock_external_stocks "示例数据");
      repeat constructor.
Qed.

Lemma fetch_all_tacit fw date codes m : tacit ff_final (fetch_all fw date codes m).
Proof.
  revert m. induction codes as [|c codes IH]; intros m; simpl; [apply tacit_ret|].
  apply tacit_bind; [|intros ?; apply IH].
  unfold fetch_constituents. tacit_tac.
Qed.





(** ** The overview scan runs its workers one after the other *)

Lemma step_history w p p' :
  step w p p' →
  ∃ k next,
    k ∈ running p ∧
    history p' = history p ++ Handled k :: next ∧
    running p' = List.filter (fun k' => negb (bool_decide (k' = k))) (running p)
                   ++ pending (Handled k :: next) ∧
    (k, next) ∈ [(KMainline, [Started KTech]); (KTech, [Started KETF]);
                 (KETF, [Started KExternal]); (KExternal, [])].
Proof.
  destruct 1.
  - exists KMainline, [Started KTech]. split_and!; [done| | |by repeat constructor].
    + simpl. by rewrite <- app_assoc.
    + done.
  - exists KTech, [Started KETF]. split_and!; [done| | |by repeat constructor].
    + simpl. by rewrite <- app_assoc.
    + done.
  - exists KETF, [Started KExternal]. split_and!; [done| | |by repeat constructor].
    + simpl. by rewrite <- app_assoc.
    + done.
  - exists KExternal, []. split_and!; [done| | |by repeat constructor].
    + done.
    + simpl. by rewrite app_nil_r.
Qed.

Lemma overview_scan_invariant w p0 p :
  running p0 = [] → rtc (step w) (_do_scan_all p0) p →
  ∃ n, (n = 1 ∨ n = 3 ∨ n = 5 ∨ n = 7 ∨ n = 8)%nat ∧
       history p = history p0 ++ take n overview_schedule ∧
       running p = pending (take n overview_schedule).
Proof.
  intros H0. revert p.
  apply (rtc_ind_r (fun p => ∃ n, (n = 1 ∨ n = 3 ∨ n = 5 ∨ n = 7 ∨ n = 8)%nat ∧
       history p = history p0 ++ take n overview_schedule ∧
       running p = pending (take n overview_schedule)));
    [|intros p p' Hrtc Hstep IH].
  - exists 1%nat. split_and!; [tauto|done|]. simpl. by rewrite H0.
  - destruct IH as (n & Hn & Hh & Hr).
    destruct (step_history w p p' Hstep) as (k & next & Hk & Hh' & Hr' & Hkn).
    rewrite Hr in Hk, Hr'. rewrite Hh in Hh'.
    repeat (apply elem_of_cons in Hkn as [Hkn|Hkn]; [injection Hkn as -> ->|]);
      [| | | |by apply elem_of_nil in Hkn].
    + destruct Hn as [->|[->|[->|[->| ->]]]]; cbn in Hk;
        try (by apply elem_of_nil in Hk);
        try (apply list_elem_of_singleton in Hk; discriminate).
      exists 3%nat. split_and!; [tauto| |by rewrite Hr'].
      rewrite Hh'. by rewrite <- app_assoc.
    + destruct Hn as [->|[->|[->|[->| ->]]]]; cbn in Hk;
        try (by apply elem_of_nil in Hk);
        try (apply list_elem_of_singleton in Hk; discriminate).
      exists 5%nat. split_and!; [tauto| |by rewrite Hr'].
      rewrite Hh'. by rewrite <- app_assoc.
    + destruct Hn as [->|[->|[->|[->| ->]]]]; cbn in Hk;
        try (by apply elem_of_nil in Hk);
        try (apply list_elem_of_singleton in Hk; discriminate).
      exists 7%nat. split_and!; [tauto| |by rewrite Hr'].
      rewrite Hh'. by rewrite <- app_assoc.
    + destruct Hn as [->|[->|[->|[->| ->]]]]; cbn in Hk;
        try (by apply elem_of_nil in Hk);
        try (apply list_elem_of_singleton in Hk; discriminate).
      exists 8%nat. split_and!; [tauto| |by rewrite Hr'].
      rewrite Hh'. by rewrite <- app_assoc.
Qed.

Lemma overview_scan_completes w p0 :
  running p0 = [] →
  ∃ p, rtc (step w) (_do_scan_all p0) p ∧
       history p = history p0 ++ overview_schedule ∧ running p = [] ∧
       scan_all_btn_enabled p = true.
Proof.
  intros H0.
  destruct (ends_once_data _ (MainlineScanWorker_run_ends w default_mainline_worker))
    as (d1 & s1 & E1 & _).
  destruct (ends_once_data _ (TechScanWorker_run_ends w "short")) as (d2 & s2 & E2 & _).
  destruct (ends_once_data _ (ETFScanWorker_run_ends w)) as (d3 & s3 & E3 & _).
  destruct (ends_once_data _ (ExternalParseWorker_run_ends w)) as (d4 & s4 & E4 & _).
  exists (overview_scan p0 d1 s1 d2 s2 d3 s3 d4 s4). split_and!.
  - unfold overview_scan.
    eapply rtc_l.
    { apply (step_mainline w _ d1 s1); [|rewrite E1; by left].
      simpl. rewrite H0. by left. }
    eapply rtc_l.
    { apply (step_tech w _ d2 s2); [|rewrite E2; by left].
      simpl. rewrite H0. by left. }
    eapply rtc_l.
    { apply (step_etf w _ d3 s3); [|rewrite E3; by left].
      simpl. rewrite H0. by left. }
    eapply rtc_l; [|apply rtc_refl].
    apply (step_external w _ d4 s4); [|rewrite E4; by left].
    simpl. rewrite H0. by left.
  - simpl. by rewrite <- !app_assoc.
  - simpl. by rewrite H0.
  - done.
Qed.

(** C6.  In a full overview scan started on a panel with no worker
    running, the UI thread's actions are, in this order: start the mainline
    scan, handle its [finished], start the technical scan, handle its
    [finished], start the ETF scan, handle its [finished], start the
    external parse, handle its [finished].  At every moment the history is
    such a prefix ending on a start (or the whole schedule), the only worker
    running is the one started last, and the scan can always be brought to
    its end. *)
Theorem overview_scan_sequential :
  (∀ w p0 p,
     running p0 = [] → rtc (step w) (_do_scan_all p0) p →
     ∃ n, (n = 1 ∨ n = 3 ∨ n = 5 ∨ n = 7 ∨ n = 8)%nat ∧
          history p = history p0 ++ take n overview_schedule ∧
          running p = pending (take n overview_schedule) ∧
          (length (running p) ≤ 1)%nat) ∧
  (∀ w p0,
     running p0 = [] →
     ∃ p, rtc (step w) (_do_scan_all p0) p ∧
          history p = history p0 ++ overview_schedule ∧ running p = [] ∧
          scan_all_btn_enabled p = true).
Proof.
  split.
  - intros w p0 p H0 Hsteps.
    destruct (overview_scan_invariant w p0 p H0 Hsteps) as (n & Hn & Hh & Hr).
    exists n. split_and!; [done..|].
    rewrite Hr. destruct Hn as [->|[->|[->|[->| ->]]]]; simpl; lia.
  - apply overview_scan_completes.
Qed.

Lemma overview_scan_sequential_witness :
  (∃ n, (n = 1 ∨ n = 3 ∨ n = 5 ∨ n = 7 ∨ n = 8)%nat ∧
        history (_do_scan_all panel_init) =
          history panel_init ++ take n overview_schedule ∧
        running (_do_scan_all panel_init) = pending (take n overview_schedule) ∧
        (length (running (_do_scan_all panel_init)) ≤ 1)%nat) ∧
  (∃ p, rtc (step leader_world) (_do_scan_all panel_init) p ∧
        history p = history panel_init ++ overview_schedule ∧ running p = [] ∧
        scan_all_btn_enabled p = true).
Proof.
  split.
  - apply (proj1 overview_scan_sequential leader_world panel_init);
      [reflexivity | apply rtc_refl].
  - apply (proj2 overview_scan_sequential leader_world panel_init). reflexivity.
Defined.

(** ** The generated strategy script *)

Lemma list_to_set_empty_iff (l : list string) :
  (list_to_set l : gset string) = ∅ ↔ l = [].
Proof.
  split; [|by intros ->].
  destruct l as [|c l]; [done|]. intros H. exfalso.
  apply (not_elem_of_empty (C:=gset string) c). rewrite <- H.
  apply elem_of_list_to_set. by left.
Qed.

(** C7, as amended.  When some code is present in the mainline, technical
    or external table, the script produced from the fixed template is shown
    in the preview and written to the file pool_strategy_<day>.py, named
    after the day of generation, in a fixed directory under the home
    directory; it embeds a list of at most 20 distinct codes, all taken
    from the tables, and all of them when fewer than 20 are listed.  When no
    code is present nothing is written. *)
Theorem strategy_script_generated (h : host) (p : StockPoolPanel) :
  (table_codes p ≠ [] →
   ∃ code_list,
     _generate_code h p =
       mkGenerated (Some (strategy_template (stamp h) code_list))
                   (Some (strategy_dir h +:+ "/pool_strategy_" +:+ day h +:+ ".py",
                          strategy_template (stamp h) code_list)) ∧
     NoDup code_list ∧
     (0 < length code_list ≤ 20)%nat ∧
     (∀ c, c ∈ code_list → c ∈ table_codes p) ∧
     ((length code_list < 20)%nat → ∀ c, c ∈ table_codes p → c ∈ code_list)) ∧
  (table_codes p = [] → _generate_code h p = mkGenerated None None).
Proof.
  unfold _generate_code. split.
  - intros Hne.
    rewrite bool_decide_eq_false_2 by (by rewrite list_to_set_empty_iff).
    set (codes := list_to_set (table_codes p) : gset string).
    exists (take 20 (elements codes)). split_and!.
    + done.
    + eapply sublist_NoDup; [apply (NoDup_elements codes) | apply sublist_take].
    + destruct (elements codes) as [|c cs] eqn:E; [|simpl; lia].
      apply elements_empty_inv in E. apply leibniz_equiv in E.
      by apply list_to_set_empty_iff in E.
    + rewrite length_take. lia.
    + intros c Hc. apply (subseteq_take 20) in Hc.
      apply elem_of_elements in Hc. by apply elem_of_list_to_set in Hc.
    + intros Hlen c Hc. rewrite length_take in Hlen.
      rewrite take_ge by lia.
      apply elem_of_elements. by apply elem_of_list_to_set.
  - intros ->. done.
Qed.

Lemma strategy_script_generated_witness :
  (∃ code_list,
     _generate_code (host_on "20250102") scanned_panel =
       mkGenerated (Some (strategy_template "2025-01-02 09:30:00" code_list))
                   (Some ("/home/trader/.local/share/trquant/strategies/ptrade"
                            +:+ "/pool_strategy_" +:+ "20250102" +:+ ".py",
                          strategy_template "2025-01-02 09:30:00" code_list)) ∧
     NoDup code_list ∧
     (0 < length code_list ≤ 20)%nat ∧
     (∀ c, c ∈ code_list → c ∈ table_codes scanned_panel) ∧
     ((length code_list < 20)%nat →
      ∀ c, c ∈ table_codes scanned_panel → c ∈ code_list)) ∧
  _generate_code (host_on "20250102") panel_init = mkGenerated None None.
Proof.
  split.
  - apply (proj1 (strategy_script_generated (host_on "20250102") scanned_panel)).
    discriminate.
  - apply (proj2 (strategy_script_generated (host_on "20250102") panel_init)).
    reflexivity.
Defined.

(** C7 as stated fails: the path is not fixed, the same panel on the same
    host is written to a different file on the next day. *)
Lemma strategy_path_not_fixed :
  ¬ ∃ path, ∀ h p, table_codes p ≠ [] →
            ∃ content, written (_generate_code h p) = Some (path, content).
Proof.
  intros [path H].
  destruct (H (host_on "20250102") scanned_panel) as [c1 H1]; [discriminate|].
  destruct (H (host_on "20250103") scanned_panel) as [c2 H2]; [discriminate|].
  vm_compute in H1, H2. congruence.
Qed.

(** ** The mainline scan *)

Lemma tacit_post {A B} (P : A → Prop) (m : W (event A) B) :
  tacit is_finished m → post P (fun _ => True) m.
Proof.
  intros H. split; [|done]. intros d src Hd.
  rewrite (finished_data_tacit _ H) in Hd. by apply elem_of_nil in Hd.
Qed.

Lemma qlt_iff a b : qlt a b = true ↔ (a < b)%Q.
Proof.
  unfold qlt. rewrite negb_true_iff. split.
  - intros H. apply Qnot_le_lt. intros Hle. apply Qle_bool_iff in Hle. congruence.
  - intros H. destruct (Qle_bool b a) eqn:E; [|done].
    apply Qle_bool_iff in E. by apply Qlt_not_le in H.
Qed.

Section MainlineFacts.
Context (w : world) (self : MainlineScanWorker).
Context (P : list stock → Prop).

Lemma filter_one_post rt score sector c :
  post P (Forall (passed score)) (filter_one w self rt score sector c).
Proof.
  unfold filter_one.
  eapply post_bind; [apply tacit_post, display_name_tacit|]. intros nm _.
  eapply post_bind with (Q := fun _ => True).
  { apply tacit_post. destruct (rt ≫= _); [apply tacit_ret|].
    apply tacit_bind; [apply _get_stock_price_jqdata_tacit|].
    intros [[? ?]|]; apply tacit_ret. }
  intros [nm' change] _.
  destruct (qlt (-5) change || qle 70 score) eqn:E; apply post_ret; [|constructor].
  constructor; [|constructor]. unfold passed. simpl. split_and!; [done..|].
  apply orb_true_iff in E as [E|E]; [left; by apply qlt_iff | right; by apply qle_iff].
Qed.

Lemma _filter_strong_stocks_jqdata_post stocks score sector :
  post P (Forall (passed score)) (_filter_strong_stocks_jqdata w self stocks score sector).
Proof.
  unfold _filter_strong_stocks_jqdata.
  eapply post_bind; [apply tacit_post, _get_akshare_realtime_data_tacit|].
  intros rt _.
  eapply post_bind.
  { apply post_for_each. intros c _. apply filter_one_post. }
  intros result Hres. apply post_ret.
  assert (Hperm : py_sort (change_gt) result ≡ₚ result).
  { clear. induction result as [|a l IH]; [done|]. simpl.
    assert (Hins : ∀ x k, py_insert change_gt x k ≡ₚ x :: k).
    { clear. intros x k. induction k as [|y k IH]; [done|].
      simpl. destruct (change_gt y x); [|done]. rewrite IH. apply Permutation_swap. }
    by rewrite Hins, IH. }
  by rewrite Hperm.
Qed.

Lemma scan_mainline_post i total m :
  post P (Forall (fun s => priority s = 1 ∨ strong_constituent s))
       (scan_mainline w self i total m).
Proof.
  unfold scan_mainline.
  eapply post_bind; [by apply (post_progress _ (fun _ => True))|]. intros _ _.
  assert (Hleader : Forall (fun s => priority s = 1 ∨ strong_constituent s)
            (if bool_decide (ml_leader_stock m ≠ "")
             then [_create_leader_stock self (ml_leader_stock m) (ml_name m)
                     (ml_total_score m) (ml_leader_change m)]
             else [])).
  { case_bool_decide; repeat constructor. }
  destruct (bool_decide (ml_jqdata_code m ≠ "")); cbn [andb]; [|by apply post_ret].
  destruct (qle 60 (ml_total_score m)) eqn:E60; [|by apply post_ret].
  apply qle_iff in E60.
  eapply post_bind; [apply tacit_post, _get_stocks_from_jqdata_tacit|].
  intros [|c cs] _; [by apply post_ret|].
  eapply post_bind; [by apply (post_log _ (fun _ => True))|]. intros _ _.
  eapply post_bind; [apply _filter_strong_stocks_jqdata_post|].
  intros strong Hstrong. apply post_ret.
  apply Forall_app. split; [done|].
  rewrite Forall_forall in Hstrong |- *. intros s Hs.
  apply (subseteq_take (max_stocks_per_mainline self)) in Hs.
  apply list_elem_of_filter in Hs as [_ Hs].
  destruct (Hstrong s Hs) as (_ & Hsc & Hch).
  right. unfold strong_constituent. rewrite Hsc. done.
Qed.

Lemma scan_loop_post i total l :
  post P (Forall (fun s => priority s = 1 ∨ strong_constituent s))
       (scan_loop w self i total l).
Proof.
  revert i. induction l as [|m l IH]; intros i; simpl; [by apply post_ret|].
  destruct (stop_flag w i); [by apply post_ret|].
  eapply post_bind; [apply scan_mainline_post|]. intros ys Hys.
  eapply post_bind; [apply IH|]. intros zs Hzs.
  apply post_ret. by apply Forall_app.
Qed.
End MainlineFacts.

Lemma mock_mainline_ok : scan_output_ok get_mock_mainline_stocks.
Proof. repeat constructor; try discriminate. Qed.

Lemma MainlineScanWorker_run_post w self :
  post scan_output_ok (fun _ => True) (MainlineScanWorker_run w self).
Proof.
  unfold MainlineScanWorker_run. apply post_try.
  2:{ intros x.
      eapply post_bind; [by apply (post_log _ (fun _ => True))|]. intros _ _.
      eapply post_bind; [by apply (post_progress _ (fun _ => True))|]. intros _ _.
      apply post_finished; [apply mock_mainline_ok | done]. }
  eapply post_bind; [by apply (post_progress _ (fun _ => True))|]. intros _ _.
  eapply post_bind; [apply tacit_post, _init_jqdata_tacit|]. intros [|] _; cbn [negb].
  2:{ eapply post_bind; [by apply (post_progress _ (fun _ => True))|]. intros _ _.
      apply post_finished; [apply mock_mainline_ok | done]. }
  eapply post_bind; [by apply (post_progress _ (fun _ => True))|]. intros _ _.
  eapply post_bind; [apply tacit_post, _load_mapped_mainlines_tacit|]. intros mapped _.
  eapply post_bind with (Q := fun _ => True).
  { apply tacit_post. destruct mapped; [|apply tacit_ret].
    apply tacit_bind; [apply tacit_emit; reflexivity|]. intros _.
    apply tacit_bind; [apply _load_mainline_from_file_tacit|]. intros [|m ms].
    - apply tacit_ret.
    - apply tacit_bind; [apply tacit_emit; reflexivity|]. intros _.
      apply _map_mainlines_to_jqdata_tacit. }
  intros [|m ms] _.
  { eapply post_bind; [by apply (post_progress _ (fun _ => True))|]. intros _ _.
    apply post_finished; [apply mock_mainline_ok | done]. }
  eapply post_bind; [by apply (post_progress _ (fun _ => True))|]. intros _ _.
  destruct (List.filter _ _) as [|j js].
  { eapply post_bind; [by apply (post_progress _ (fun _ => True))|]. intros _ _.
    apply post_finished; [apply mock_mainline_ok | done]. }
  eapply post_bind; [apply scan_loop_post|]. intros all_stocks Hall.
  eapply post_bind; [by apply (post_progress _ (fun _ => True))|]. intros _ _.
  eapply post_bind; [by apply (post_progress _ (fun _ => True))|]. intros _ _.
  apply post_finished; [|done].
  apply Forall_forall. intros s Hs.
  apply (ranked_elem key3_cmp) in Hs. split.
  - by eapply dedup_code_has_code.
  - rewrite Forall_forall in Hall. apply Hall.
    by apply (sublist_subseteq _ _ (dedup_sublist code ∅ all_stocks)).
Qed.

(** The part of C2 that the code keeps: a record of the scan's output that
    is not of first priority is a constituent of a theme that scored at
    least 60, and its change is above -5 or the theme scored at least 70.
    And what it breaks: no record made by [_create_leader_stock] is ever in
    the output, because its code is empty. *)
Lemma constituents_are_strong w self data src s :
  (data, src) ∈ finished_data (MainlineScanWorker_run w self).1 → s ∈ data →
  priority s ≠ 1 → strong_constituent s.
Proof.
  intros Hd Hs Hp. destruct (MainlineScanWorker_run_post w self) as [H _].
  specialize (H data src Hd). unfold scan_output_ok in H.
  rewrite Forall_forall in H. destruct (H s Hs) as [_ [?|?]]; done.
Qed.

Lemma leader_never_emitted w self data src leader theme score change :
  (data, src) ∈ finished_data (MainlineScanWorker_run w self).1 →
  _create_leader_stock self leader theme score change ∉ data.
Proof.
  intros Hd Hin. destruct (MainlineScanWorker_run_post w self) as [H _].
  specialize (H data src Hd). unfold scan_output_ok in H.
  rewrite Forall_forall in H. by destruct (H _ Hin) as [Hcode _].
Qed.

(** C2 at a failing input.  One theme, "人工智能", scored 88, with the
    leader "科大讯飞" and two constituents: the scan emits the two
    constituents and not the leader. *)
Theorem leader_dropped_from_scan :
  ∃ data,
    finished_data (MainlineScanWorker_run leader_world default_mainline_worker).1
      = [(data, "MongoDB主线 + JQData成分股")] ∧
    code <$> data = ["002230"; "300750"] ∧
    Forall (fun s => priority s = 2) data ∧
    (∀ s, s ∈ data → name s ≠ ml_leader_stock theme_ai) ∧
    _create_leader_stock default_mainline_worker "科大讯飞" "人工智能" 88 5.2 ∉ data.
Proof.
  eexists. split; [vm_compute; reflexivity|].
  split_and!.
  - reflexivity.
  - repeat constructor.
  - intros s Hs.
    repeat (apply elem_of_cons in Hs as [->|Hs]; [discriminate|]).
    by apply elem_of_nil in Hs.
  - intros Hs.
    repeat (apply elem_of_cons in Hs as [Hs|Hs]; [discriminate|]).
    by apply elem_of_nil in Hs.
Qed.

(** * Further properties *)

(** ** Constituents from JQData *)

Lemma append_cons a (s t : string) : String a s +:+ t = String a (s +:+ t).
Proof. reflexivity. Qed.

Lemma append_empty_r (s : string) : s +:+ "" = s.
Proof. induction s as [|a s IH]; [done|]. by rewrite append_cons, IH. Qed.

Lemma contains_dot_cons a s :
  contains "." (String a s) = false → a ≠ "."%char ∧ contains "." s = false.
Proof.
  cbn [contains String.prefix]. destruct (ascii_dec "." a) as [<-|Hne].
  - destruct s; discriminate.
  - simpl. intros H. split; [congruence | done].
Qed.

(** Removing a text that starts with a dot leaves a dot-free prefix alone. *)
Lemma remove_from_no_dot old c tail :
  contains "." c = false →
  remove_from (String "." old) 0 (c +:+ tail) =
  c +:+ remove_from (String "." old) 0 tail.
Proof.
  induction c as [|a c IH]; intros H; [done|].
  apply contains_dot_cons in H as [Ha Hc].
  rewrite !append_cons. cbn [remove_from String.prefix].
  destruct (ascii_dec "." a) as [e|_]; [by destruct Ha|].
  by rewrite IH.
Qed.

(** X1.  [_get_stocks_from_jqdata] never raises and returns at most 50
    constituents, each keeping the JQData id and carrying as code that id
    with the exchange suffixes removed; a type that is neither "concept"
    nor "industry" gives the empty list without any call or log line. *)
Theorem constituents_capped (w : world) (jqdata_code jqdata_type : string) :
  ∃ tr cs,
    _get_stocks_from_jqdata w jqdata_code jqdata_type = (tr, Returned cs) ∧
    (length cs ≤ 50)%nat ∧
    Forall (fun x => c_code x =
                     str_remove ".XSHG" (str_remove ".XSHE" (c_jqdata_code x))) cs ∧
    (jqdata_type ≠ "concept" → jqdata_type ≠ "industry" → tr = [] ∧ cs = []).
Proof.
  unfold _get_stocks_from_jqdata.
  assert (Hcap : ∀ stocks, (length (to_constituent <$> take 50 stocks) ≤ 50)%nat).
  { intros stocks. rewrite length_fmap, length_take. lia. }
  assert (Hcode : ∀ stocks,
    Forall (fun x => c_code x =
                     str_remove ".XSHG" (str_remove ".XSHE" (c_jqdata_code x)))
           (to_constituent <$> take 50 stocks)).
  { intros stocks. apply Forall_fmap, Forall_forall. by intros. }
  destruct (decide (jqdata_type = "concept")) as [Hc|Hc].
  - rewrite (bool_decide_eq_true_2 _ Hc).
    destruct (get_concept_stocks w jqdata_code) as [stocks|x]; cbn.
    + eexists _, _. split_and!; [done | apply Hcap | apply Hcode | done].
    + eexists _, _. split_and!; [done | simpl; lia | constructor | done].
  - rewrite (bool_decide_eq_false_2 _ Hc).
    destruct (decide (jqdata_type = "industry")) as [Hi|Hi].
    + rewrite (bool_decide_eq_true_2 _ Hi).
      destruct (get_industry_stocks w jqdata_code) as [stocks|x]; cbn.
      * eexists _, _. split_and!; [done | apply Hcap | apply Hcode | done].
      * eexists _, _. split_and!; [done | simpl; lia | constructor | done].
    + rewrite (bool_decide_eq_false_2 _ Hi). cbn.
      eexists _, _. split_and!; [done | simpl; lia | constructor | done].
Qed.

Lemma constituents_capped_witness :
  ∃ tr cs,
    _get_stocks_from_jqdata leader_world "SC0001" "region" = (tr, Returned cs) ∧
    (length cs ≤ 50)%nat ∧
    Forall (fun x => c_code x =
                     str_remove ".XSHG" (str_remove ".XSHE" (c_jqdata_code x))) cs ∧
    tr = [] ∧ cs = [].
Proof.
  destruct (constituents_capped leader_world "SC0001" "region")
    as (tr & cs & H1 & H2 & H3 & H4).
  exists tr, cs. split_and!; [done..| |]; by apply H4.
Defined.

(** X2.  For an instrument id made of a dot-free number and the suffix of
    either exchange, the constituent's code is the number and its JQData id
    is the id as given. *)
Theorem to_constituent_strips_suffix (number : string) :
  contains "." number = false →
  to_constituent (number +:+ ".XSHE") = mkConstituent number (number +:+ ".XSHE") ∧
  to_constituent (number +:+ ".XSHG") = mkConstituent number (number +:+ ".XSHG").
Proof.
  intros H. unfold to_constituent, str_remove. split; f_equal.
  - rewrite (remove_from_no_dot "XSHE" number ".XSHE" H).
    change (remove_from ".XSHE" 0 ".XSHE") with "".
    rewrite append_empty_r.
    rewrite <- (append_empty_r number) at 1.
    rewrite (remove_from_no_dot "XSHG" number "" H). apply append_empty_r.
  - rewrite (remove_from_no_dot "XSHE" number ".XSHG" H).
    change (remove_from ".XSHE" 0 ".XSHG") with ".XSHG".
    rewrite (remove_from_no_dot "XSHG" number ".XSHG" H).
    change (remove_from ".XSHG" 0 ".XSHG") with "".
    apply append_empty_r.
Qed.

Lemma to_constituent_strips_suffix_witness :
  to_constituent ("002230" +:+ ".XSHE") = mkConstituent "002230" ("002230" +:+ ".XSHE") ∧
  to_constituent ("600519" +:+ ".XSHG") = mkConstituent "600519" ("600519" +:+ ".XSHG").
Proof.
  split.
  - apply (proj1 (to_constituent_strips_suffix "002230" eq_refl)).
  - apply (proj2 (to_constituent_strips_suffix "600519" eq_refl)).
Defined.

(** ** The strength filter *)

Create HintDb returns.

Ltac returns_step :=
  lazymatch goal with
  | |- returns (w_bind _ _) => apply returns_bind; [|intros ?]
  | |- returns (try_except _ _) => apply returns_try; intros ?
  | |- returns (w_ret _) => apply returns_ret
  | |- returns (emit _) => apply returns_emit
  | |- returns (for_each _ _) => apply returns_for_each; intros ?
  | |- returns (match ?x with _ => _ end) => destruct x
  | |- _ => solve [auto with returns]
  end.

Ltac returns_tac := repeat returns_step.

Lemma display_name_returns w c d : returns (display_name w c d).
Proof. unfold display_name. returns_tac. Qed.
#[local] Hint Resolve display_name_returns : returns.

Lemma _get_stock_price_jqdata_returns w c : returns (_get_stock_price_jqdata w c).
Proof. unfold _get_stock_price_jqdata. returns_tac. Qed.
#[local] Hint Resolve _get_stock_price_jqdata_returns : returns.

Lemma _get_akshare_realtime_data_returns w : returns (_get_akshare_realtime_data w).
Proof. unfold _get_akshare_realtime_data. returns_tac. Qed.
#[local] Hint Resolve _get_akshare_realtime_data_returns : returns.

Lemma _get_stocks_from_jqdata_returns w c t : returns (_get_stocks_from_jqdata w c t).
Proof. unfold _get_stocks_from_jqdata. returns_tac. Qed.
#[local] Hint Resolve _get_stocks_from_jqdata_returns : returns.

Lemma for_each_shape {E B C} (body : B → W E (list C)) (R : B → list C → Prop) xs :
  (∀ x, ∃ t l, body x = (t, Returned l) ∧ R x l) →
  ∃ t ls, for_each body xs = (t, Returned (concat ls)) ∧ Forall2 R xs ls.
Proof.
  intros H. induction xs as [|x xs IH].
  - exists [], []. by split.
  - destruct (H x) as (t & l & Hx & HR). destruct IH as (t' & ls & Hxs & HF).
    exists (t ++ t' ++ []), (l :: ls). split; [|by constructor].
    simpl. rewrite Hx, Hxs. reflexivity.
Qed.



Lemma concat_Forall {B C} (R : B → list C → Prop) (P : C → Prop) xs ls :
  Forall2 R xs ls → (∀ x l, R x l → Forall P l) → Forall P (concat ls).
Proof.
  intros HF H. induction HF as [|x l xs ls HR _ IH]; [constructor|].
  simpl. apply Forall_app. eauto.
Qed.

Lemma filter_one_shape w self rt score sector c :
  ∃ tr l, filter_one w self rt score sector c = (tr, Returned l) ∧
          kept_or_dropped self score sector c l.
Proof.
  unfold filter_one, kept_or_dropped.
  destruct (display_name_returns w (c_jqdata_code c) (c_code c)) as (t1 & nm & ->).
  cbn [w_bind].
  destruct (rt ≫= _) as [q|].
  - cbn [w_bind w_ret].
    destruct (qlt (-5) (q_change_pct q) || qle 70 score) eqn:Hc; cbn;
      (eexists _, _; split; [reflexivity|]).
    + split; [right; eauto | done].
    + split; [by left|]. intros H70. by rewrite H70, orb_true_r in Hc.
  - destruct (_get_stock_price_jqdata_returns w (c_jqdata_code c)) as (t2 & pd & ->).
    cbn [w_bind]. destruct pd as [[pn pc]|]; cbn [w_bind w_ret].
    + destruct (qlt (-5) pc || qle 70 score) eqn:Hc; cbn;
        (eexists _, _; split; [reflexivity|]).
      * split; [right; eauto | done].
      * split; [by left|]. intros H70. by rewrite H70, orb_true_r in Hc.
    + destruct (qlt (-5) 0 || qle 70 score) eqn:Hc; cbn;
        (eexists _, _; split; [reflexivity|]).
      * split; [right; eauto | done].
      * split; [by left|]. intros H70. by rewrite H70, orb_true_r in Hc.
Qed.

Lemma CmpOrder_flip {A} (cmp : A → A → comparison) :
  CmpOrder cmp → CmpOrder (fun a b => cmp b a).
Proof.
  intros H. split.
  - intros a b. apply (cmp_sym (cmp:=cmp)).
  - intros a b c Hab Hbc. by apply (cmp_lt_trans (cmp:=cmp) c b a).
  - intros a b c Hab. apply (cmp_eq_cong_r cmp).
    rewrite (cmp_sym (cmp:=cmp)), Hab. done.
Qed.

Lemma change_order : CmpOrder change_cmp.
Proof. apply (CmpOrder_flip (fun a b => Qcompare (change_pct a) (change_pct b))), CmpOrder_Q. Qed.

#[local] Existing Instance change_order.

Lemma qlt_is_Lt x y : qlt x y = is_Lt (Qcompare x y).
Proof.
  unfold qlt. destruct (Qcompare x y) eqn:E; simpl.
  - apply Qeq_alt in E. apply negb_false_iff, Qle_bool_iff. rewrite E. apply Qle_refl.
  - apply Qlt_alt in E. apply negb_true_iff.
    destruct (Qle_bool y x) eqn:B; [|done].
    apply Qle_bool_iff in B. by apply Qlt_not_le in E.
  - apply Qgt_alt in E. apply negb_false_iff, Qle_bool_iff. by apply Qlt_le_weak.
Qed.

Lemma py_sort_ext {A} (lt1 lt2 : A → A → bool) l :
  (∀ a b, lt1 a b = lt2 a b) → py_sort lt1 l = py_sort lt2 l.
Proof.
  intros H. induction l as [|x l IH]; [done|]. simpl. rewrite IH.
  generalize (py_sort lt2 l). intros k.
  induction k as [|y k IHk]; [done|]. simpl. by rewrite H, IHk.
Qed.

Lemma change_sort l :
  py_sort change_gt l = py_sort (fun a b => is_Lt (change_cmp a b)) l.
Proof. apply py_sort_ext. intros a b. apply qlt_is_Lt. Qed.

Lemma _filter_strong_stocks_jqdata_shape w self stocks score sector :
  ∃ tr ls,
    _filter_strong_stocks_jqdata w self stocks score sector =
      (tr, Returned (py_sort change_gt (concat ls))) ∧
    Forall2 (kept_or_dropped self score sector) stocks ls.
Proof.
  unfold _filter_strong_stocks_jqdata.
  destruct (_get_akshare_realtime_data_returns w) as (t1 & rt & ->).
  cbn [w_bind].
  destruct (for_each_shape (filter_one w self rt score sector)
              (kept_or_dropped self score sector) stocks) as (t2 & ls & -> & HF).
  { intros c. apply filter_one_shape. }
  cbn. eauto.
Qed.



(** ** One theme of the mainline scan *)

(** X4.  One iteration of the loop of [MainlineScanWorker.run] never
    raises.  The list it contributes starts with the leader's record when
    the theme names a leader, continues with at most
    [max_stocks_per_mainline] constituents, none of them named like the
    leader, all of priority 2 and carrying the theme's score and name; a
    theme without JQData code, or one that scored under 60, contributes
    its leader only and asks nothing of JQData. *)
Theorem theme_contribution (w : world) (self : MainlineScanWorker)
    (i total : nat) (m : mainline) :
  ∃ tr l rest,
    scan_mainline w self i total m = (tr, Returned l) ∧
    l = leader_part self m ++ rest ∧
    (length rest ≤ max_stocks_per_mainline self)%nat ∧
    Forall (fun s => priority s = 2 ∧ name s ≠ ml_leader_stock m ∧
                     mainline_score s = ml_total_score m ∧
                     sector s = ml_name m) rest ∧
    (ml_jqdata_code m = "" ∨ (ml_total_score m < 60)%Q →
     rest = [] ∧
     tr = [Progress (20 + (65 * (Z.of_nat i + 1)) / Z.of_nat total)]).
Proof.
  unfold scan_mainline. fold (leader_part self m).
  cbn [w_bind emit].
  destruct (decide (ml_jqdata_code m = "")) as [Hc|Hc].
  { rewrite (bool_decide_eq_false_2 (ml_jqdata_code m ≠ "")) by (by intros []).
    cbn. eexists _, _, []. rewrite app_nil_r.
    split_and!; [reflexivity | reflexivity | simpl; lia | constructor | done]. }
  rewrite (bool_decide_eq_true_2 _ Hc). cbn [andb].
  destruct (qle 60 (ml_total_score m)) eqn:E60.
  2:{ cbn. eexists _, _, []. rewrite app_nil_r.
      split_and!; [reflexivity | reflexivity | simpl; lia | constructor | done]. }
  apply qle_iff in E60.
  destruct (_get_stocks_from_jqdata_returns w (ml_jqdata_code m) (ml_jqdata_type m))
    as (t1 & cs & ->).
  cbn [w_bind]. destruct cs as [|c cs].
  { cbn. eexists _, _, []. rewrite (app_nil_r (leader_part self m)).
    split_and!; [reflexivity | reflexivity | simpl; lia | constructor |].
    intros [?|Hlt]; [done|]. by apply Qlt_not_le in Hlt. }
  destruct (_filter_strong_stocks_jqdata_shape w self (c :: cs) (ml_total_score m)
              (ml_name m)) as (t2 & ls & -> & HF).
  cbn. eexists _, _, _. split; [reflexivity|]. split; [reflexivity|]. split_and!.
  - rewrite length_take. lia.
  - apply Forall_forall. intros s Hs.
    apply (subseteq_take (max_stocks_per_mainline self)) in Hs.
    apply list_elem_of_filter in Hs as [Hname Hs].
    rewrite change_sort, (sort_perm change_cmp) in Hs.
    assert (Hall : Forall (fun s => priority s = 2 ∧
                            mainline_score s = ml_total_score m ∧
                            sector s = ml_name m) (concat ls)).
    { eapply concat_Forall; [exact HF|].
      intros c' l [[->|(nm & ch & -> & _)] _]; repeat constructor. }
    rewrite Forall_forall in Hall. destruct (Hall s Hs) as (? & ? & ?). done.
  - intros [?|Hlt]; [done|]. by apply Qlt_not_le in Hlt.
Qed.

Lemma theme_contribution_witness :
  ∃ tr l rest,
    scan_mainline leader_world default_mainline_worker 0 1
      (mkMainline "光伏" true "SC0100" "光伏" "concept" 55 "隆基绿能" 2.9)
      = (tr, Returned l) ∧
    l = leader_part default_mainline_worker
          (mkMainline "光伏" true "SC0100" "光伏" "concept" 55 "隆基绿能" 2.9) ++ rest ∧
    rest = [] ∧ tr = [Progress 85].
Proof.
  destruct (theme_contribution leader_world default_mainline_worker 0 1
              (mkMainline "光伏" true "SC0100" "光伏" "concept" 55 "隆基绿能" 2.9))
    as (tr & l & rest & E & El & _ & _ & H).
  exists tr, l, rest. split; [exact E|]. split; [exact El|].
  apply H. right. reflexivity.
Defined.

(** ** The realtime quotes *)

Lemma quote_of_row_quotable row :
  quotable row →
  ∃ q, quote_of_row row = ([], Returned (r_code row, q)) ∧ quote_of row q.
Proof.
  intros (Hc & Hp & Hv & Ht). unfold quote_of_row.
  destruct (to_float_numeric (r_change row) 0 Hc) as [c Ec].
  destruct (to_float_numeric (r_price row) 0 Hp) as [p Ep].
  destruct (to_float_numeric (r_volume_ratio row) 1 Hv) as [v Ev].
  destruct (to_float_numeric (r_turnover row) 0 Ht) as [t Et].
  rewrite Ec, Ep, Ev, Et. eexists. split; [reflexivity|]. by repeat split.
Qed.

Lemma quote_of_row_bad row :
  ¬ quotable row → ∃ x, quote_of_row row = ([], Raised x).
Proof.
  intros H. unfold quote_of_row, quotable in *.
  destruct (r_change row) eqn:Ec; [| |by eexists];
  (destruct (r_price row) eqn:Ep; [| |by eexists]);
  (destruct (r_volume_ratio row) eqn:Ev; [| |by eexists]);
  (destruct (r_turnover row) eqn:Et; [| |by eexists]);
  destruct H; by repeat split.
Qed.

Lemma fill_quotes_quotable rows (result : gmap string quote) :
  Forall quotable rows →
  ∃ d, fill_quotes rows result = ([], Returned d) ∧
       (∀ c, (c ∈ r_code <$> rows → ∃ row q, d !! c = Some q ∧
                                     last_with_code rows c row ∧ quote_of row q) ∧
             (c ∉ r_code <$> rows → d !! c = result !! c)).
Proof.
  revert result. induction rows as [|row rows IH]; intros result Hq.
  { exists result. split; [done|]. intros c. split; [|done].
    intros Hc. by apply elem_of_nil in Hc. }
  apply Forall_cons in Hq as [Hrow Hq]. cbn [fill_quotes].
  destruct (quote_of_row_quotable row Hrow) as (q & -> & Hrq).
  cbn [w_bind fst snd].
  destruct (IH (<[r_code row := q]> result) Hq) as (d & -> & Hd).
  exists d. split; [done|]. intros c. destruct (Hd c) as [Hin Hout].
  destruct (decide (c ∈ r_code <$> rows)) as [Hc|Hc].
  - split; [intros _|].
    + destruct (Hin Hc) as (row' & q' & Hl & (Hcode & before & after & -> & Haft) & Hq').
      exists row', q'. split; [done|]. split; [|done]. split; [done|].
      by exists (row :: before), after.
    + intros Hn. destruct Hn. rewrite fmap_cons. by apply list_elem_of_further.
  - split.
    + intros Hc'. rewrite fmap_cons in Hc'.
      apply elem_of_cons in Hc' as [->|?]; [|done].
      exists row, q. rewrite (Hout Hc), lookup_insert_eq.
      split; [done|]. split; [|done]. split; [done|].
      exists [], rows. split; [done|]. apply Forall_forall. intros r Hr Heq.
      apply Hc. rewrite <- Heq. by apply list_elem_of_fmap_2.
    + intros Hc'. rewrite (Hout Hc). apply lookup_insert_ne.
      intros <-. apply Hc'. rewrite fmap_cons. apply list_elem_of_here.
Qed.

Lemma fill_quotes_bad rows (result : gmap string quote) :
  Exists (fun row => ¬ quotable row) rows →
  ∃ x, fill_quotes rows result = ([], Raised x).
Proof.
  revert result. induction rows as [|row rows IH]; intros result H.
  { by apply Exists_nil in H. }
  cbn [fill_quotes]. apply Exists_cons in H as [H|H].
  - destruct (quote_of_row_bad row H) as [x ->]. by exists x.
  - destruct (quote_of_row row) as [t [kq|x]] eqn:Ekq.
    + assert (t = []) as ->.
      { unfold quote_of_row in Ekq.
        destruct (to_float (r_change row) 0), (to_float (r_price row) 0),
          (to_float (r_volume_ratio row) 1), (to_float (r_turnover row) 0);
          cbn in Ekq; congruence. }
      cbn [w_bind]. destruct (IH (<[kq.1 := kq.2]> result) H) as [x ->]. by exists x.
    + assert (t = []) as ->.
      { unfold quote_of_row in Ekq.
        destruct (to_float (r_change row) 0), (to_float (r_price row) 0),
          (to_float (r_volume_ratio row) 1), (to_float (r_turnover row) 0);
          cbn in Ekq; congruence. }
      by exists x.
Qed.

(** X5.  When the market table has rows and no cell that is converted makes
    [float()] raise, [_get_akshare_realtime_data] returns a dictionary with
    an entry for exactly the codes of the rows, and the entry of a code
    holds the name and numbers of the last row with that code.  When some
    cell is not a number, the whole table is given up: the result is [None]
    after one warning. *)
Theorem realtime_quotes (w : world) (rows : list spot_row) :
  stock_zh_a_spot_em w = Returned (Some rows) → rows ≠ [] →
  (Forall quotable rows →
   ∃ d, _get_akshare_realtime_data w = ([Log LInfo], Returned (Some d)) ∧
        ∀ c, match d !! c with
             | Some q => ∃ row, last_with_code rows c row ∧ quote_of row q
             | None => c ∉ r_code <$> rows
             end) ∧
  (Exists (fun row => ¬ quotable row) rows →
   _get_akshare_realtime_data w = ([Log LWarning], Returned None)).
Proof.
  intros Hw Hne. unfold _get_akshare_realtime_data. rewrite Hw.
  destruct rows as [|row rows]; [done|]. split.
  - intros Hq. destruct (fill_quotes_quotable (row :: rows) ∅ Hq) as (d & Hd & Hc).
    cbn [call w_bind]. rewrite Hd. exists d. split; [done|]. intros c.
    destruct (Hc c) as [Hin Hout].
    destruct (decide (c ∈ r_code <$> row :: rows)) as [Hel|Hel].
    + destruct (Hin Hel) as (r & q & -> & ? & ?). by exists r.
    + rewrite (Hout Hel), lookup_empty. done.
  - intros Hb. destruct (fill_quotes_bad (row :: rows) ∅ Hb) as (x & Hx).
    cbn [call w_bind]. rewrite Hx. done.
Qed.


Lemma realtime_quotes_witness :
  ∃ d, _get_akshare_realtime_data (spot_world [breakout_row; quiet_row])
         = ([Log LInfo], Returned (Some d)) ∧
       ∀ c, match d !! c with
            | Some q => ∃ row, last_with_code [breakout_row; quiet_row] c row ∧
                               quote_of row q
            | None => c ∉ r_code <$> [breakout_row; quiet_row]
            end.
Proof.
  apply (realtime_quotes (spot_world [breakout_row; quiet_row])
           [breakout_row; quiet_row]); [reflexivity | discriminate |].
  repeat constructor; discriminate.
Defined.

(** ** The mapping of themes *)

Lemma named_cons m l :
  named (m :: l) = if bool_decide (ml_name m = "") then named l else m :: named l.
Proof.
  unfold named. rewrite filter_cons. destruct (decide (ml_name m = "")) as [H|H].
  - rewrite (bool_decide_eq_true_2 _ H). by destruct (decide (ml_name m ≠ "")).
  - rewrite (bool_decide_eq_false_2 _ H). by destruct (decide (ml_name m ≠ "")).
Qed.

Lemma map_one_mappable w m :
  ml_name m ≠ "" → mappable w m →
  ∃ tr m', map_one w m = (tr, Returned [m']) ∧ mapped_from w m m' ∧
           Forall (fun e => e = Log LInfo) tr.
Proof.
  intros Hn [mp Hmp]. unfold map_one. rewrite (bool_decide_eq_false_2 _ Hn), Hmp.
  destruct mp as [p|]; cbn; eexists _, _; (split; [reflexivity|]); split.
  - unfold mapped_from. rewrite Hmp. cbn. split_and!; [done..|]. split; [by eexists|done].
  - by repeat constructor.
  - unfold mapped_from. rewrite Hmp. cbn. split_and!; [done..|].
    split; [done|]. by intros [? ?].
  - constructor.
Qed.

Lemma for_each_map_one w l :
  Forall (mappable w) (named l) →
  ∃ tr out, for_each (map_one w) l = (tr, Returned out) ∧
            Forall2 (mapped_from w) (named l) out ∧
            Forall (fun e => e = Log LInfo) tr.
Proof.
  induction l as [|m l IH]; intros H.
  { exists [], []. split_and!; [done | constructor | constructor]. }
  rewrite named_cons in H |- *. cbn [for_each].
  destruct (decide (ml_name m = "")) as [Hn|Hn].
  - rewrite (bool_decide_eq_true_2 _ Hn) in H |- *.
    destruct (IH H) as (tr & out & E & HF & Ht).
    unfold map_one at 1. rewrite (bool_decide_eq_true_2 _ Hn). cbn [w_bind w_ret].
    rewrite E. cbn. rewrite app_nil_r. by exists tr, out.
  - rewrite (bool_decide_eq_false_2 _ Hn) in H |- *.
    apply Forall_cons in H as [Hm H].
    destruct (IH H) as (tr & out & E & HF & Ht).
    destruct (map_one_mappable w m Hn Hm) as (t1 & m' & -> & Hm' & Ht1).
    cbn [w_bind]. rewrite E. cbn. exists (t1 ++ tr ++ []), (m' :: out).
    split; [done|]. split; [by constructor|].
    rewrite app_nil_r. by apply Forall_app.
Qed.

Lemma for_each_map_one_raises w l :
  Exists (fun m => ¬ mappable w m) (named l) →
  ∃ tr x, for_each (map_one w) l = (tr, Raised x) ∧
          Forall (fun e => e = Log LInfo) tr.
Proof.
  induction l as [|m l IH]; intros H.
  { by apply Exists_nil in H. }
  rewrite named_cons in H. cbn [for_each].
  destruct (decide (ml_name m = "")) as [Hn|Hn].
  - rewrite (bool_decide_eq_true_2 _ Hn) in H.
    destruct (IH H) as (tr & x & E & Ht).
    unfold map_one at 1. rewrite (bool_decide_eq_true_2 _ Hn). cbn [w_bind w_ret].
    rewrite E. cbn. by exists tr, x.
  - rewrite (bool_decide_eq_false_2 _ Hn) in H.
    destruct (map_mainline w (ml_name m)) as [mp|x] eqn:Hmp.
    + assert (Hm : mappable w m) by by exists mp.
      apply Exists_cons in H as [H|H]; [done|].
      destruct (IH H) as (tr & x & E & Ht).
      destruct (map_one_mappable w m Hn Hm) as (t1 & m' & -> & _ & Ht1).
      cbn [w_bind]. rewrite E. cbn. exists (t1 ++ tr), x. split; [done|].
      by apply Forall_app.
    + unfold map_one at 1. rewrite (bool_decide_eq_false_2 _ Hn), Hmp.
      cbn. by exists [], x.
Qed.

(** X6.  [_map_mainlines_to_jqdata] never raises and maps all or nothing.
    When the mapper starts and answers for every named theme, the result
    has one record per named theme, in order, with the theme's name, score
    and leader, and the record counts as mapped exactly when the mapper
    found a mapping.  When the mapper cannot start or fails for one named
    theme, the result is empty, whatever was mapped before, and the error
    is logged. *)
Theorem mapping_all_or_nothing (w : world) (mainlines : list mainline) :
  (mapper_init w = Returned tt → Forall (mappable w) (named mainlines) →
   ∃ tr out, _map_mainlines_to_jqdata w mainlines = (tr, Returned out) ∧
             Forall2 (mapped_from w) (named mainlines) out ∧
             Log LError ∉ tr) ∧
  ((∃ x, mapper_init w = Raised x) ∨
   Exists (fun m => ¬ mappable w m) (named mainlines) →
   ∃ tr, _map_mainlines_to_jqdata w mainlines = (tr ++ [Log LError], Returned [])).
Proof.
  unfold _map_mainlines_to_jqdata. split.
  - intros Hi Hm. rewrite Hi.
    destruct (for_each_map_one w mainlines Hm) as (tr & out & E & HF & Ht).
    cbn [call w_bind]. rewrite E. cbn. exists tr, out. split_and!; [done..|].
    intros Hin. rewrite Forall_forall in Ht. by specialize (Ht _ Hin).
  - intros H. destruct (mapper_init w) as [[]|x] eqn:Hi.
    + destruct H as [[x Hx]|H]; [done|].
      destruct (for_each_map_one_raises w mainlines H) as (tr & x & E & _).
      cbn [call w_bind]. rewrite E. cbn. by exists tr.
    + cbn. by exists [].
Qed.

Lemma mapping_all_or_nothing_witness :
  (∃ tr out, _map_mainlines_to_jqdata mapper_world [theme_ai] = (tr, Returned out) ∧
             Forall2 (mapped_from mapper_world) (named [theme_ai]) out ∧
             Log LError ∉ tr) ∧
  (∃ tr, _map_mainlines_to_jqdata leader_world [theme_ai]
         = (tr ++ [Log LError], Returned [])).
Proof.
  split.
  - apply (mapping_all_or_nothing mapper_world [theme_ai]); [reflexivity|].
    repeat constructor. by eexists.
  - apply (mapping_all_or_nothing leader_world [theme_ai]).
    left. by exists "ImportError".
Defined.

(** ** Progress values and list lengths stay in range *)

Lemma tacit_in_range {A B} cap (m : W (event (list A)) B) :
  tacit (out_of_range cap) m → Forall (fun e => in_range cap e = true) m.1.
Proof.
  unfold tacit, out_of_range. intros H. eapply Forall_impl; [exact H|].
  intros e He. by apply negb_false_iff.
Qed.

Lemma tacit_finished_take {A} cap (l : list A) src :
  tacit (out_of_range cap) (emit (Finished (take cap l) src)).
Proof.
  apply tacit_emit. unfold out_of_range, in_range. apply negb_false_iff.
  apply Nat.leb_le. rewrite length_take. lia.
Qed.

Section MainlineRange.
Context (w : world) (self : MainlineScanWorker).

Abbreviation bounded := (tacit (@out_of_range stock 30)).

Lemma _init_jqdata_bounded : bounded (_init_jqdata w).
Proof. unfold _init_jqdata. tacit_tac. Qed.

Lemma _load_mapped_mainlines_bounded : bounded (_load_mapped_mainlines w).
Proof. unfold _load_mapped_mainlines, _init_mongodb. tacit_tac. Qed.

Lemma _load_mainline_from_file_bounded : bounded (_load_mainline_from_file w).
Proof. unfold _load_mainline_from_file. tacit_tac. Qed.

Lemma _map_mainlines_to_jqdata_bounded l : bounded (_map_mainlines_to_jqdata w l).
Proof. unfold _map_mainlines_to_jqdata, map_one. tacit_tac. Qed.

Lemma _get_stocks_from_jqdata_bounded c t : bounded (_get_stocks_from_jqdata w c t).
Proof. unfold _get_stocks_from_jqdata. tacit_tac. Qed.

Lemma fill_quotes_bounded rows result : bounded (fill_quotes rows result).
Proof.
  revert result. induction rows as [|row rows IH]; intros result; simpl.
  - apply tacit_ret.
  - unfold quote_of_row. tacit_tac.
Qed.

Lemma _filter_strong_stocks_jqdata_bounded stocks score sector :
  bounded (_filter_strong_stocks_jqdata w self stocks score sector).
Proof.
  unfold _filter_strong_stocks_jqdata, _get_akshare_realtime_data, filter_one,
    _get_stock_price_jqdata, display_name.
  tacit_tac; apply fill_quotes_bounded.
Qed.

Lemma scan_mainline_bounded i total m :
  (i < total)%nat → bounded (scan_mainline w self i total m).
Proof.
  intros Hi. unfold scan_mainline.
  apply tacit_bind.
  { apply tacit_emit. unfold out_of_range, in_range. apply negb_false_iff.
    assert (0 <= 65 * (Z.of_nat i + 1) / Z.of_nat total <= 65).
    { split; [apply Z.div_pos; lia|]. apply Z.div_le_upper_bound; lia. }
    apply andb_true_iff. split; apply Z.leb_le; lia. }
  intros _. destruct (_ && _); [|apply tacit_ret].
  apply tacit_bind; [apply _get_stocks_from_jqdata_bounded|]. intros [|c cs].
  { apply tacit_ret. }
  apply tacit_bind; [by apply tacit_emit|]. intros _.
  apply tacit_bind; [apply _filter_strong_stocks_jqdata_bounded|]. intros ?.
  apply tacit_ret.
Qed.

Lemma scan_loop_bounded i total l :
  (i + length l ≤ total)%nat → bounded (scan_loop w self i total l).
Proof.
  revert i. induction l as [|m l IH]; intros i Hi; cbn [scan_loop]; [apply tacit_ret|].
  cbn [length] in Hi.
  destruct (stop_flag w i); [apply tacit_ret|].
  apply tacit_bind; [apply scan_mainline_bounded; lia|]. intros ys.
  apply tacit_bind; [apply IH; lia|]. intros zs. apply tacit_ret.
Qed.
End MainlineRange.

Lemma MainlineScanWorker_run_bounded w self :
  tacit (out_of_range 30) (MainlineScanWorker_run w self).
Proof.
  unfold MainlineScanWorker_run.
  apply tacit_try; [|intros x; tacit_tac].
  apply tacit_bind; [by apply tacit_emit|]. intros _.
  apply tacit_bind; [apply _init_jqdata_bounded|]. intros [|]; cbn [negb]; [|tacit_tac].
  apply tacit_bind; [by apply tacit_emit|]. intros _.
  apply tacit_bind; [apply _load_mapped_mainlines_bounded|]. intros mapped.
  apply tacit_bind.
  { destruct mapped; [|apply tacit_ret].
    apply tacit_bind; [by apply tacit_emit|]. intros _.
    apply tacit_bind; [apply _load_mainline_from_file_bounded|]. intros [|m ms].
    - apply tacit_ret.
    - apply tacit_bind; [by apply tacit_emit|]. intros _.
      apply _map_mainlines_to_jqdata_bounded. }
  intros [|m ms]; [tacit_tac|].
  apply tacit_bind; [by apply tacit_emit|]. intros _.
  destruct (List.filter _ _) as [|j js]; [tacit_tac|].
  apply tacit_bind.
  { apply scan_loop_bounded. rewrite length_take. lia. }
  intros all_stocks.
  apply tacit_bind; [by apply tacit_emit|]. intros _.
  apply tacit_bind; [by apply tacit_emit|]. intros _.
  unfold _deduplicate_and_sort. apply tacit_finished_take.
Qed.

Lemma TechScanWorker_run_bounded w period :
  tacit (out_of_range 20) (TechScanWorker_run w period).
Proof.
  unfold TechScanWorker_run. apply tacit_try; [|intros x; tacit_tac].
    apply tacit_bind; [by apply tacit_emit|]. intros _.
    apply tacit_bind.
    { apply tacit_try; [|intros ?; tacit_tac].
      apply tacit_bind; [tacit_tac|]. intros [[|r rows]|]; tacit_tac. }
    intros [[|r rows]|]; [tacit_tac| |tacit_tac].
    apply tacit_bind; [by apply tacit_emit|]. intros _.
    apply tacit_bind.
    { apply tacit_for_each. intros row. unfold tacit.
      rewrite tech_row_trace. constructor. }
    intros stocks.
    apply tacit_bind; [by apply tacit_emit|]. intros _.
    apply tacit_finished_take.
Qed.

Lemma ETFScanWorker_run_bounded w : tacit (out_of_range 20) (ETFScanWorker_run w).
Proof.
  unfold ETFScanWorker_run. apply tacit_try; [|intros x; tacit_tac].
    apply tacit_bind; [by apply tacit_emit|]. intros _.
    apply tacit_bind; [apply tacit_call|].
    intros [[|r rows]|]; [tacit_tac| |tacit_tac].
    apply tacit_bind; [by apply tacit_emit|]. intros _.
    apply tacit_bind; [apply tacit_call|]. intros sorted.
    apply tacit_bind.
    { apply tacit_for_each. intros row. unfold etf_of_row. tacit_tac. }
    intros etfs.
    apply tacit_bind; [by apply tacit_emit|]. intros _.
    apply tacit_finished_take.
Qed.


(** X7.  Whatever the collaborators answer, every [progress] value that
    [MainlineScanWorker.run] emits lies between 0 and 100 and every list it
    hands to [finished] has at most 30 entries. *)
Theorem mainline_run_in_range (w : world) (self : MainlineScanWorker) :
  Forall (fun e => in_range 30 e = true) (MainlineScanWorker_run w self).1.
Proof. apply tacit_in_range, MainlineScanWorker_run_bounded. Qed.

(** X8.  Every [progress] value of the technical scan and of the ETF scan
    lies between 0 and 100, and neither hands more than 20 entries to
    [finished]. *)
Theorem tech_etf_runs_in_range (w : world) (period : string) :
  Forall (fun e => in_range 20 e = true) (TechScanWorker_run w period).1 ∧
  Forall (fun e => in_range 20 e = true) (ETFScanWorker_run w).1.
Proof.
  split; apply tacit_in_range;
    [apply TechScanWorker_run_bounded | apply ETFScanWorker_run_bounded].
Qed.

(** ** The overview's progress bar *)

Lemma overview_bar_in_share k p : 0 ≤ p ≤ 100 → in_share k p.
Proof.
  intros Hp. unfold in_share, overview_bar, py_int.
  destruct k; cbn [share fst snd Qmult inject_Z Qnum Qden];
    rewrite Z.quot_div_nonneg by lia.
  - assert (0 ≤ (p * 4) `div` Z.pos (1 * 10)) by (apply Z.div_pos; lia).
    assert ((p * 4) `div` Z.pos (1 * 10) ≤ 40) by (apply Z.div_le_upper_bound; lia).
    lia.
  - assert (0 ≤ (p * 25) `div` Z.pos (1 * 100)) by (apply Z.div_pos; lia).
    assert ((p * 25) `div` Z.pos (1 * 100) ≤ 25) by (apply Z.div_le_upper_bound; lia).
    lia.
  - assert (0 ≤ (p * 2) `div` Z.pos (1 * 10)) by (apply Z.div_pos; lia).
    assert ((p * 2) `div` Z.pos (1 * 10) ≤ 20) by (apply Z.div_le_upper_bound; lia).
    lia.
  - assert (0 ≤ (p * 15) `div` Z.pos (1 * 100)) by (apply Z.div_pos; lia).
    assert ((p * 15) `div` Z.pos (1 * 100) ≤ 15) by (apply Z.div_le_upper_bound; lia).
    lia.
Qed.

Lemma tacit_on_scale {A B} cap (m : W (event (list A)) B) :
  tacit (out_of_range cap) m → tacit off_scale m.
Proof.
  unfold tacit. intros H. eapply Forall_impl; [exact H|].
  intros [p|d src|lv]; [|done..]. unfold out_of_range, in_range, off_scale. done.
Qed.

Lemma progress_values_on_scale {A B} (m : W (event A) B) :
  tacit off_scale m → Forall (fun p => 0 ≤ p ≤ 100) (progress_values m.1).
Proof.
  unfold tacit, progress_values. induction 1 as [|e t He _ IH]; [constructor|].
  destruct e as [p|d src|lv]; cbn [omap]; [|exact IH..].
  constructor; [|exact IH]. unfold off_scale in He.
  apply negb_false_iff, andb_true_iff in He as [H1 H2].
  apply Z.leb_le in H1, H2. lia.
Qed.

Lemma ExternalParseWorker_run_on_scale w : tacit off_scale (ExternalParseWorker_run w).
Proof. unfold ExternalParseWorker_run. tacit_tac. Qed.

(** X9.  During an overview scan the bar only shows values of the share of
    the worker that is running: 0 to 40 for the mainline scan, 40 to 65 for
    the technical scan, 65 to 85 for the ETF scan and 85 to 100 for the
    external parse, whatever the collaborators answer. *)
Theorem overview_bar_in_shares (w : world) :
  Forall (in_share KMainline)
         (progress_values (MainlineScanWorker_run w default_mainline_worker).1) ∧
  Forall (in_share KTech) (progress_values (TechScanWorker_run w "short").1) ∧
  Forall (in_share KETF) (progress_values (ETFScanWorker_run w).1) ∧
  Forall (in_share KExternal) (progress_values (ExternalParseWorker_run w).1).
Proof.
  split_and!; (eapply Forall_impl; [|intros p; apply overview_bar_in_share]);
    apply progress_values_on_scale.
  - eapply tacit_on_scale, MainlineScanWorker_run_bounded.
  - eapply tacit_on_scale, TechScanWorker_run_bounded.
  - eapply tacit_on_scale, ETFScanWorker_run_bounded.
  - apply ExternalParseWorker_run_on_scale.
Qed.

(** ** What the technical, ETF and external scans hand over *)

Lemma composite_score_le ch vr t : composite_score ch vr t ≤ 75.
Proof.
  unfold composite_score.
  destruct (Qle_bool 9.9 ch), (Qle_bool 7 ch), (Qle_bool 5 ch),
    (Qle_bool 3 vr), (Qle_bool 2 vr), (Qle_bool 5 t), (Qle_bool t 15); simpl; lia.
Qed.

Lemma tech_record_ranked period desc c n ch vr t mc :
  Forall tech_ranked (tech_record period desc c n ch vr t mc).
Proof.
  rewrite tech_record_composite.
  destruct (_ && _) eqn:E; [|constructor].
  apply andb_true_iff in E as [_ E]. apply Z.leb_le in E.
  pose proof (composite_score_le ch vr t).
  repeat constructor; simpl; lia.
Qed.

Lemma tech_row_ranked period desc row :
  post (Forall tech_ranked) (Forall tech_ranked) (tech_row period desc row).
Proof.
  split.
  - rewrite tech_row_trace. intros d src H. by apply elem_of_nil in H.
  - unfold tech_row. destruct (_ || _); [by intros l [= <-]|].
    destruct (contains _ _); [by intros l [= <-]|].
    destruct (to_float (r_change row) 0); [|done].
    destruct (to_float (r_volume_ratio row) 1); [|done].
    destruct (to_float (r_turnover row) 0); [|done].
    destruct (to_float (r_market_cap row) 0); [|done].
    cbn. intros l [= <-]. apply tech_record_ranked.
Qed.

Lemma mock_tech_ranked : Forall tech_ranked get_mock_tech_stocks.
Proof. by repeat constructor. Qed.

Lemma TechScanWorker_run_ranked w period :
  post (Forall tech_ranked) (fun _ => True) (TechScanWorker_run w period).
Proof.
  unfold TechScanWorker_run. apply post_try.
  - eapply post_bind; [by apply (post_progress _ (fun _ => True))|]. intros _ _.
    eapply post_bind with (Q := fun _ => True).
    { apply post_try.
      - eapply post_bind; [by apply (post_call _ (fun _ => True))|].
        intros [[|r rows]|] _; [by apply post_ret | | by apply post_ret].
        eapply post_bind; [by apply (post_progress _ (fun _ => True))|].
        intros _ _. by apply post_ret.
      - intros e. eapply post_bind; [by apply (post_log _ (fun _ => True))|].
        intros _ _. by apply post_ret. }
    intros [[|r rows]|] _.
    + eapply post_bind; [by apply (post_progress _ (fun _ => True))|]. intros _ _.
      apply post_finished; [apply mock_tech_ranked | done].
    + eapply post_bind; [by apply (post_progress _ (fun _ => True))|]. intros _ _.
      eapply post_bind.
      { apply post_for_each. intros x _. apply tech_row_ranked. }
      intros stocks Hstocks.
      eapply post_bind; [by apply (post_progress _ (fun _ => True))|]. intros _ _.
      apply post_finished; [|done].
      apply Forall_take. by rewrite (sort_perm score_cmp).
    + eapply post_bind; [by apply (post_progress _ (fun _ => True))|]. intros _ _.
      apply post_finished; [apply mock_tech_ranked | done].
  - intros e.
    eapply post_bind; [by apply (post_log _ (fun _ => True))|]. intros _ _.
    eapply post_bind; [by apply (post_progress _ (fun _ => True))|]. intros _ _.
    apply post_finished; [apply mock_tech_ranked | done].
Qed.

(** X10.  Every record in a list the technical scan hands to [finished] has
    source "tech_breakout" and theme score 0.  A record built from the
    market table carries a signal score between 25 and 75 and has priority 2
    when that score is at least 50 and priority 3 otherwise; the mock
    records carry no score and have priority 2. *)
Theorem tech_records_ranked (w : world) (period : string)
    (data : list stock) (src : string) :
  (data, src) ∈ finished_data (TechScanWorker_run w period).1 →
  Forall tech_ranked data.
Proof. intros H. by apply (TechScanWorker_run_ranked w period) in H. Qed.

Lemma tech_records_ranked_witness :
  ∃ data,
    finished_data (TechScanWorker_run (spot_world [breakout_row; quiet_row]) "short").1
    = [(data, "AKShare实时行情")] ∧
    length data = 1%nat ∧ Forall tech_ranked data.
Proof.
  eexists. split; [vm_compute; reflexivity|]. split; [reflexivity|].
  apply (tech_records_ranked (spot_world [breakout_row; quiet_row]) "short"
           _ "AKShare实时行情").
  vm_compute. constructor.
Defined.






(** X12.  The external parse never raises and hands exactly one list to
    [finished], which is never empty: the parser's stocks, each with theme
    score 0 and change 0, when it found some, and the sample record when
    the parser found nothing, found an empty pool or failed. *)
Theorem external_never_empty (w : world) :
  ∃ tr data src,
    ExternalParseWorker_run w = (tr, Returned tt) ∧
    finished_data tr = [(data, src)] ∧ data ≠ [] ∧
    Forall (fun s => mainline_score s = 0%Q ∧ change_pct s = 0%Q) data ∧
    match parse_all w with
    | Returned (Some (s :: rest)) =>
        data = external_stock <$> s :: rest ∧ src = "外部数据文件"
    | _ => data = get_mock_external_stocks ∧ src = "示例数据"
    end.
Proof.
  unfold ExternalParseWorker_run.
  destruct (parse_all w) as [[[|s rest]|]|x]; cbn;
    eexists _, _, _; (split; [reflexivity|]); cbn; (split; [reflexivity|]);
    (split; [done|]); (split; [|done]).
  - by repeat constructor.
  - constructor; [done|]. apply Forall_fmap, Forall_forall. by intros.
  - by repeat constructor.
  - by repeat constructor.
Qed.

(** ** The factor filter: constituents and their themes *)

Lemma fetch_constituents_fetched fw date m c :
  ∃ tr, fetch_constituents fw date m c =
        (tr, Returned (match fetched fw date c with
                       | Some l => <[c := l]> m
                       | None => m
                       end)) ∧
        length (List.filter (fun e => match e with FFProgress => true | _ => false end) tr)
        = 1%nat.
Proof.
  unfold fetch_constituents, fetched.
  destruct (if String.prefix "SC" c then _ else _) as [[|s rest]|x]; cbn;
    by eexists.
Qed.

Lemma fetch_all_fetched fw date codes m :
  ∃ tr m', fetch_all fw date codes m = (tr, Returned m') ∧
    (∀ c, m' !! c = if bool_decide (c ∈ codes)
                    then match fetched fw date c with
                         | Some l => Some l
                         | None => m !! c
                         end
                    else m !! c) ∧
    length (List.filter (fun e => match e with FFProgress => true | _ => false end) tr)
    = length codes.
Proof.
  revert m. induction codes as [|c codes IH]; intros m.
  { exists [], m. split_and!; [done| |done]. intros c.
    rewrite bool_decide_eq_false_2; [done|]. apply not_elem_of_nil. }
  cbn [fetch_all].
  destruct (fetch_constituents_fetched fw date m c) as (t1 & -> & Ht1).
  cbn [w_bind].
  destruct (IH (match fetched fw date c with Some l => <[c:=l]> m | None => m end))
    as (t2 & m' & -> & Hm' & Ht2).
  exists (t1 ++ t2), m'. split_and!; [done| |].
  - intros c'. rewrite Hm'. 
    destruct (decide (c' ∈ codes)) as [Hin|Hin].
    + rewrite (bool_decide_eq_true_2 _ Hin).
      rewrite bool_decide_eq_true_2 by (by right).
      destruct (fetched fw date c') as [l'|] eqn:E'; [done|].
      destruct (decide (c' = c)) as [->|Hne]; [by rewrite E'|].
      destruct (fetched fw date c); [by rewrite lookup_insert_ne|done].
    + rewrite (bool_decide_eq_false_2 _ Hin).
      destruct (decide (c' = c)) as [->|Hne].
      * rewrite bool_decide_eq_true_2 by (by left).
        destruct (fetched fw date c); [by rewrite lookup_insert_eq|done].
      * rewrite bool_decide_eq_false_2.
        2:{ intros [?|?]%elem_of_cons; done. }
        destruct (fetched fw date c); [by rewrite lookup_insert_ne|done].
  - rewrite List.filter_app, length_app, Ht1, Ht2. done.
Qed.

(** X13.  The loop of [FactorFilterWorker.run] that fetches constituents
    never raises and emits one [progress] signal per code.  Started with an
    empty dictionary, it ends with an entry for exactly the codes for which
    JQData returned constituents, holding the first 20 of them; a code whose
    call failed or returned nothing has no entry. *)
Theorem constituents_by_mainline (fw : ff_world) (date : string) (codes : list string) :
  ∃ tr m, fetch_all fw date codes ∅ = (tr, Returned m) ∧
    (∀ c, m !! c = if bool_decide (c ∈ codes) then fetched fw date c else None) ∧
    (∀ c l, m !! c = Some l → l ≠ [] ∧ (length l ≤ 20)%nat) ∧
    length (List.filter (fun e => match e with FFProgress => true | _ => false end) tr)
    = length codes.
Proof.
  destruct (fetch_all_fetched fw date codes ∅) as (tr & m & E & Hm & Ht).
  exists tr, m. split_and!; [done| | |done].
  - intros c. rewrite Hm, lookup_empty. by destruct (fetched fw date c), (bool_decide _).
  - intros c l. rewrite Hm, lookup_empty. unfold fetched.
    destruct (bool_decide _); [|done].
    destruct (if String.prefix "SC" c then _ else _) as [[|s rest]|x]; [done| |done].
    intros Hl. apply (inj Some) in Hl. subst l. split; [done|].
    rewrite length_take. lia.
Qed.

Lemma elem_of_cons_ne (c c0 : string) cs : c ≠ c0 → c ∈ c0 :: cs ↔ c ∈ cs.
Proof. rewrite elem_of_cons. tauto. Qed.

Lemma merge_code_fold ml cs acc :
  (∀ c, (fold_left (merge_code ml) cs acc).1 !! c =
        match acc.1 !! c with
        | Some x => Some x
        | None => if bool_decide (c ∈ cs) then Some ml else None
        end) ∧
  ∃ new, (fold_left (merge_code ml) cs acc).2 = acc.2 ++ new ∧ NoDup new ∧
         ∀ c, c ∈ new ↔ acc.1 !! c = None ∧ c ∈ cs.
Proof.
  revert acc. induction cs as [|c0 cs IH]; intros acc; cbn [fold_left].
  { split.
    - intros c. rewrite bool_decide_eq_false_2 by apply not_elem_of_nil.
      by destruct (acc.1 !! c).
    - exists []. rewrite app_nil_r. split_and!; [done|constructor|].
      intros c. rewrite elem_of_nil. tauto. }
  destruct (IH (merge_code ml acc c0)) as (Hmap & new & Hcodes & Hnd & Hnew).
  destruct (acc.1 !! c0) as [x0|] eqn:E0.
  - assert (Hm : merge_code ml acc c0 = acc) by (unfold merge_code; by rewrite E0).
    rewrite Hm in Hmap, Hcodes, Hnew |- *. split.
    + intros c. rewrite Hmap. destruct (acc.1 !! c) eqn:Ec; [done|].
      assert (c ≠ c0) by congruence.
      by rewrite (bool_decide_ext _ _ (elem_of_cons_ne c c0 cs H)).
    + exists new. split_and!; [done..|]. intros c. rewrite Hnew.
      split; intros [Hc Hin]; (split; [done|]).
      * by right.
      * apply elem_of_cons in Hin as [->|?]; [congruence|done].
  - assert (Hm : merge_code ml acc c0 = (<[c0:=ml]> acc.1, acc.2 ++ [c0]))
      by (unfold merge_code; by rewrite E0).
    rewrite Hm in Hmap, Hcodes, Hnew |- *. cbn [fst snd] in *. split.
    + intros c. rewrite Hmap. destruct (decide (c = c0)) as [->|Hne].
      * rewrite lookup_insert_eq, E0. by rewrite bool_decide_eq_true_2 by (by left).
      * rewrite lookup_insert_ne by done. destruct (acc.1 !! c); [done|].
        by rewrite (bool_decide_ext _ _ (elem_of_cons_ne c c0 cs Hne)).
    + exists (c0 :: new). rewrite Hcodes, <- app_assoc. split_and!; [done| |].
      * apply NoDup_cons. split; [|done]. rewrite Hnew, lookup_insert_eq.
        by intros [? _].
      * intros c. destruct (decide (c = c0)) as [->|Hne].
        -- split; [intros _; split; [done | by left] | intros _; by left].
        -- rewrite !(elem_of_cons_ne c c0) by done.
           by rewrite Hnew, lookup_insert_ne.
Qed.

Lemma merge_entry_fold sbm mls acc :
  (∀ c, (fold_left (merge_entry sbm) mls acc).1 !! c =
        match acc.1 !! c with
        | Some x => Some x
        | None => List.find (lists_code sbm c) mls
        end) ∧
  ∃ new, (fold_left (merge_entry sbm) mls acc).2 = acc.2 ++ new ∧ NoDup new ∧
         ∀ c, c ∈ new ↔ acc.1 !! c = None ∧ is_Some (List.find (lists_code sbm c) mls).
Proof.
  revert acc. induction mls as [|ml mls IH]; intros acc; cbn [fold_left List.find].
  { split.
    - intros c. by destruct (acc.1 !! c).
    - exists []. rewrite app_nil_r. split_and!; [done|constructor|].
      intros c. rewrite elem_of_nil. split; [done|]. by intros [_ [? ?]]. }
  destruct (IH (merge_entry sbm acc ml)) as (Hmap & new & Hcodes & Hnd & Hnew).
  destruct (sbm !! pe_jq_code ml) as [cs|] eqn:Es.
  - assert (Hm : merge_entry sbm acc ml = fold_left (merge_code ml) cs acc)
      by (unfold merge_entry; by rewrite Es).
    assert (Hl : ∀ c, lists_code sbm c ml = bool_decide (c ∈ cs))
      by (intros c; unfold lists_code; by rewrite Es).
    rewrite Hm in Hmap, Hcodes, Hnew |- *.
    destruct (merge_code_fold ml cs acc) as (Hmap1 & new1 & Hcodes1 & Hnd1 & Hnew1).
    split.
    + intros c. rewrite Hmap, Hmap1, Hl. destruct (acc.1 !! c); [done|].
      by destruct (bool_decide (c ∈ cs)).
    + exists (new1 ++ new). rewrite Hcodes, Hcodes1, <- app_assoc.
      split_and!; [done| |].
      * apply NoDup_app. split_and!; [done| |done].
        intros c Hc1 Hc. apply Hnew1 in Hc1 as [Hacc Hin]. apply Hnew in Hc as [Hc _].
        rewrite Hmap1, Hacc, bool_decide_eq_true_2 in Hc by done. done.
      * intros c. rewrite elem_of_app, Hnew1, Hnew, Hmap1, Hl.
        destruct (acc.1 !! c) as [x|].
        { split; [intros [[? _]|[? _]]; done | intros [? _]; done]. }
        destruct (decide (c ∈ cs)) as [Hin|Hin].
        -- rewrite (bool_decide_eq_true_2 _ Hin).
           split; [intros _; split; [done | by eexists] | intros _; by left].
        -- rewrite (bool_decide_eq_false_2 _ Hin).
           split; [intros [[_ ?]|[_ ?]]; done | intros [_ ?]; by right].
  - assert (Hm : merge_entry sbm acc ml = acc) by (unfold merge_entry; by rewrite Es).
    assert (Hl : ∀ c, lists_code sbm c ml = false)
      by (intros c; unfold lists_code; by rewrite Es).
    rewrite Hm in Hmap, Hcodes, Hnew |- *. split.
    + intros c. by rewrite Hmap, Hl.
    + exists new. split_and!; [done..|]. intros c. by rewrite Hnew, Hl.
Qed.

(** X14.  The merge loop of [FactorFilterWorker.run] lists every stock code
    once, lists exactly the codes it recorded a theme for, and records for a
    code the first theme of [self.mainlines] whose fetched constituents hold
    it: a stock that belongs to several themes counts for the one that comes
    first in the candidate list. *)
Theorem first_theme_wins (sbm : gmap string (list string)) (mls : list pool_entry) :
  let merged := fold_left (merge_entry sbm) mls (∅, []) in
  NoDup merged.2 ∧
  (∀ c, c ∈ merged.2 ↔ is_Some (merged.1 !! c)) ∧
  (∀ c, merged.1 !! c = List.find (lists_code sbm c) mls).
Proof.
  destruct (merge_entry_fold sbm mls (∅, [])) as (Hmap & new & Hcodes & Hnd & Hnew).
  cbn [fst snd] in *. rewrite Hcodes. cbn [app]. split_and!; [done| |].
  - intros c. rewrite Hnew, Hmap, !lookup_empty. tauto.
  - intros c. by rewrite Hmap, lookup_empty.
Qed.

(** ** The result table of the factor filter *)

Lemma filter_signals min data :
  forallb is_signal data = true →
  filter_by_score score_of_signal min data =
  Returned (List.filter (fun s => qle min (item_score s)) data).
Proof.
  induction data as [|[sig|c m q] data IH]; intros H; [done| |done].
  cbn [filter_by_score score_of_signal List.filter item_score]. rewrite IH by exact H.
  by destruct (qle min (ss_combined_score sig)).
Qed.

Lemma filter_dicts min data :
  forallb (fun s => negb (is_signal s)) data = true →
  filter_by_score score_of_dict min data =
  Returned (List.filter (fun s => qle min (item_score s)) data).
Proof.
  induction data as [|[sig|c m q] data IH]; intros H; [done|done|].
  cbn [filter_by_score score_of_dict List.filter item_score]. rewrite IH by exact H.
  by destruct (qle min q).
Qed.

Lemma _update_table_uniform min data :
  uniform data = true →
  _update_table min data = Returned (List.filter (fun s => qle min (item_score s)) data).
Proof.
  unfold uniform. intros [H|H]%orb_true_iff.
  - destruct data as [|[sig|c m q] data]; [done| |done].
    by apply filter_signals.
  - destruct data as [|[sig|c m q] data]; [done|done|].
    by apply filter_dicts.
Qed.

Lemma uniform_signals {B} (f : B → ff_item) (l : list B) :
  (∀ x, is_signal (f x) = true) → uniform (f <$> l) = true.
Proof.
  intros H. unfold uniform. apply orb_true_iff. left.
  induction l as [|x l IH]; [done|]. cbn. by rewrite H, IH.
Qed.

Lemma uniform_dicts {B} (f : B → ff_item) (l : list B) :
  (∀ x, is_signal (f x) = false) → uniform (f <$> l) = true.
Proof.
  intros H. unfold uniform. apply orb_true_iff. right.
  induction l as [|x l IH]; [done|]. cbn. by rewrite H, IH.
Qed.

Lemma fetch_all_unmixed fw date codes m : tacit mixed (fetch_all fw date codes m).
Proof.
  revert m. induction codes as [|c codes IH]; intros m; simpl; [apply tacit_ret|].
  apply tacit_bind; [|intros ?; apply IH].
  unfold fetch_constituents. tacit_tac.
Qed.

Lemma FactorFilterWorker_run_unmixed fw self :
  tacit mixed (FactorFilterWorker_run fw self).
Proof.
  unfold FactorFilterWorker_run. apply tacit_try; [|intros x; tacit_tac].
  apply tacit_bind; [apply tacit_call|]. intros _.
  apply tacit_bind; [by apply tacit_emit|]. intros _.
  apply tacit_bind; [by apply tacit_emit|]. intros _.
  apply tacit_bind; [by apply tacit_emit|]. intros _.
  apply tacit_bind; [tacit_tac|]. intros available_date.
  apply tacit_bind; [by apply tacit_emit|]. intros _.
  apply tacit_bind; [apply fetch_all_unmixed|]. intros stocks_by_mainline.
  destruct (fold_left _ _ _) as [stock_mainline_map [|c codes]]; [by apply tacit_emit|].
  apply tacit_bind; [by apply tacit_emit|]. intros _.
  destruct (FACTOR_INTEGRATION_AVAILABLE fw).
  - apply tacit_bind; [apply tacit_call|]. intros _.
    apply tacit_bind; [by apply tacit_emit|]. intros _.
    apply tacit_bind; [apply tacit_call|]. intros signals.
    apply tacit_bind; [by apply tacit_emit|]. intros _.
    apply tacit_emit. cbn [mixed]. apply negb_false_iff, uniform_signals.
    intros s. unfold add_mainline. by destruct (_ !! _).
  - apply tacit_bind; [by apply tacit_emit|]. intros _.
    apply tacit_emit. cbn [mixed]. apply negb_false_iff, uniform_dicts.
    intros s. unfold simple_result. by destruct (_ !! _).
Qed.

(** X15.  [_update_table] never raises on a list that [FactorFilterWorker]
    hands to [finished]: such a list holds signals only or dictionaries
    only, and the table shows exactly its items whose score (the combined
    score of a signal, the theme score of a dictionary) is at least the
    minimum, in their order.  On a list that mixes the two kinds the filter
    raises [AttributeError]. *)
Theorem table_shows_emitted (fw : ff_world) (self : FactorFilterWorker)
    (min_score : Q) :
  (∀ data, FFFinished data ∈ (FactorFilterWorker_run fw self).1 →
           _update_table min_score data =
           Returned (List.filter (fun s => qle min_score (item_score s)) data)) ∧
  (∀ sig c m q,
     _update_table min_score [ItemSignal sig; ItemDict c m q] = Raised "AttributeError" ∧
     _update_table min_score [ItemDict c m q; ItemSignal sig] = Raised "AttributeError").
Proof.
  split; [|done].
  intros data Hd. apply _update_table_uniform.
  pose proof (FactorFilterWorker_run_unmixed fw self) as H.
  unfold tacit in H. rewrite Forall_forall in H. specialize (H _ Hd).
  by apply negb_false_iff in H.
Qed.

Lemma table_shows_emitted_witness :
  ∃ data,
    FFFinished data ∈ (FactorFilterWorker_run simplified_mode ai_filter_worker).1 ∧
    length data = 2%nat ∧
    _update_table 90 data = Returned [] ∧ _update_table 80 data = Returned data.
Proof.
  eexists. split; [vm_compute; repeat first [apply list_elem_of_here | apply list_elem_of_further]|].
  split; [reflexivity|]. split.
  - rewrite (proj1 (table_shows_emitted simplified_mode ai_filter_worker 90) _).
    + reflexivity.
    + vm_compute; repeat first [apply list_elem_of_here | apply list_elem_of_further].
  - rewrite (proj1 (table_shows_emitted simplified_mode ai_filter_worker 80) _).
    + reflexivity.
    + vm_compute; repeat first [apply list_elem_of_here | apply list_elem_of_further].
Defined.

(** ** The candidate pool *)

Lemma doc_candidates_shape d :
  length (doc_candidates d) = doc_weight d ∧
  Forall (fun c => entry_of_doc d (pool_entry_of c)) (doc_candidates d).
Proof.
  unfold doc_candidates, doc_weight. destruct (md_stocks d) as [stocks|].
  - split; [by rewrite length_fmap|]. apply Forall_fmap, Forall_forall. by intros.
  - split; [done|]. by repeat constructor.
Qed.

Lemma bind_doc_candidates docs :
  length (docs ≫= doc_candidates) = sum_list (doc_weight <$> docs) ∧
  Forall (fun c => ∃ d, d ∈ docs ∧ entry_of_doc d (pool_entry_of c))
         (docs ≫= doc_candidates).
Proof.
  induction docs as [|d docs [IH1 IH2]]; [by split; [|constructor]|].
  destruct (doc_candidates_shape d) as [H1 H2].
  rewrite bind_cons, length_app, fmap_cons, H1, IH1. split; [done|].
  apply Forall_app. split.
  - eapply Forall_impl; [exact H2|]. intros c Hc. exists d. split; [by left|done].
  - eapply Forall_impl; [exact IH2|]. intros c (d' & Hd' & Hc).
    exists d'. split; [by right|done].
Qed.

(** X16.  [load_candidate_stocks] never raises and writes at most one log
    line; without a connection, on a failing query and on an empty
    collection it returns the empty list, otherwise one entry per listed
    stock and one placeholder per document without a stock list.
    [_start_filter] starts no worker without a JQData client, and never one
    with an empty list of themes: an empty pool is replaced by the three
    default themes when the user agrees and stops the filter when not, and
    every entry built from a non-empty pool carries the name, score and
    JQData code of a stored document. *)
Theorem filter_pool (jq_connected connected use_defaults : bool)
    (find : outcome (list mainline_doc)) (period_index : Z) (top_n_value : nat) :
  ∃ tr cands,
    load_candidate_stocks connected find = (tr, Returned cands) ∧
    (length tr ≤ 1)%nat ∧
    match find with
    | Returned docs =>
        if connected
        then length cands = sum_list (doc_weight <$> docs)
        else cands = [] ∧ tr = []
    | Raised _ => cands = [] ∧ tr = (if connected then [LError] else [])
    end ∧
    match _start_filter jq_connected cands use_defaults period_index top_n_value with
    | Some worker =>
        jq_connected = true ∧ ffw_mainlines worker ≠ [] ∧ top_n worker = top_n_value ∧
        ffw_period worker ∈ ["short"; "medium"; "long"] ∧
        match cands with
        | [] => use_defaults = true ∧ ffw_mainlines worker = default_candidates
        | _ => ∃ docs, find = Returned docs ∧
                       Forall (fun e => ∃ d, d ∈ docs ∧ entry_of_doc d e)
                              (ffw_mainlines worker)
        end
    | None => jq_connected = false ∨ (cands = [] ∧ use_defaults = false)
    end.
Proof.
  assert (Hperiod : (if period_index =? 0 then "short"
                     else if period_index =? 1 then "medium"
                     else if period_index =? 2 then "long" else "medium")
                    ∈ ["short"; "medium"; "long"]).
  { destruct (period_index =? 0); [by left|].
    destruct (period_index =? 1); [by right; left|].
    destruct (period_index =? 2); [by right; right; left | by right; left]. }
  assert (Hempty :
    match _start_filter jq_connected [] use_defaults period_index top_n_value with
    | Some worker =>
        jq_connected = true ∧ ffw_mainlines worker ≠ [] ∧ top_n worker = top_n_value ∧
        ffw_period worker ∈ ["short"; "medium"; "long"] ∧
        use_defaults = true ∧ ffw_mainlines worker = default_candidates
    | None => jq_connected = false ∨ ([] = @nil candidate ∧ use_defaults = false)
    end).
  { unfold _start_filter.
    destruct jq_connected; cbn [negb]; [|by left].
    destruct use_defaults; [|by right]. by split_and!. }
  destruct connected.
  2:{ exists [], []. split_and!; [done | simpl; lia | by destruct find |].
      exact Hempty. }
  destruct find as [[|d docs]|x].
  - exists [LWarning], []. split_and!; [done | simpl; lia | done |].
    exact Hempty.
  - destruct (bind_doc_candidates (d :: docs)) as [Hlen HF].
    exists [LInfo], ((d :: docs) ≫= doc_candidates).
    split; [reflexivity|]. split; [simpl; lia|]. split; [exact Hlen|].
    unfold _start_filter. destruct jq_connected; cbn [negb]; [|by left].
    destruct ((d :: docs) ≫= doc_candidates) as [|c cs] eqn:E.
    + destruct use_defaults; [|by right]. by split_and!.
    + split; [done|]. split; [done|]. split; [done|]. split; [exact Hperiod|].
      exists (d :: docs). split; [done|]. cbn [ffw_mainlines]. by apply Forall_fmap.
  - exists [LError], []. split_and!; [done | simpl; lia | done | done |].
    exact Hempty.
Qed.

Lemma filter_pool_witness :
  ∃ tr cands,
    load_candidate_stocks true (Returned [doc_listed; doc_bare]) = (tr, Returned cands) ∧
    length cands = 1%nat ∧
    ∃ worker, _start_filter true cands false 0 30 = Some worker ∧
              ffw_period worker = "short" ∧
              Forall (fun e => ∃ d, d ∈ [doc_listed; doc_bare] ∧ entry_of_doc d e)
                     (ffw_mainlines worker).
Proof.
  destruct (filter_pool true true false (Returned [doc_listed; doc_bare]) 0 30)
    as (tr & cands & E & _ & Hlen & H).
  exists tr, cands. split; [exact E|]. split; [exact Hlen|].
  injection E as _ <-.
  eexists. split; [reflexivity|]. split; [reflexivity|].
  destruct H as (_ & _ & _ & _ & docs & Hd & HF).
  injection Hd as <-. exact HF.
Defined.

(** ** Ranking twice *)

#[local] Existing Instance key2_order.
#[local] Existing Instance key3_order.

Lemma key3_ordered_key2 l : ordered key3_lt l → ordered key2_lt l.
Proof.
  unfold ordered. induction 1 as [|a l _ IH Ha]; constructor; [done|].
  eapply Forall_impl; [exact Ha|]. intros b. unfold key3_lt, key2_lt, key3_cmp.
  by destruct (key2_cmp b a).
Qed.

Lemma overview_rows_idempotent l : overview_rows (overview_rows l) = overview_rows l.
Proof.
  unfold overview_rows at 1, overview_unique.
  rewrite dedup_loop_fixed.
  - rewrite (sort_ordered_id key2_cmp).
    + apply take_ge. unfold overview_rows. rewrite length_take. lia.
    + apply (ordered_take key2_cmp), (sort_ordered key2_cmp).
  - apply (ranked_NoDup key2_cmp identity 50 l).
  - intros s Hs. split; [|apply not_elem_of_empty].
    apply (ranked_elem key2_cmp) in Hs. by apply dedup_first in Hs as (? & _ & _).
Qed.

Lemma overview_rows_of_ranked l :
  overview_rows (_deduplicate_and_sort l) = _deduplicate_and_sort l.
Proof.
  assert (Hcode : ∀ s, s ∈ _deduplicate_and_sort l → code s ≠ "").
  { intros s Hs. apply (ranked_elem key3_cmp) in Hs. by eapply dedup_code_has_code. }
  unfold overview_rows, overview_unique.
  rewrite dedup_loop_fixed.
  - rewrite (sort_ordered_id key2_cmp).
    + apply take_ge. unfold _deduplicate_and_sort. rewrite length_take. lia.
    + apply key3_ordered_key2, (ordered_take key3_cmp), (sort_ordered key3_cmp).
  - replace (identity <$> _deduplicate_and_sort l)
      with (code <$> _deduplicate_and_sort l).
    + apply (ranked_NoDup key3_cmp code 30 l).
    + apply Forall_fmap_ext, Forall_forall. intros s Hs.
      symmetry. by apply identity_of_code, Hcode.
  - intros s Hs. split; [|apply not_elem_of_empty].
    rewrite identity_of_code; by apply Hcode.
Qed.

(** X17.  Ranking a ranked list changes nothing: [_deduplicate_and_sort]
    and the overview's merge are idempotent, and the overview's merge
    leaves a list that [_deduplicate_and_sort] produced as it is: it drops,
    reorders and cuts nothing of it. *)
Theorem ranking_is_idempotent (l : list stock) :
  _deduplicate_and_sort (_deduplicate_and_sort l) = _deduplicate_and_sort l ∧
  overview_rows (overview_rows l) = overview_rows l ∧
  overview_rows (_deduplicate_and_sort l) = _deduplicate_and_sort l.
Proof.
  split_and!.
  - apply _deduplicate_and_sort_idempotent.
  - apply overview_rows_idempotent.
  - apply overview_rows_of_ranked.
Qed.

(** ** From the scans to the script *)

(** X18.  After a single mainline scan and a single technical scan on a
    fresh panel, whatever the collaborators answered, [_generate_code]
    writes a script exactly when one of the scans listed a record; the
    codes the script embeds are distinct, none of them is empty, and each
    is the code of a record that one of the two scans handed over. *)
Theorem scanned_codes_embedded (w : world) (h : host)
    (mainline_stocks tech_stocks : list stock) (src1 src2 : string) :
  (mainline_stocks, src1) ∈
    finished_data (MainlineScanWorker_run w default_mainline_worker).1 →
  (tech_stocks, src2) ∈ finished_data (TechScanWorker_run w "short").1 →
  match written (_generate_code h (after_single_scans mainline_stocks tech_stocks)) with
  | Some (path, text) =>
      path = strategy_path h ∧
      ∃ code_list,
        text = strategy_template (stamp h) code_list ∧
        code_list ≠ [] ∧ NoDup code_list ∧
        Forall (fun c => c ≠ "" ∧ ∃ s, s ∈ mainline_stocks ++ tech_stocks ∧ code s = c)
               code_list
  | None => mainline_stocks = [] ∧ tech_stocks = []
  end.
Proof.
  intros H1 H2.
  apply (MainlineScanWorker_run_post w default_mainline_worker) in H1.
  apply (TechScanWorker_run_listable w "short") in H2.
  assert (Hcodes : table_codes (after_single_scans mainline_stocks tech_stocks)
                   = code <$> (mainline_stocks ++ tech_stocks)).
  { unfold table_codes, after_single_scans. cbn. by rewrite app_nil_r. }
  unfold _generate_code. rewrite Hcodes.
  set (codes := list_to_set (code <$> mainline_stocks ++ tech_stocks) : gset string).
  destruct (decide (codes = ∅)) as [He|He].
  - rewrite (bool_decide_eq_true_2 _ He). cbn [written].
    apply list_to_set_empty_iff, fmap_nil_inv, app_eq_nil in He. exact He.
  - rewrite (bool_decide_eq_false_2 _ He). cbn [written]. split; [done|].
    exists (take 20 (elements codes)). split_and!; [done| | |].
    + destruct (elements codes) as [|c cs] eqn:E; [|done].
      apply elements_empty_inv, leibniz_equiv in E. done.
    + eapply sublist_NoDup; [apply (NoDup_elements codes) | apply sublist_take].
    + apply Forall_forall. intros c Hc. apply (subseteq_take 20) in Hc.
      apply elem_of_elements, elem_of_list_to_set, list_elem_of_fmap in Hc
        as (s & -> & Hs).
      split; [|by exists s].
      apply elem_of_app in Hs as [Hs|Hs].
      * unfold scan_output_ok in H1. rewrite Forall_forall in H1.
        by destruct (H1 s Hs).
      * rewrite Forall_forall in H2. by destruct (H2 s Hs) as (_ & ? & _).
Qed.

Lemma scanned_codes_embedded_witness :
  ∃ tech_stocks,
    length tech_stocks = 1%nat ∧
    match written (_generate_code (host_on "20250102")
                     (after_single_scans get_mock_mainline_stocks tech_stocks)) with
    | Some (path, text) =>
        path = strategy_path (host_on "20250102") ∧
        ∃ code_list,
          text = strategy_template (stamp (host_on "20250102")) code_list ∧
          code_list ≠ [] ∧ NoDup code_list ∧
          Forall (fun c => c ≠ "" ∧
                           ∃ s, s ∈ get_mock_mainline_stocks ++ tech_stocks ∧ code s = c)
                 code_list
    | None => get_mock_mainline_stocks = [] ∧ tech_stocks = []
    end.
Proof.
  eexists. split; [|
    apply (scanned_codes_embedded (spot_world [breakout_row; quiet_row])
             (host_on "20250102") get_mock_mainline_stocks _
             "模拟数据（JQData不可用）" "AKShare实时行情");
    vm_compute; repeat first [apply list_elem_of_here | apply list_elem_of_further]].
  reflexivity.
Defined.

(** ** The end of an overview scan *)

Lemma finished_length {A B} cap (m : W (event (list A)) B) d src :
  tacit (out_of_range cap) m → (d, src) ∈ finished_data m.1 → (length d ≤ cap)%nat.
Proof.
  unfold tacit, finished_data. intros H Hd.
  apply list_elem_of_omap in Hd as (e & He & Hd).
  rewrite Forall_forall in H. specialize (H e He).
  destruct e as [|d' src'|]; try done. injection Hd as -> ->.
  unfold out_of_range, in_range in H. apply negb_false_iff in H.
  by apply Nat.leb_le.
Qed.

Lemma external_data_nonempty w d src :
  (d, src) ∈ finished_data (ExternalParseWorker_run w).1 → d ≠ [].
Proof.
  unfold ExternalParseWorker_run.
  destruct (parse_all w) as [[[|s rest]|]|x]; cbn;
    intros H%list_elem_of_singleton; by injection H as -> _.
Qed.

Lemma overview_stages w p0 p :
  running p0 = [] → rtc (step w) (_do_scan_all p0) p →
  ∃ n, overview_stage w p0 p n ∧ (n ≤ 4)%nat.
Proof.
  intros H0. revert p.
  apply (rtc_ind_r (fun p => ∃ n, overview_stage w p0 p n ∧ (n ≤ 4)%nat));
    [|intros p p' _ Hstep (n & Hn & Hle)].
  { exists 0%nat. split; [|lia]. by exists [], "", [], "", [], "", [], "". }
  destruct Hn as (d1 & s1 & d2 & s2 & d3 & s3 & d4 & s4 & Hn).
  destruct n as [|[|[|[|n]]]]; cbn zeta in Hn.
  - subst p. inversion Hstep as [p d s Hk Hd|p d s Hk Hd|p d s Hk Hd|p d s Hk Hd]; subst;
      cbn in Hk; rewrite H0 in Hk; cbn in Hk;
      try (apply list_elem_of_singleton in Hk; discriminate).
    exists 1%nat. split; [|lia]. by exists d, s, d2, s2, d3, s3, d4, s4.
  - destruct Hn as (H1 & ->).
    inversion Hstep as [p d s Hk Hd|p d s Hk Hd|p d s Hk Hd|p d s Hk Hd]; subst;
      cbn in Hk; rewrite H0 in Hk; cbn in Hk;
      try (apply list_elem_of_singleton in Hk; discriminate).
    exists 2%nat. split; [|lia]. by exists d1, s1, d, s, d3, s3, d4, s4.
  - destruct Hn as (H1 & H2 & ->).
    inversion Hstep as [p d s Hk Hd|p d s Hk Hd|p d s Hk Hd|p d s Hk Hd]; subst;
      cbn in Hk; rewrite H0 in Hk; cbn in Hk;
      try (apply list_elem_of_singleton in Hk; discriminate).
    exists 3%nat. split; [|lia]. by exists d1, s1, d2, s2, d, s, d4, s4.
  - destruct Hn as (H1 & H2 & H3 & ->).
    inversion Hstep as [p d s Hk Hd|p d s Hk Hd|p d s Hk Hd|p d s Hk Hd]; subst;
      cbn in Hk; rewrite H0 in Hk; cbn in Hk;
      try (apply list_elem_of_singleton in Hk; discriminate).
    exists 4%nat. split; [|lia]. by exists d1, s1, d2, s2, d3, s3, d, s.
  - assert (n = 0%nat) as -> by lia.
    destruct Hn as (H1 & H2 & H3 & H4 & ->).
    inversion Hstep as [p d s Hk Hd|p d s Hk Hd|p d s Hk Hd|p d s Hk Hd]; subst;
      cbn in Hk; rewrite H0 in Hk; cbn in Hk; by apply elem_of_nil in Hk.
Qed.

(** X19.  When an overview scan started with no worker running has handled
    its last [finished] signal, the panel is the one the four slots build,
    in order, from the lists the four workers handed over.  The cards show
    the lengths of those lists: at most 30 mainline records, at most 20
    technical records, at most 20 ETFs and at least one external record;
    the merged list has as many records as the cards add up to; the table
    shows its ranking, at most 50 rows; the bar is hidden and the button
    enabled again; and the tables of the mainline, technical and external
    tabs are as they were, so the scan adds nothing to what
    [_generate_code] reads. *)
Theorem overview_scan_result (w : world) (p0 p : StockPoolPanel) :
  running p0 = [] → rtc (step w) (_do_scan_all p0) p → running p = [] →
  (∃ d1 s1 d2 s2 d3 s3 d4 s4,
     (d1, s1) ∈ finished_data (MainlineScanWorker_run w default_mainline_worker).1 ∧
     (d2, s2) ∈ finished_data (TechScanWorker_run w "short").1 ∧
     (d3, s3) ∈ finished_data (ETFScanWorker_run w).1 ∧
     (d4, s4) ∈ finished_data (ExternalParseWorker_run w).1 ∧
     p = overview_scan p0 d1 s1 d2 s2 d3 s3 d4 s4) ∧
  (stat_mainline p ≤ 30 ∧ stat_tech p ≤ 20 ∧ stat_etf p ≤ 20 ∧ 1 ≤ stat_external p)%nat ∧
  length (_all_stocks p) =
    (stat_mainline p + stat_tech p + stat_etf p + stat_external p)%nat ∧
  overview_table p = overview_rows (_all_stocks p) ∧
  (length (overview_table p) ≤ 50)%nat ∧
  overview_progress_visible p = false ∧ scan_all_btn_enabled p = true ∧
  table_codes p = table_codes p0.
Proof.
  intros H0 Hsteps Hrun.
  destruct (overview_stages w p0 p H0 Hsteps)
    as (n & (d1 & s1 & d2 & s2 & d3 & s3 & d4 & s4 & Hn) & Hle).
  destruct n as [|[|[|[|n]]]]; cbn zeta in Hn.
  - subst p. cbn in Hrun. by rewrite H0 in Hrun.
  - destruct Hn as (_ & ->). cbn in Hrun. by rewrite H0 in Hrun.
  - destruct Hn as (_ & _ & ->). cbn in Hrun. by rewrite H0 in Hrun.
  - destruct Hn as (_ & _ & _ & ->). cbn in Hrun. by rewrite H0 in Hrun.
  - destruct Hn as (H1 & H2 & H3 & H4 & ->).
    pose proof (finished_length 30 _ d1 s1
                  (MainlineScanWorker_run_bounded w default_mainline_worker) H1).
    pose proof (finished_length 20 _ d2 s2 (TechScanWorker_run_bounded w "short") H2).
    pose proof (finished_length 20 _ d3 s3 (ETFScanWorker_run_bounded w) H3).
    pose proof (external_data_nonempty w d4 s4 H4) as Hd4.
    split; [by exists d1, s1, d2, s2, d3, s3, d4, s4|].
    unfold overview_scan.
    cbn [stat_mainline stat_tech stat_etf stat_external _all_stocks overview_table
         overview_progress_visible scan_all_btn_enabled table_codes mainline_table
         tech_table external_table _on_overview_external_done _on_overview_etf_done
         _on_overview_tech_done _on_overview_mainline_done _do_scan_all deliver
         _start_mainline_scan _start_tech_scan _start_etf_scan _start_external_scan
         start_worker].
    split_and!; [lia | lia | lia | | | done | | done | done | done].
    + destruct d4; [done|simpl; lia].
    + rewrite !length_app, length_fmap. simpl. lia.
    + unfold overview_rows. rewrite length_take. lia.
Qed.

Lemma overview_scan_result_witness :
  ∃ p, rtc (step leader_world) (_do_scan_all panel_init) p ∧
       (stat_mainline p ≤ 30 ∧ stat_tech p ≤ 20 ∧ stat_etf p ≤ 20 ∧
        1 ≤ stat_external p)%nat ∧
       (length (overview_table p) ≤ 50)%nat ∧
       table_codes p = table_codes panel_init.
Proof.
  destruct (overview_scan_completes leader_world panel_init eq_refl)
    as (p & Hsteps & _ & Hrun & _).
  exists p. split; [exact Hsteps|].
  destruct (overview_scan_result leader_world panel_init p eq_refl Hsteps Hrun)
    as (_ & Hstats & _ & _ & Hlen & _ & _ & Hcodes).
  split; [exact Hstats|]. split; [exact Hlen | exact Hcodes].
Defined.

(** ** Every list of the mainline scan is ranked *)



#[local] Existing Instance key3_order.



(** ** The simplified mode of the factor filter *)

Lemma available_date_call fw :
  (∃ x, get_available_date fw = Some (Raised x)) ∨
  ∃ ad, (match get_available_date fw with
         | Some r => call r
         | None => w_ret None
         end : W ff_event (option string)) = ([], Returned ad) ∧
        match ad with
        | Some d => if bool_decide (d = "") then today fw else d
        | None => today fw
        end = filter_date fw.
Proof.
  unfold filter_date. destruct (get_available_date fw) as [[ad|x]|].
  - right. by exists ad.
  - left. by exists x.
  - right. by exists None.
Qed.

Lemma not_finished_in_tacit {B} (m : W ff_event B) data :
  tacit ff_final m → FFFinished data ∉ m.1.
Proof.
  unfold tacit. rewrite Forall_forall. intros H Hin. by specialize (H _ Hin).
Qed.

Lemma item_code_simple_result map c : item_code (simple_result map c) = c.
Proof. unfold simple_result. by destruct (map !! c). Qed.

Lemma item_codes_simple map (l : list string) : item_code <$> (simple_result map <$> l) = l.
Proof.
  induction l as [|c l IH]; [done|].
  rewrite !fmap_cons, item_code_simple_result. by f_equal.
Qed.

(** X21.  In the simplified mode (no scoring collaborator), a list that
    [FactorFilterWorker.run] hands to [finished] has at most [top_n]
    entries, all of them dictionaries, with distinct codes; each entry
    carries the name and score of the first theme of [self.mainlines] that
    has a JQData code and whose stored constituents hold the entry's code,
    so the defaults of the lookup are never used. *)
Theorem simplified_mode_rows (fw : ff_world) (self : FactorFilterWorker)
    (data : list ff_item) :
  FACTOR_INTEGRATION_AVAILABLE fw = false →
  FFFinished data ∈ (FactorFilterWorker_run fw self).1 →
  (length data ≤ top_n self)%nat ∧
  NoDup (item_code <$> data) ∧
  Forall (fun it => ∃ c ml,
            it = ItemDict c (pe_mainline ml) (pe_mainline_score ml) ∧
            List.find (theme_lists fw c) (ffw_mainlines self) = Some ml) data.
Proof.
  intros Hsimple. unfold FactorFilterWorker_run.
  destruct (import_jqdatasdk fw) as [[]|x].
  2:{ cbn. intros H. repeat (apply elem_of_cons in H as [H|H]; [done|]).
      by apply elem_of_nil in H. }
  destruct (available_date_call fw) as [[x Hx]|(ad & Had & Hdate)].
  { rewrite Hx. cbn. intros H. repeat (apply elem_of_cons in H as [H|H]; [done|]).
    by apply elem_of_nil in H. }
  cbn [call w_bind emit try_except w_ret fst snd app]. rewrite Had.
  cbn [call w_bind emit try_except w_ret fst snd app]. rewrite Hdate.
  set (jq_codes := elements (list_to_set _)).
  pose proof (fetch_all_tacit fw (filter_date fw) jq_codes ∅) as Htacit.
  destruct (fetch_all_fetched fw (filter_date fw) jq_codes ∅)
    as (tr & sbm & E & Hsbm & _).
  rewrite E in Htacit |- *. cbn [w_bind]. rewrite Hsimple.
  destruct (merge_entry_fold sbm (ffw_mainlines self) (∅, []))
    as (Hmap & new & Hcodes & Hnd & Hnew).
  destruct (fold_left _ _ _) as [map codes]. cbn [fst snd app] in Hmap, Hcodes, Hnew.
  subst new.
  assert (Hdata : ∀ t, FFFinished data ∈ FFProgress :: FFMainlineInfo
                    (size (list_to_set (C:=gset string)
                       (List.filter (fun n => negb (bool_decide (n = "")))
                                    (pe_mainline <$> ffw_mainlines self))))
                    :: FFProgress :: FFProgress :: tr ++ t →
                  FFFinished data ∈ t).
  { intros t H. repeat (apply elem_of_cons in H as [H|H]; [done|]).
    apply elem_of_app in H as [H|H]; [|done].
    by apply (not_finished_in_tacit _ data Htacit) in H. }
  destruct codes as [|c0 codes]; cbn; intros H%Hdata.
  { apply list_elem_of_singleton in H. done. }
  repeat (apply elem_of_cons in H as [H|H]; [try done|]);
    [|by apply elem_of_nil in H].
  injection H as ->. split_and!.
  - rewrite length_fmap, length_take. lia.
  - rewrite item_codes_simple.
    eapply sublist_NoDup; [exact Hnd | apply sublist_take].
  - apply Forall_fmap, Forall_forall. intros c Hc.
    apply (subseteq_take (top_n self)) in Hc.
    apply Hnew in Hc as [_ [ml Hml]]. exists c, ml.
    assert (Hfind : List.find (theme_lists fw c) (ffw_mainlines self) = Some ml).
    { rewrite <- Hml. apply find_ext_in. intros e He.
      unfold theme_lists, lists_code. rewrite Hsbm, lookup_empty.
      destruct (decide (pe_jq_code e = "")) as [Hk|Hk].
      - rewrite (bool_decide_eq_true_2 _ Hk). cbn [negb andb].
        rewrite bool_decide_eq_false_2; [done|].
        unfold jq_codes. rewrite elem_of_elements, elem_of_list_to_set.
        intros Hin. apply list_elem_of_In, List.filter_In in Hin as [_ Hin].
        by rewrite Hk in Hin.
      - rewrite (bool_decide_eq_false_2 _ Hk). cbn [negb andb].
        rewrite bool_decide_eq_true_2.
        + by destruct (fetched fw (filter_date fw) (pe_jq_code e)).
        + unfold jq_codes. rewrite elem_of_elements, elem_of_list_to_set.
          apply list_elem_of_In, List.filter_In. split.
          * apply list_elem_of_In. by apply list_elem_of_fmap_2.
          * by rewrite (bool_decide_eq_false_2 _ Hk). }
    split; [|exact Hfind].
    unfold simple_result. by rewrite Hmap, lookup_empty, Hml.
Qed.

Lemma simplified_mode_rows_witness :
  ∃ data,
    FFFinished data ∈ (FactorFilterWorker_run simplified_mode ai_filter_worker).1 ∧
    length data = 2%nat ∧
    NoDup (item_code <$> data) ∧
    Forall (fun it => ∃ c ml,
              it = ItemDict c (pe_mainline ml) (pe_mainline_score ml) ∧
              List.find (theme_lists simplified_mode c) (ffw_mainlines ai_filter_worker)
              = Some ml) data.
Proof.
  assert (H : FFFinished [ItemDict "002230.XSHE" "人工智能" 88;
                          ItemDict "300750.XSHE" "人工智能" 88]
              ∈ (FactorFilterWorker_run simplified_mode ai_filter_worker).1).
  { vm_compute. repeat first [apply list_elem_of_here | apply list_elem_of_further]. }
  eexists. split; [exact H|]. split; [reflexivity|].
  apply (simplified_mode_rows simplified_mode ai_filter_worker _ eq_refl H).
Defined.

(** ** The source label of the mainline scan *)

Section Labelled.
Context {A : Type} (R : A → string → Prop).




End Labelled.











